(** * cookiecutter.generate: a shallow embedding and its verification

    The development follows [src/cookiecutter/generate.py].  The Python
    program is effectful: it reads and writes the file system, mutates the
    context dictionary it is handed, and calls out to Jinja2, binaryornot,
    the hook runner and a handful of [os] / [shutil] primitives.  We embed it
    as follows.

    - Strings are Rocq strings.  A character is a byte; unicode text is
      represented by its UTF-8 encoding (a lone surrogate by the three
      bytes the encoding scheme gives it), so that writing text through
      [io.open(..., encoding='utf-8')] stores the representing bytes, or
      fails on a surrogate, as the strict codec does.
    - [os.path] (POSIX flavour) and [fnmatch] are transcribed from the
      Python standard library, function by function.
    - Python dictionaries live in a heap of mutable objects and are denoted
      by references, so that aliasing (and self-reference) is visible.
    - The file system is a finite map from absolute, normalised paths
      (lists of components) to nodes.  There are no symbolic links.
    - Effects are threaded through a state-and-exception monad over a
      [world]: heap, file system, working directory and a log of the
      primitive operations performed.
    - Jinja2, the binary detector, the template finder, the context loader
      and the hook runner are collaborators that live outside the module;
      they are section variables. *)

From Stdlib Require Import Ascii String List Bool Arith NArith Lia.
From stdpp Require Import base option strings list gmap fin_maps.

Local Open Scope string_scope.
Local Open Scope list_scope.
Set Warnings "-register-all".

(* ===================================================================== *)
(** ** Strings                                                            *)
(* ===================================================================== *)

Module Str.

Definition slash : ascii := "/"%char.

Definition is_slash (c : ascii) : bool := Ascii.eqb c slash.

(** [s.startswith(p)] *)
Fixpoint startswith (p s : string) : bool :=
  match p, s with
  | EmptyString, _ => true
  | String a p', String b s' => Ascii.eqb a b && startswith p' s'
  | String _ _, EmptyString => false
  end.

(** [p in s] for strings: substring test. *)
Fixpoint contains (p s : string) : bool :=
  startswith p s ||
  match s with
  | EmptyString => false
  | String _ s' => contains p s'
  end.

(** [s.endswith('/')] *)
Fixpoint ends_with_slash (s : string) : bool :=
  match s with
  | EmptyString => false
  | String c EmptyString => is_slash c
  | String _ s' => ends_with_slash s'
  end.

(** [s.split('/')]: never empty, [''.split('/') == ['']]. *)
Fixpoint split_slash (s : string) : list string :=
  match s with
  | EmptyString => [EmptyString]
  | String c r =>
      if is_slash c then EmptyString :: split_slash r
      else match split_slash r with
           | h :: t => String c h :: t
           | [] => [String c EmptyString]
           end
  end.

(** ['/'.join(l)] *)
Fixpoint join_slash (l : list string) : string :=
  match l with
  | [] => EmptyString
  | [x] => x
  | x :: rest => x +:+ String slash (join_slash rest)
  end.

End Str.

(* ===================================================================== *)
(** ** [os.path], POSIX flavour                                           *)
(* ===================================================================== *)

Module PosixPath.
Import Str.

(** [posixpath.isabs] *)
Definition isabs (p : string) : bool := startswith "/" p.

(** [posixpath.join(a, b)] *)
Definition join (a b : string) : string :=
  if startswith "/" b then b
  else if (String.eqb a "" || ends_with_slash a)%bool then a +:+ b
  else a +:+ "/" +:+ b.

(** [posixpath.join(a, b, c)] is a left fold of the binary join. *)
Definition join3 (a b c : string) : string := join (join a b) c.

(** Number of initial slashes that [normpath] keeps: none, one, or
    exactly two ("//x" is kept, "///x" collapses to "/x"). *)
Definition initial_slashes (p : string) : nat :=
  if startswith "/" p then
    if (startswith "//" p && negb (startswith "///" p))%bool then 2 else 1
  else 0.

(** One iteration of the component loop of [normpath]. *)
Definition norm_step (init : nat) (new_comps : list string) (comp : string)
  : list string :=
  if (String.eqb comp "" || String.eqb comp ".")%bool then new_comps
  else if (negb (String.eqb comp "..")
           || (Nat.eqb init 0 && bool_decide (new_comps = []))
           || match last new_comps with
              | Some l => String.eqb l ".."
              | None => false
              end)%bool
       then new_comps ++ [comp]
       else removelast new_comps.

Definition norm_comps (init : nat) (comps : list string) : list string :=
  fold_left (norm_step init) comps [].

Fixpoint slashes (n : nat) : string :=
  match n with
  | O => ""
  | S k => String slash (slashes k)
  end.

(** [posixpath.normpath] *)
Definition normpath (path : string) : string :=
  if String.eqb path "" then "."
  else
    let init := initial_slashes path in
    let comps := norm_comps init (split_slash path) in
    let p := slashes init +:+ join_slash comps in
    if String.eqb p "" then "." else p.

(** [posixpath.abspath], with the working directory made explicit. *)
Definition abspath (cwd path : string) : string :=
  if isabs path then normpath path else normpath (join cwd path).

(** [posixpath.split(p)[1]]: what follows the last slash. *)
Definition basename (p : string) : string :=
  match last (split_slash p) with
  | Some t => t
  | None => ""
  end.

(** The components that address a node, from an absolute path. *)
Definition components (p : string) : list string :=
  filter (λ c, c ≠ "") (split_slash p).

End PosixPath.

(* ===================================================================== *)
(** ** [fnmatch]                                                          *)
(* ===================================================================== *)

Module Fnmatch.

(** An item of a bracket expression, as [re] reads it. *)
Inductive citem :=
| CSingle (c : ascii)
| CRange (lo hi : ascii).

(** What [fnmatch.translate] produces, piece by piece. *)
Inductive tok :=
| TStar                                  (* [*]  becomes [.*]  *)
| TAny                                   (* [?]  becomes [.]   *)
| TLit (c : ascii)                       (* re.escape(c)       *)
| TClass (neg : bool) (items : list citem).

Definition code (c : ascii) : N := N_of_ascii c.

Definition citem_ok (i : citem) : bool :=
  match i with
  | CSingle _ => true
  | CRange lo hi => (code lo <=? code hi)%N
  end.

Definition citem_match (c : ascii) (i : citem) : bool :=
  match i with
  | CSingle d => Ascii.eqb c d
  | CRange lo hi => ((code lo <=? code c) && (code c <=? code hi))%N
  end.

(** Items of the text between the brackets: [x-y] is a range, anything
    else stands for itself (a dash that is first or last is literal). *)
Fixpoint class_items (l : list ascii) : list citem :=
  match l with
  | [] => []
  | lo :: rest =>
      match rest with
      | "-"%char :: hi :: rest' => CRange lo hi :: class_items rest'
      | _ => CSingle lo :: class_items rest
      end
  end.

(** The scan [while j < n and pat[j] != ']'] of [translate]: the text up
    to the next closing bracket, and what follows that bracket. *)
Fixpoint until_close (l : list ascii) : option (list ascii * list ascii) :=
  match l with
  | [] => None
  | c :: rest =>
      if Ascii.eqb c "]" then Some ([], rest)
      else match until_close rest with
           | Some (stuff, after) => Some (c :: stuff, after)
           | None => None
           end
  end.

(** The bracket branch of [translate], entered just after a ["["].
    A leading ["!"] and then a leading ["]"] belong to the class; when no
    closing bracket follows, the ["["] is a literal. *)
Definition bracket (l : list ascii) : option (bool * list ascii * list ascii) :=
  let '(neg, l1) :=
    match l with
    | "!"%char :: r => (true, r)
    | _ => (false, l)
    end in
  let '(first, l2) :=
    match l1 with
    | "]"%char :: r => (["]"%char], r)
    | _ => ([], l1)
    end in
  match until_close l2 with
  | Some (stuff, after) => Some (neg, first ++ stuff, after)
  | None => None
  end.

(** [fnmatch.translate], to tokens instead of a regular expression. *)
Fixpoint translate (fuel : nat) (pat : list ascii) : list tok :=
  match fuel with
  | O => []
  | S fuel' =>
      match pat with
      | [] => []
      | c :: rest =>
          if Ascii.eqb c "*" then TStar :: translate fuel' rest
          else if Ascii.eqb c "?" then TAny :: translate fuel' rest
          else if Ascii.eqb c "[" then
            match bracket rest with
            | Some (neg, stuff, after) =>
                TClass neg (class_items stuff)
                  :: translate fuel' after
            | None => TLit c :: translate fuel' rest
            end
          else TLit c :: translate fuel' rest
      end
  end.

Definition tok_ok (t : tok) : bool :=
  match t with
  | TClass _ items => forallb citem_ok items
  | _ => true
  end.

(** [re.match(res, name)] for the translated pattern, which ends in
    [\Z] and carries the DOTALL flag: the whole name must match, and
    [.] matches every character. *)
Fixpoint match_toks (ts : list tok) (s : list ascii) {struct ts} : bool :=
  match ts with
  | [] => match s with [] => true | _ => false end
  | TStar :: ts' =>
      (fix star (s : list ascii) : bool :=
         match_toks ts' s ||
         match s with
         | [] => false
         | _ :: r => star r
         end) s
  | TAny :: ts' =>
      match s with
      | [] => false
      | _ :: r => match_toks ts' r
      end
  | TLit c :: ts' =>
      match s with
      | [] => false
      | d :: r => Ascii.eqb c d && match_toks ts' r
      end
  | TClass neg items :: ts' =>
      match s with
      | [] => false
      | d :: r => xorb neg (existsb (citem_match d) items) && match_toks ts' r
      end
  end.

Definition compile (pat : string) : option (list tok) :=
  let l := list_ascii_of_string pat in
  let ts := translate (S (length l)) l in
  if forallb tok_ok ts then Some ts else None.

(** [fnmatch.fnmatch(name, pat)] on POSIX, where [os.path.normcase] is
    the identity.  [None] stands for the [re.error] that a reversed
    range such as [[z-a]] raises when the pattern is compiled. *)
Definition fnmatch (name pat : string) : option bool :=
  match compile pat with
  | Some ts => Some (match_toks ts (list_ascii_of_string name))
  | None => None
  end.

End Fnmatch.

(* ===================================================================== *)
(** ** The utf-8 codec                                                    *)
(* ===================================================================== *)

Module Utf8.

(** Text is held as the bytes of its encoding.  The one thing the strict
    encoder refuses is a surrogate code point, U+D800 to U+DFFF; the
    encoding scheme gives it the lead byte ED followed by a byte from A0
    to BF, and ED leads nothing else with such a second byte. *)
Fixpoint has_surrogate (s : string) : bool :=
  match s with
  | EmptyString => false
  | String a r =>
      match r with
      | String b _ =>
          (N.eqb (N_of_ascii a) 237
           && N.leb 160 (N_of_ascii b) && N.leb (N_of_ascii b) 191)
          || has_surrogate r
      | EmptyString => false
      end
  end.

End Utf8.


(* ===================================================================== *)
(** ** Python values, the heap, and exceptions                            *)
(* ===================================================================== *)

Import PosixPath.

Definition loc := positive.

(** The values a context can hold once it is loaded from JSON.  A
    dictionary is a mutable object: a value mentions it by reference. *)
Inductive value :=
| VNone
| VBool (b : bool)
| VInt (z : Z)
| VStr (s : string)
| VList (l : list value)
| VDict (r : loc).

Inductive exn :=
| KeyError
| TypeError
| ReError                         (* re.error, from a malformed bracket *)
| NonTemplatedInputDirException
| TemplateError (detail : string) (* whatever Jinja2 raises *)
| ContextError (detail : string)  (* the declaration file is missing or malformed *)
| OSError (path : list string)    (* OSError / IOError on a path *)
| UnicodeEncodeError              (* the utf-8 codec refuses a lone surrogate *)
| ShutilError (path : list string)
| HookError (name : string)
| DanglingReference               (* not a Python error: the heap has no such object *)
| FuelExhausted.                  (* not a Python error: the walk is deeper than the bound *)

Inductive outcome (A : Type) :=
| Ok (a : A)
| Raise (e : exn).
Arguments Ok {A} a.
Arguments Raise {A} e.

(* ===================================================================== *)
(** ** The file system                                                    *)
(* ===================================================================== *)

(** A node carries its permission bits ([stat.S_IMODE]). *)
Inductive node :=
| File (data : string) (mode : N)
| Dir (mode : N).

Definition node_mode (n : node) : N :=
  match n with
  | File _ m => m
  | Dir m => m
  end.

Definition set_mode (m : N) (n : node) : node :=
  match n with
  | File d _ => File d m
  | Dir _ => Dir m
  end.

Definition is_dir_node (n : node) : bool :=
  match n with
  | Dir _ => true
  | File _ _ => false
  end.

(** What the program can observe to have happened, in order. *)
Inductive event :=
| EvRenderName (s : string)                 (* Template(s).render, with the context *)
| EvGetTemplate (name : string)             (* env.get_template(name), then render *)
| EvMakedirs (p : list string)              (* make_sure_path_exists *)
| EvCopyTree (src dst : list string)        (* shutil.copytree *)
| EvCopyFile (src dst : list string)        (* shutil.copyfile *)
| EvCopyMode (src dst : list string)        (* shutil.copymode *)
| EvWrite (dst : list string)               (* io.open(dst, 'w').write *)
| EvHook (name : string) (project_dir : string)
         (seen : gmap (list string) node)   (* the file system the script starts from *)
| EvWalk (root : string) (dirs files : list string)
                                            (* os.walk yields this triple *)
| EvPolicy (path : string).                 (* copy_without_render is asked about path *)

Record world := World {
  heap : gmap loc (gmap string value);
  fs : gmap (list string) node;
  cwd : string;
  log : list event
}.

Definition with_heap (h : gmap loc (gmap string value)) (w : world) : world :=
  World h (fs w) (cwd w) (log w).
Definition with_fs (f : gmap (list string) node) (w : world) : world :=
  World (heap w) f (cwd w) (log w).
Definition with_cwd (d : string) (w : world) : world :=
  World (heap w) (fs w) d (log w).
Definition with_event (e : event) (w : world) : world :=
  World (heap w) (fs w) (cwd w) (log w ++ [e]).

(** *** Reading the file system *)

Module FS.

(** Permission bits of the root directory, which has no entry of its own. *)
Definition root_mode : N := 493.

Definition node_at (f : gmap (list string) node) (p : list string) : option node :=
  match p with
  | [] => Some (Dir root_mode)
  | _ => f !! p
  end.

Definition isdir (f : gmap (list string) node) (p : list string) : bool :=
  match node_at f p with
  | Some (Dir _) => true
  | _ => false
  end.

Definition parent (p : list string) : list string := removelast p.

(** A name that can be a directory entry: not empty, no slash, and not
    one of the special entries that [os.listdir] leaves out. *)
Definition plain (c : string) : bool :=
  negb (String.eqb c "") && negb (String.eqb c ".") && negb (String.eqb c "..")
  && negb (Str.contains "/" c).

(** [k] is the child [p ++ [c]] of [p]: return [c]. *)
Fixpoint child_of (p k : list string) : option string :=
  match p, k with
  | [], [c] => Some c
  | a :: p', b :: k' => if String.eqb a b then child_of p' k' else None
  | _, _ => None
  end.

(** [k = p ++ suffix]: return [suffix]. *)
Fixpoint strip_prefix (p k : list string) : option (list string) :=
  match p, k with
  | [], _ => Some k
  | a :: p', b :: k' => if String.eqb a b then strip_prefix p' k' else None
  | _ :: _, [] => None
  end.

(** [os.listdir(p)] followed by the [isdir] split of [os.walk]:
    the sub-directories and the other entries of [p]. *)
Definition entries (f : gmap (list string) node) (p : list string)
  : list (string * node) :=
  omap (λ kn : list string * node,
          match child_of p kn.1 with
          | Some c => if plain c then Some (c, kn.2) else None
          | None => None
          end)
       (map_to_list f).

Definition listdir (f : gmap (list string) node) (p : list string)
  : option (list string * list string) :=
  if isdir f p then
    let es := entries f p in
    Some ((filter (λ e, is_dir_node e.2 = true) es).*1,
          (filter (λ e, is_dir_node e.2 = false) es).*1)
  else None.

(** *** Writing the file system *)

(** Permission bits of a newly created file and directory under [umask]. *)
Definition new_file_mode (umask : N) : N := N.ldiff 438 umask.
Definition new_dir_mode (umask : N) : N := N.ldiff 511 umask.

(** [os.makedirs] that tolerates what exists: walk down from [prefix],
    creating each missing directory; a file in the way is an error. *)
Fixpoint mkdirs (umask : N) (prefix rest : list string)
         (f : gmap (list string) node) : option (gmap (list string) node) :=
  match rest with
  | [] => Some f
  | c :: rest' =>
      let p := prefix ++ [c] in
      match f !! p with
      | Some (Dir _) => mkdirs umask p rest' f
      | Some (File _ _) => None
      | None => mkdirs umask p rest' (<[p := Dir (new_dir_mode umask)]> f)
      end
  end.

(** [open(dst, 'w')]: the parent must be a directory and [dst] must not
    be one; the file is created, or truncated if it is there, and an
    existing file keeps its permission bits. *)
Definition open_w (umask : N) (dst : list string)
           (f : gmap (list string) node) : option (gmap (list string) node) :=
  match dst with
  | [] => None
  | _ =>
      if isdir f (parent dst) then
        match f !! dst with
        | Some (Dir _) => None
        | Some (File _ m) => Some (<[dst := File "" m]> f)
        | None => Some (<[dst := File "" (new_file_mode umask)]> f)
        end
      else None
  end.

(** What a write to the open file leaves in it. *)
Definition put (dst : list string) (data : string)
           (f : gmap (list string) node) : gmap (list string) node :=
  match f !! dst with
  | Some (File _ m) => <[dst := File data m]> f
  | _ => f
  end.

(** [open(dst, 'wb')] and the copy of bytes into it; once the file is
    open, bytes go in without an error. *)
Definition write (umask : N) (dst : list string) (data : string)
           (f : gmap (list string) node) : option (gmap (list string) node) :=
  match open_w umask dst f with
  | Some f1 => Some (put dst data f1)
  | None => None
  end.

(** [os.chmod(dst, mode)] *)
Definition chmod (dst : list string) (m : N)
           (f : gmap (list string) node) : option (gmap (list string) node) :=
  match dst with
  | [] => Some f
  | _ =>
      match f !! dst with
      | Some n => Some (<[dst := set_mode m n]> f)
      | None => None
      end
  end.

(** Everything below [src], re-rooted at [dst], laid over [base]. *)
Definition graft (src dst : list string)
           (f base : gmap (list string) node) : gmap (list string) node :=
  map_fold (λ k n acc,
              match strip_prefix src k with
              | Some (c :: suffix) => <[dst ++ c :: suffix := n]> acc
              | _ => acc
              end)
           base f.

(** [shutil.copytree(src, dst)]: [src] must be a directory, [dst] must
    not exist; the missing ancestors of [dst] are created, then [dst]
    itself with the permission bits of [src], then the whole subtree.
    Copying a tree into itself does not end well in Python; here it is
    refused. *)
Definition copytree (umask : N) (src dst : list string)
           (f : gmap (list string) node) : option (gmap (list string) node) :=
  match node_at f src, node_at f dst with
  | Some (Dir m), None =>
      if bool_decide (src `prefix_of` dst) then None
      else
        match mkdirs umask [] (parent dst) f with
        | Some f1 => Some (graft src dst f (<[dst := Dir m]> f1))
        | None => None
        end
  | _, _ => None
  end.

End FS.

(* ===================================================================== *)
(** ** The monad of effects                                               *)
(* ===================================================================== *)

Definition M (A : Type) : Type := world → outcome A * world.

Definition ret {A} (a : A) : M A := λ w, (Ok a, w).

Definition bind {A B} (c : M A) (k : A → M B) : M B :=
  λ w, match c w with
       | (Ok a, w') => k a w'
       | (Raise e, w') => (Raise e, w')
       end.

Definition raise {A} (e : exn) : M A := λ w, (Raise e, w).

Definition tell (e : event) : M unit := λ w, (Ok tt, with_event e w).

(** An operation that reads the world and cannot change it. *)
Definition observe {A} (f : world → outcome A) : M A := λ w, (f w, w).

Notation "'let*' x ':=' c 'in' k" := (bind c (λ x, k))
  (at level 10, x name, c at level 100, k at level 200).
Notation "'let*' ' p ':=' c 'in' k" := (bind c (λ x, match x with p => k end))
  (at level 10, p pattern, c at level 100, k at level 200).
Notation "c ;;; k" := (bind c (λ _, k))
  (at level 100, k at level 200, right associativity).

(** [for x in l: f(x)] *)
Fixpoint for_each {A} (l : list A) (f : A → M unit) : M unit :=
  match l with
  | [] => ret tt
  | x :: rest => f x ;;; for_each rest f
  end.

(** The key of a path given as the program writes it: relative paths are
    taken from the working directory. *)
Definition key (w : world) (p : string) : list string :=
  components (PosixPath.abspath (cwd w) p).

(* ===================================================================== *)
(** ** Dictionaries                                                       *)
(* ===================================================================== *)

(** [v[k]] *)
Definition getitem (h : gmap loc (gmap string value)) (v : value) (k : string)
  : outcome value :=
  match v with
  | VDict r =>
      match h !! r with
      | Some d =>
          match d !! k with
          | Some x => Ok x
          | None => Raise KeyError
          end
      | None => Raise DanglingReference
      end
  | _ => Raise TypeError
  end.

(** The elements [for x in v] enumerates. *)
Definition iterate (h : gmap loc (gmap string value)) (v : value)
  : outcome (list value) :=
  match v with
  | VList l => Ok l
  | VStr s => Ok (map (λ c, VStr (String c EmptyString)) (list_ascii_of_string s))
  | VDict r =>
      match h !! r with
      | Some d => Ok (map (λ kv : string * value, VStr kv.1) (map_to_list d))
      | None => Raise DanglingReference
      end
  | _ => Raise TypeError
  end.

(** Truth value of a dictionary: empty is false. *)
Definition dict_is_empty (d : gmap string value) : bool :=
  bool_decide (size d = 0).

(** A new object, at an address the heap does not use yet. *)
Definition alloc (d : gmap string value) : M loc :=
  λ w, let r := fresh (dom (heap w)) in
       (Ok r, with_heap (<[r := d]> (heap w)) w).

Definition deref (r : loc) : M (gmap string value) :=
  observe (λ w, match heap w !! r with
                | Some d => Ok d
                | None => Raise DanglingReference
                end).

(** [target[k] = v] *)
Definition setitem (target : loc) (k : string) (v : value) : M unit :=
  let* d := deref target in
  λ w, (Ok tt, with_heap (<[target := <[k := v]> d]> (heap w)) w).

(** [if other: target.update(other)], for [other] a dictionary or [None]:
    every key of [other] is written into [target], replacing what was
    there. *)
Definition update_if (target : loc) (other : option loc) : M unit :=
  match other with
  | None => ret tt
  | Some o =>
      let* od := deref o in
      if dict_is_empty od then ret tt
      else
        let* d := deref target in
        λ w, (Ok tt, with_heap (<[target := od ∪ d]> (heap w)) w)
  end.

(* ===================================================================== *)
(** ** [cookiecutter.generate]                                            *)
(* ===================================================================== *)

(** The Jinja2 environment that [generate_files] builds. *)
Record environment := Environment {
  keep_trailing_newline : bool;
  loader_searchpath : string
}.

(* ===================================================================== *)
(** ** Stand-ins for the collaborators                                    *)
(* ===================================================================== *)

(** Small, executable collaborators, used to run the module on concrete
    templates.  They are not Jinja2 or binaryornot; they are the simplest
    programs that play the same role. *)
Module Demo.

(** The value of [cookiecutter.<name>] in the context; an undefined
    variable renders as the empty string. *)
Definition variable (h : gmap loc (gmap string value)) (context : loc)
           (expr : string) : outcome string :=
  if Str.startswith "cookiecutter." expr then
    match getitem h (VDict context) "cookiecutter" with
    | Ok ns =>
        match getitem h ns (String.substring 13 (String.length expr - 13) expr) with
        | Ok (VStr s) => Ok s
        | Ok _ => Raise (TemplateError "unsupported value")
        | Raise KeyError => Ok ""
        | Raise e => Raise e
        end
    | Raise KeyError => Ok ""
    | Raise e => Raise e
    end
  else Raise (TemplateError "unsupported expression").

(** A template engine that knows one construct, [{{cookiecutter.name}}].
    [pending] is [None] in running text and holds the expression read
    so far between the delimiters. *)
Fixpoint expand (h : gmap loc (gmap string value)) (context : loc)
         (pending : option string) (s : string) : outcome string :=
  let emit c r :=
    match expand h context None r with
    | Ok t => Ok (String c t)
    | Raise e => Raise e
    end in
  match s with
  | EmptyString =>
      match pending with
      | None => Ok EmptyString
      | Some _ => Raise (TemplateError "unexpected end of template")
      end
  | String c r =>
      match pending with
      | None =>
          if Ascii.eqb c "{" then
            match r with
            | String c2 r2 =>
                if Ascii.eqb c2 "{" then expand h context (Some EmptyString) r2
                else if Ascii.eqb c2 "%" || Ascii.eqb c2 "#"
                     then Raise (TemplateError "unsupported block")
                     else emit c r
            | EmptyString => emit c r
            end
          else emit c r
      | Some e =>
          let more := expand h context (Some (e +:+ String c EmptyString)) r in
          if Ascii.eqb c "}" then
            match r with
            | String c2 r2 =>
                if Ascii.eqb c2 "}" then
                  match variable h context e with
                  | Ok v =>
                      match expand h context None r2 with
                      | Ok t => Ok (v +:+ t)
                      | Raise x => Raise x
                      end
                  | Raise x => Raise x
                  end
                else more
            | EmptyString => more
            end
          else more
      end
  end.

(** Jinja2 drops one trailing newline unless told to keep it. *)
Fixpoint strip_newline (s : string) : string :=
  match s with
  | EmptyString => EmptyString
  | String c EmptyString => if Ascii.eqb c "010" then EmptyString else s
  | String c r => String c (strip_newline r)
  end.

Definition render_name (h : gmap loc (gmap string value)) (context : loc)
           (s : string) : outcome string :=
  match expand h context None s with
  | Ok t => Ok (strip_newline t)
  | Raise e => Raise e
  end.

(** Jinja2 reads the source of a template with universal line ends:
    its lexer turns CR LF and a lone CR into its [newline_sequence],
    which is LF unless the environment says otherwise. *)
Fixpoint normalize_newlines (s : string) : string :=
  match s with
  | EmptyString => EmptyString
  | String c r =>
      if Ascii.eqb c "013" then
        match r with
        | String c2 r2 =>
            if Ascii.eqb c2 "010" then String "010" (normalize_newlines r2)
            else String "010" (normalize_newlines r)
        | EmptyString => String "010" EmptyString
        end
      else String c (normalize_newlines r)
  end.

Definition render_source (env : environment) (w : world) (context : loc)
           (name src : string) : outcome string :=
  match expand (heap w) context None (normalize_newlines src) with
  | Ok t => Ok (if keep_trailing_newline env then t else strip_newline t)
  | Raise e => Raise e
  end.

(** A file with a NUL byte in it is binary. *)
Definition is_binary_data (d : string) : bool :=
  existsb (Ascii.eqb Ascii.zero) (list_ascii_of_string d).

(** The template is the first sub-directory of the repository. *)
Definition find_template_in (w : world) (repo_dir : string) : outcome string :=
  match FS.listdir (fs w) (key w repo_dir) with
  | Some (item :: _, _) => Ok (join repo_dir item)
  | Some ([], _) => Raise NonTemplatedInputDirException
  | None => Raise (OSError (key w repo_dir))
  end.

(** A declaration file that holds [vars] under the namespace key. *)
Definition load_context_from_file (vars : gmap string value)
           (context_file : string) : M (gmap string value) :=
  let* ns := alloc vars in
  ret {[ "cookiecutter" := VDict ns ]}.

(** No hook script is installed. *)
Definition no_hook (name project_dir : string) (context : loc) (w : world)
  : outcome unit * gmap (list string) node :=
  (Ok tt, fs w).

(** A pre-generation script that exits with a failure. *)
Definition failing_pre_hook (name project_dir : string) (context : loc)
           (w : world) : outcome unit * gmap (list string) node :=
  if String.eqb name "pre_gen_project" then (Raise (HookError name), fs w)
  else (Ok tt, fs w).

(** *** A template to run *)

Definition template : list string := ["repo"; "{{cookiecutter.project_name}}"].

(** A repository with one template, and an empty output directory. *)
Definition files : gmap (list string) node :=
  list_to_map [
    (["repo"], Dir 493);
    (template, Dir 493);
    (template ++ ["README.md"], File "# {{cookiecutter.project_name}}" 420);
    (template ++ ["run.sh"], File "echo hi" 493);
    (template ++ ["src"], Dir 493);
    (template ++ ["src"; "{{cookiecutter.pkg}}.py"], File "x = '{{cookiecutter.pkg}}'" 420);
    (template ++ ["src"; "asset.bin"], File "raw {{ bytes" 420);
    (template ++ ["static"], Dir 448);
    (template ++ ["static"; "t.html"], File "{{ not rendered }}" 420);
    (["work"], Dir 493);
    (["work"; "out"], Dir 493)
  ].

Definition variables : gmap string value :=
  list_to_map [("project_name", VStr "Demo"); ("pkg", VStr "demo");
               ("_copy_without_render", VList [VStr "*.bin"; VStr "static"])].

(** Object 1 is a context with the namespace key, object 2 its
    namespace, object 3 a flat context, object 4 an empty dictionary. *)
Definition objects : gmap loc (gmap string value) :=
  list_to_map [(1%positive, {[ "cookiecutter" := VDict 2%positive ]});
               (2%positive, variables);
               (3%positive, variables);
               (4%positive, ∅)].

Definition start : world := World objects files "/work" [].

(** The same, at the point where the walk starts: the project root
    exists and the working directory is the template. *)
Definition walking : world :=
  World objects
        (<[ ["work"; "out"; "Demo"; "src"] := Dir 493 ]>
           (<[ ["work"; "out"; "Demo"] := Dir 493 ]> files))
        "/repo/{{cookiecutter.project_name}}" [].

(** A repository whose only directory has no delimiter in its name, and
    one whose only directory has the two delimiters the wrong way round. *)
Definition plain_repo : world :=
  World objects (list_to_map [(["repo"], Dir 493); (["repo"; "project"], Dir 493)])
        "/work" [].

Definition reversed_repo : world :=
  World objects (list_to_map [(["repo"], Dir 493); (["repo"; "}}x{{"], Dir 493);
                              (["work"], Dir 493)])
        "/work" [].

(** A context whose setting is a string where a list is expected. *)
Definition string_setting : gmap loc (gmap string value) :=
  list_to_map [(1%positive, {[ "cookiecutter" := VDict 2%positive ]});
               (2%positive,
                list_to_map [("project_name", VStr "Demo");
                             ("_copy_without_render", VStr "*.html")])].

(** A context whose setting lists paths, without wildcards. *)
Definition literal_setting : gmap loc (gmap string value) :=
  list_to_map [(1%positive, {[ "cookiecutter" := VDict 2%positive ]});
               (2%positive,
                list_to_map [("project_name", VStr "Demo");
                             ("_copy_without_render",
                              VList [VStr "static"; VStr "src/asset.bin"])])].

(** The walk about to start for the second time: the copy of [static]
    from the first generation is in the project. *)
Definition regenerated : world :=
  World objects
        (<[ ["work"; "out"; "Demo"; "static"] := Dir 448 ]> (fs walking))
        "/repo/{{cookiecutter.project_name}}" [].

(** A template with one text file that has no template expression in
    it and whose first line ends in CR LF. *)
Definition dos_text : string :=
  String "a" (String "013" (String "010" (String "b" (String "010" EmptyString)))).

Definition unix_text : string :=
  String "a" (String "010" (String "b" (String "010" EmptyString))).

Definition dos_files : gmap (list string) node :=
  list_to_map [
    (["repo"], Dir 493);
    (template, Dir 493);
    (template ++ ["notes.txt"], File dos_text 420);
    (["work"], Dir 493);
    (["work"; "out"], Dir 493)
  ].

Definition dos_start : world := World objects dos_files "/work" [].

(** A template whose package directory is named by a variable and holds
    a directory of static files next to a module; the setting asks for
    every [static] one level down. *)
Definition package : list string := template ++ ["{{cookiecutter.pkg}}"].

Definition package_files : gmap (list string) node :=
  list_to_map [
    (["repo"], Dir 493);
    (template, Dir 493);
    (package, Dir 493);
    (package ++ ["mod.py"], File "x = 1" 420);
    (package ++ ["static"], Dir 493);
    (package ++ ["static"; "t.html"], File "{{ not rendered }}" 420);
    (["work"], Dir 493);
    (["work"; "out"], Dir 493)
  ].

Definition package_objects : gmap loc (gmap string value) :=
  list_to_map [(1%positive, {[ "cookiecutter" := VDict 2%positive ]});
               (2%positive,
                list_to_map [("project_name", VStr "Demo"); ("pkg", VStr "demo");
                             ("_copy_without_render", VList [VStr "*/static"])])].

Definition package_start : world := World package_objects package_files "/work" [].

(** A context whose project name holds a lone surrogate, as a command
    line argument that was not valid UTF-8 does after decoding with
    [surrogateescape]; the walk is about to start. *)
Definition lone_surrogate : string :=
  String "237" (String "178" (String "128" EmptyString)).

Definition surrogate_objects : gmap loc (gmap string value) :=
  list_to_map [(1%positive, {[ "cookiecutter" := VDict 2%positive ]});
               (2%positive,
                list_to_map [("project_name", VStr lone_surrogate);
                             ("pkg", VStr "demo")])].

Definition surrogate_walking : world :=
  World surrogate_objects (fs walking) "/repo/{{cookiecutter.project_name}}" [].

End Demo.

Section Generate.

(** *** Collaborators *)

(** The creation mask of the process. *)
Variable umask : N.

(** Jinja2, rendering a literal string: [Template(s).render] with the
    context as keyword arguments. *)
Variable render_name : gmap loc (gmap string value) → loc → string → outcome string.

(** Jinja2, rendering a template [name] whose source text the loader
    read: [env.get_template(name).render] with the context. *)
Variable render_source :
  environment → world → loc → string → string → outcome string.

(** [binaryornot.check.is_binary], on the bytes of the file. *)
Variable is_binary_data : string → bool.

(** [cookiecutter.find.find_template]: it only looks. *)
Variable find_template_in : world → string → outcome string.

(** [cookiecutter.parsers.load_context_from_file]: the contents of the
    dictionary it builds; nested objects go to the heap. *)
Variable load_context_from_file : string → M (gmap string value).

(** The script behind a hook: it may fail, and it may change the file
    system. *)
Variable hook_script :
  string → string → loc → world → outcome unit * gmap (list string) node.

(** *** Primitive operations, with their log entries *)

(** [Template(s).render] with the context *)
Definition render (context : loc) (s : string) : M string :=
  tell (EvRenderName s) ;;;
  observe (λ w, render_name (heap w) context s).

Definition read_file (p : string) : M (string * N) :=
  observe (λ w, match FS.node_at (fs w) (key w p) with
                | Some (File d m) => Ok (d, m)
                | _ => Raise (OSError (key w p))
                end).

(** [is_binary(path)] opens the file and classifies its bytes. *)
Definition is_binary (p : string) : M bool :=
  let* '(d, _) := read_file p in
  ret (is_binary_data d).

(** Where [FileSystemLoader] looks for the template [name]: the name is
    split at slashes, a [..] piece is refused, empty and [.] pieces are
    dropped, and the rest is joined onto the search path. *)
Definition template_filename (searchpath name : string) : option string :=
  let pieces := Str.split_slash name in
  if bool_decide (".." ∈ pieces) then None
  else Some (fold_left join (filter (λ p, p ≠ "" ∧ p ≠ ".") pieces) searchpath).

(** [env.get_template(name).render] with the context: the loader reads
    the file below its search path. *)
Definition get_template_render (env : environment) (context : loc)
           (name : string) : M string :=
  tell (EvGetTemplate name) ;;;
  observe (λ w,
    match template_filename (loader_searchpath env) name with
    | Some filename =>
        match FS.node_at (fs w) (key w filename) with
        | Some (File src _) => render_source env w context name src
        | _ => Raise (TemplateError "TemplateNotFound")
        end
    | None => Raise (TemplateError "TemplateNotFound")
    end).

(** [shutil.copyfile(src, dst)]: the two paths are compared and the
    source is opened before the destination is created or truncated;
    after that the bytes go over, and no failure is modelled between
    the opening of the destination and the end of the copy. *)
Definition copyfile (src dst : string) : M unit :=
  λ w,
    let ks := key w src in
    let kd := key w dst in
    let w1 := with_event (EvCopyFile ks kd) w in
    match FS.node_at (fs w) ks with
    | Some (File d _) =>
        if bool_decide (ks = kd) then (Raise (ShutilError kd), w1)
        else match FS.write umask kd d (fs w) with
             | Some f' => (Ok tt, with_fs f' w1)
             | None => (Raise (OSError kd), w1)
             end
    | _ => (Raise (OSError ks), w1)
    end.

(** [shutil.copymode(src, dst)] *)
Definition copymode (src dst : string) : M unit :=
  λ w,
    let ks := key w src in
    let kd := key w dst in
    let w1 := with_event (EvCopyMode ks kd) w in
    match FS.node_at (fs w) ks with
    | Some n =>
        match FS.chmod kd (node_mode n) (fs w) with
        | Some f' => (Ok tt, with_fs f' w1)
        | None => (Raise (OSError kd), w1)
        end
    | None => (Raise (OSError ks), w1)
    end.

(** [with io.open(dst, 'w', encoding='utf-8') as fh: fh.write(text)]:
    the file is opened, that is created or truncated, before the text is
    encoded; when the codec refuses the text the empty file stays. *)
Definition write_text (dst : string) (text : string) : M unit :=
  λ w,
    let kd := key w dst in
    let w1 := with_event (EvWrite kd) w in
    match FS.open_w umask kd (fs w) with
    | Some f1 =>
        if Utf8.has_surrogate text
        then (Raise UnicodeEncodeError, with_fs f1 w1)
        else (Ok tt, with_fs (FS.put kd text f1) w1)
    | None => (Raise (OSError kd), w1)
    end.

(** [shutil.copytree(src, dst)] *)
Definition copytree (src dst : string) : M unit :=
  λ w,
    let ks := key w src in
    let kd := key w dst in
    let w1 := with_event (EvCopyTree ks kd) w in
    match FS.copytree umask ks kd (fs w) with
    | Some f' => (Ok tt, with_fs f' w1)
    | None => (Raise (OSError kd), w1)
    end.

(** Modelled from the spec: [cookiecutter.utils.make_sure_path_exists]
    is not part of the module.  The specification asks that every
    missing intermediate directory be created, that a directory which is
    already there be no error, and that a collision be an I/O error. *)
Definition make_sure_path_exists (p : string) : M unit :=
  λ w,
    let k := key w p in
    let w1 := with_event (EvMakedirs k) w in
    match FS.mkdirs umask [] k (fs w) with
    | Some f' => (Ok tt, with_fs f' w1)
    | None => (Raise (OSError k), w1)
    end.

(** Modelled from the spec: [cookiecutter.utils.work_in] is not part of
    the module.  The specification asks that the working directory be
    saved, switched, and restored on every exit path, failure included. *)
Definition work_in {A} (dirname : string) (body : M A) : M A :=
  λ w,
    let saved := cwd w in
    let k := key w dirname in
    if FS.isdir (fs w) k then
      let '(r, w') := body (with_cwd (PosixPath.abspath saved dirname) w) in
      (r, with_cwd saved w')
    else (Raise (OSError k), w).

(** [run_hook(name, project_dir, context)] *)
Definition run_hook (name project_dir : string) (context : loc) : M unit :=
  λ w,
    let w1 := with_event (EvHook name project_dir (fs w)) w in
    let '(r, f') := hook_script name project_dir context w1 in
    (r, with_fs f' w1).

Definition find_template (repo_dir : string) : M string :=
  observe (λ w, find_template_in w repo_dir).

(** [os.walk(top)], top-down, as a loop: [body] is what the caller does
    with each triple the generator yields, and what it answers is the
    directory list as the caller left it, which is where the generator
    goes next.  A directory that cannot be listed is skipped in silence.
    [fuel] bounds the depth. *)
Fixpoint walk (fuel : nat)
         (body : string → list string → list string → M (list string))
         (top : string) : M unit :=
  match fuel with
  | O => raise FuelExhausted
  | S fuel' =>
      let* names := observe (λ w, Ok (FS.listdir (fs w) (key w top))) in
      match names with
      | None => ret tt
      | Some (dirs, nondirs) =>
          tell (EvWalk top dirs nondirs) ;;;
          let* dirs' := body top dirs nondirs in
          for_each dirs' (λ name, walk fuel' body (join top name))
      end
  end.

(** *** The functions of the module *)

(** The loop of [copy_without_render]: the first pattern that matches
    ends it. *)
Fixpoint first_match (path : string) (patterns : list value) : outcome bool :=
  match patterns with
  | [] => Ok false
  | VStr dont_render :: rest =>
      match Fnmatch.fnmatch path dont_render with
      | Some true => Ok true
      | Some false => first_match path rest
      | None => Raise ReError
      end
  | _ :: _ => Raise TypeError
  end.

Definition copy_without_render (h : gmap loc (gmap string value))
           (path : string) (context : loc) : outcome bool :=
  let attempt :=
    match getitem h (VDict context) "cookiecutter" with
    | Ok ns =>
        match getitem h ns "_copy_without_render" with
        | Ok setting =>
            match iterate h setting with
            | Ok patterns => first_match path patterns
            | Raise e => Raise e
            end
        | Raise e => Raise e
        end
    | Raise e => Raise e
    end in
  match attempt with
  | Raise KeyError => Ok false
  | r => r
  end.

Definition generate_context (context_file : string)
           (default_context extra_context : option loc) : M loc :=
  let* loaded := load_context_from_file context_file in
  let* context := alloc loaded in
  update_if context default_context ;;;
  update_if context extra_context ;;;
  ret context.

Definition generate_file (project_dir infile : string) (context : loc)
           (env : environment) : M unit :=
  let* rendered := render context infile in
  let outfile := join project_dir rendered in
  let* binary := is_binary infile in
  (if binary then copyfile infile outfile
   else
     let* rendered_file := get_template_render env context infile in
     write_text outfile rendered_file) ;;;
  copymode infile outfile.

Definition render_and_create_dir (dirname : string) (context : loc)
           (output_dir : string) : M string :=
  let* rendered_dirname := render context dirname in
  let dir_to_create := normpath (join output_dir rendered_dirname) in
  make_sure_path_exists dir_to_create ;;;
  ret dir_to_create.

Definition ensure_dir_is_templated (dirname : string) : outcome bool :=
  if Str.contains "{{" dirname && Str.contains "}}" dirname then Ok true
  else Raise NonTemplatedInputDirException.

(** [context = context or {}] *)
Definition context_or_empty (context : option loc) : M loc :=
  match context with
  | None => alloc ∅
  | Some r =>
      let* d := deref r in
      if dict_is_empty d then alloc ∅ else ret r
  end.

(** [if 'cookiecutter' not in context: context['cookiecutter'] = context] *)
Definition ensure_namespace (context : loc) : M unit :=
  let* d := deref context in
  match d !! "cookiecutter" with
  | Some _ => ret tt
  | None => setitem context "cookiecutter" (VDict context)
  end.

(** The walker asks the policy about a path. *)
Definition policy (path : string) (context : loc) : M bool :=
  tell (EvPolicy path) ;;;
  observe (λ w, copy_without_render (heap w) path context).

(** The first loop over [dirs]: the two lists, in the order met. *)
Fixpoint partition_dirs (root : string) (context : loc) (dirs : list string)
  : M (list string * list string) :=
  match dirs with
  | [] => ret ([], [])
  | d :: rest =>
      let d_ := normpath (join root d) in
      let* copy := policy d_ context in
      let* '(copy_dirs, render_dirs) := partition_dirs root context rest in
      ret (if copy then (d :: copy_dirs, render_dirs)
           else (copy_dirs, d :: render_dirs))
  end.

(** The body of the loop over [copy_dirs]. *)
Definition copy_dir_verbatim (project_dir root copy_dir : string) : M unit :=
  let indir := normpath (join root copy_dir) in
  let outdir := normpath (join project_dir indir) in
  copytree indir outdir.

(** The body of the loop over [files]. *)
Definition generate_one (project_dir : string) (context : loc)
           (env : environment) (root f : string) : M unit :=
  let infile := normpath (join root f) in
  let* copy := policy infile context in
  if copy then
    let* outfile_rendered := render context infile in
    let outfile := join project_dir outfile_rendered in
    copyfile infile outfile ;;;
    copymode infile outfile
  else generate_file project_dir infile context env.

(** The body of the loop over [os.walk('.')]. *)
Definition walk_body (project_dir : string) (context : loc)
           (output_dir : string) (env : environment)
           (root : string) (dirs files : list string) : M (list string) :=
  let* '(copy_dirs, render_dirs) := partition_dirs root context dirs in
  for_each copy_dirs (copy_dir_verbatim project_dir root) ;;;
  for_each render_dirs
    (λ d, let unrendered_dir := join3 project_dir root d in
          render_and_create_dir unrendered_dir context output_dir ;;; ret tt) ;;;
  for_each files (generate_one project_dir context env root) ;;;
  ret render_dirs.

(** [Environment(keep_trailing_newline=True)] with
    [FileSystemLoader('.')]: the environment of the walk. *)
Definition walk_environment : environment := Environment true ".".

Definition generate_files (fuel : nat) (repo_dir : string)
           (context : option loc) (output_dir : string) : M unit :=
  let* template_dir := find_template repo_dir in
  let* context := context_or_empty context in
  let unrendered_dir := basename template_dir in
  observe (λ _, ensure_dir_is_templated unrendered_dir) ;;;
  ensure_namespace context ;;;
  let* project_dir := render_and_create_dir unrendered_dir context output_dir in
  let* project_dir := observe (λ w, Ok (PosixPath.abspath (cwd w) project_dir)) in
  work_in repo_dir (run_hook "pre_gen_project" project_dir context) ;;;
  work_in template_dir
    (let env := walk_environment in
     walk fuel (walk_body project_dir context output_dir env) ".") ;;;
  work_in repo_dir (run_hook "post_gen_project" project_dir context).

(** *** Vocabulary of the properties *)

(** How the claim about the policy reads a context: the pattern
    sequence under [context['cookiecutter']['_copy_without_render']],
    or nothing when the namespace key or the setting is absent. *)
Inductive setting_of (h : gmap loc (gmap string value)) (context : loc)
  : option (list string) → Prop :=
| setting_no_namespace d :
    h !! context = Some d →
    d !! "cookiecutter" = None →
    setting_of h context None
| setting_absent d r ns :
    h !! context = Some d →
    d !! "cookiecutter" = Some (VDict r) →
    h !! r = Some ns →
    ns !! "_copy_without_render" = None →
    setting_of h context None
| setting_present d r ns pats :
    h !! context = Some d →
    d !! "cookiecutter" = Some (VDict r) →
    h !! r = Some ns →
    ns !! "_copy_without_render" = Some (VList (VStr <$> pats)) →
    setting_of h context (Some pats).

(** A pattern that [re] accepts once translated. *)
Definition well_formed (pat : string) : Prop := is_Some (Fnmatch.compile pat).



(** A reference a caller can hold: [None], or a dictionary of the heap. *)
Definition live (h : gmap loc (gmap string value)) (o : option loc) : Prop :=
  match o with
  | Some r => is_Some (h !! r)
  | None => True
  end.

(** What an override layer holds; an absent layer holds nothing. *)
Definition layer (h : gmap loc (gmap string value)) (o : option loc)
  : gmap string value :=
  match o with
  | Some r => default ∅ (h !! r)
  | None => ∅
  end.


(** [v['cookiecutter']['cookiecutter']...], [n] levels down. *)
Fixpoint nested (h : gmap loc (gmap string value)) (n : nat) (v : value)
  : outcome value :=
  match n with
  | O => Ok v
  | S k =>
      match getitem h v "cookiecutter" with
      | Ok v' => nested h k v'
      | Raise e => Raise e
      end
  end.

(** The templated-root rule read with an order in it: an opening
    delimiter, and a closing delimiter somewhere after it. *)
Fixpoint open_then_close (s : string) : bool :=
  match s with
  | EmptyString => false
  | String "{" (String "{" r as s') =>
      Str.contains "}}" r || open_then_close s'
  | String _ s' => open_then_close s'
  end.


(** The directory [os.walk('.')] reports after going down through
    [comps]: ["."], ["./a"], ["./a/b"], ... *)
Definition walk_root (comps : list string) : string :=
  fold_left join comps ".".


(** Text that Jinja2 has nothing to do in: none of its opening
    delimiters occurs. *)
Definition no_template_expressions (src : string) : bool :=
  negb (Str.contains "{{" src) && negb (Str.contains "{%" src)
  && negb (Str.contains "{#" src).


(** The directories the walk may enter, by their components below the
    template root: the root itself, and every plain child of such a
    directory that the policy does not ask to copy. *)
Inductive visited (h : gmap loc (gmap string value)) (context : loc)
  : list string → Prop :=
| visited_top : visited h context []
| visited_child comps d :
    visited h context comps →
    FS.plain d = true →
    copy_without_render h (Str.join_slash (comps ++ [d])) context = Ok false →
    visited h context (comps ++ [d]).

(** What the walk may log, for a walk started in world [w0]: every entry
    is about a child of a directory the walk may enter, named by its path
    below the template root, and no hook runs. *)
Definition walk_event (project_dir : string) (context : loc) (w0 : world)
           (e : event) : Prop :=
  let child p := ∃ comps name, visited (heap w0) context comps
                               ∧ FS.plain name = true
                               ∧ p = Str.join_slash (comps ++ [name]) in
  match e with
  | EvWalk root dirs files =>
      (∃ comps, visited (heap w0) context comps ∧ root = walk_root comps)
      ∧ Forall (λ d, FS.plain d = true) (dirs ++ files)
  | EvPolicy path => child path
  | EvGetTemplate name =>
      child name ∧ copy_without_render (heap w0) name context = Ok false
  | EvRenderName s =>
      child s
      ∨ ∃ comps d, visited (heap w0) context (comps ++ [d])
                   ∧ s = join3 project_dir (walk_root comps) d
  | EvCopyTree src dst =>
      ∃ p, child p
           ∧ copy_without_render (heap w0) p context = Ok true
           ∧ src = key w0 p
           ∧ dst = key w0 (normpath (join project_dir p))
  | EvCopyFile src _ => ∃ p, child p ∧ src = key w0 p
  | EvCopyMode src _ => ∃ p, child p ∧ src = key w0 p
  | EvWrite _ => True
  | EvMakedirs _ => True
  | EvHook _ _ _ => False
  end.

(** A computation that leaves the heap and the working directory of
    [w0] alone, logs only entries that satisfy [P], and returns only
    values that satisfy [Q]. *)
Definition emits {A} (P : event → Prop) (Q : A → Prop) (w0 : world) (c : M A)
  : Prop :=
  ∀ w r w',
    heap w = heap w0 → cwd w = cwd w0 → c w = (r, w') →
    heap w' = heap w0 ∧ cwd w' = cwd w0
    ∧ (∃ delta, log w' = log w ++ delta ∧ Forall P delta)
    ∧ (∀ a, r = Ok a → Q a).


Definition is_hook (e : event) : bool :=
  match e with
  | EvHook _ _ _ => true
  | _ => false
  end.

(** The log entries that produce output files. *)
Definition generates (e : event) : bool :=
  match e with
  | EvCopyTree _ _ | EvCopyFile _ _ | EvCopyMode _ _
  | EvWrite _ | EvGetTemplate _ => true
  | _ => false
  end.

(** What a run logs up to and including the start of the
    pre-generation hook. *)
Definition opening (u pd : string) (seen : gmap (list string) node)
  : list event :=
  [EvRenderName u; EvMakedirs (components pd);
   EvHook "pre_gen_project" pd seen].

(** The world the pre-generation script of a run is started in, for a
    run from [w] to [w']: the heap the run leaves (nothing writes to it
    once the context is prepared), the file system [seen], the
    repository as working directory, and the log so far. *)
Definition pre_hook_world (w w' : world) (repo_dir : string)
           (seen : gmap (list string) node) (before : list event) : world :=
  World (heap w') seen (PosixPath.abspath (cwd w) repo_dir) (log w ++ before).

(** The world the walk of that run starts in: the file system the
    pre-generation script left, the template as working directory. *)
Definition walk_start (w w' : world) (template_dir : string)
           (left : gmap (list string) node) (before : list event) : world :=
  World (heap w') left (PosixPath.abspath (cwd w) template_dir) (log w ++ before).

(** The shapes the log of a run of [generate_files] from [w] to [w'] can
    have, with the outcome of the run.  [seen] is the file system after
    the project root was created and before anything else was done; [c]
    is the context the run works on. *)
Inductive run_log (fuel : nat) (repo_dir : string) (context : option loc)
          (output_dir : string) (w w' : world)
  : outcome unit → list event → Prop :=
| log_before_render e :
    run_log fuel repo_dir context output_dir w w' (Raise e) []
| log_render_failed e u :
    run_log fuel repo_dir context output_dir w w' (Raise e) [EvRenderName u]
| log_before_hook e u k :
    run_log fuel repo_dir context output_dir w w' (Raise e)
            [EvRenderName u; EvMakedirs k]
| log_pre_hook_failed e u pd seen c wc :
    context_or_empty context w = (Ok c, wc) →
    FS.mkdirs umask [] (components pd) (fs w) = Some seen →
    (hook_script "pre_gen_project" pd c
       (pre_hook_world w w' repo_dir seen (opening u pd seen))).1 = Raise e →
    run_log fuel repo_dir context output_dir w w' (Raise e) (opening u pd seen)
| log_walk_failed e u pd seen c wc walked :
    context_or_empty context w = (Ok c, wc) →
    FS.mkdirs umask [] (components pd) (fs w) = Some seen →
    (hook_script "pre_gen_project" pd c
       (pre_hook_world w w' repo_dir seen (opening u pd seen))).1 = Ok tt →
    Forall (λ e, is_hook e = false) walked →
    run_log fuel repo_dir context output_dir w w' (Raise e)
            (opening u pd seen ++ walked)
| log_post_hook r u pd seen c wc template_dir walked w2 :
    find_template_in w repo_dir = Ok template_dir →
    context_or_empty context w = (Ok c, wc) →
    FS.mkdirs umask [] (components pd) (fs w) = Some seen →
    (hook_script "pre_gen_project" pd c
       (pre_hook_world w w' repo_dir seen (opening u pd seen))).1 = Ok tt →
    Forall (λ e, is_hook e = false) walked →
    walk fuel (walk_body pd c output_dir walk_environment) "."
         (walk_start w w' template_dir
            (hook_script "pre_gen_project" pd c
               (pre_hook_world w w' repo_dir seen (opening u pd seen))).2
            (opening u pd seen))
    = (Ok tt, w2) →
    log w2 = log w ++ opening u pd seen ++ walked →
    run_log fuel repo_dir context output_dir w w' r
            (opening u pd seen ++ walked
             ++ [EvHook "post_gen_project" pd (fs w2)]).


(** *** Vocabulary of the further properties *)

(** A pattern in which every character stands for itself. *)
Definition literal_pattern (pat : string) : bool :=
  forallb (λ c, negb (Ascii.eqb c "*" || Ascii.eqb c "?" || Ascii.eqb c "["))
          (list_ascii_of_string pat).

(** The walker's verdict on the child [d] of [root]: copy it verbatim. *)
Definition copied (h : gmap loc (gmap string value)) (root : string)
           (context : loc) (d : string) : bool :=
  match copy_without_render h (normpath (join root d)) context with
  | Ok true => true
  | _ => false
  end.

(** A computation that removes nothing from the file system. *)
Definition keeps {A} (c : M A) : Prop :=
  ∀ w r w', c w = (r, w') → ∀ k, is_Some (fs w !! k) → is_Some (fs w' !! k).

(** The component lists [normpath] produces: [..] only in a leading run,
    and only where [dots] allows it; otherwise names that are not empty,
    not [.], and hold no slash. *)
Fixpoint normal_comps (dots : bool) (l : list string) : bool :=
  match l with
  | [] => true
  | c :: rest =>
      if String.eqb c ".." then dots && normal_comps dots rest
      else negb (String.eqb c "") && negb (String.eqb c ".")
           && negb (Str.contains "/" c) && normal_comps false rest
  end.

(** The path a log entry puts to the policy, if it is a policy test. *)
Definition policy_path (e : event) : option string :=
  match e with
  | EvPolicy path => Some path
  | _ => None
  end.

(** The triple a log entry says [os.walk] yielded, if it says so. *)
Definition walk_triple (e : event)
  : option (string * list string * list string) :=
  match e with
  | EvWalk root dirs files => Some (root, dirs, files)
  | _ => None
  end.

(** The tree copy a log entry records, if it is one: from where, and
    to where. *)
Definition tree_copy (e : event) : option (list string * list string) :=
  match e with
  | EvCopyTree src dst => Some (src, dst)
  | _ => None
  end.

(** What the walker is to put to the policy for a triple: the
    normalized join of the root with each sub-directory, then with each
    file. *)
Definition level_paths (t : string * list string * list string)
  : list string :=
  (λ name, normpath (join t.1.1 name)) <$> (t.1.2 ++ t.2).

(** ... and for all the triples of a log, in the order they were
    yielded. *)
Definition expected_tests (delta : list event) : list string :=
  concat (level_paths <$> omap walk_triple delta).

(** A log entry that is neither a policy test nor a triple. *)
Definition silent (e : event) : Prop :=
  policy_path e = None ∧ walk_triple e = None.

(** A computation inside one level: it yields no triple, the paths it
    puts to the policy are a prefix of [E], and all of [E] when it
    returns. *)
Definition tests {A} (E : list string) (c : M A) : Prop :=
  ∀ w r w', c w = (r, w') →
    ∃ d, log w' = log w ++ d
         ∧ omap walk_triple d = []
         ∧ omap policy_path d `prefix_of` E
         ∧ (∀ a, r = Ok a → omap policy_path d = E).

(** A computation that walks: the paths it puts to the policy are a
    prefix of what the triples it logs call for, and all of it when it
    returns. *)
Definition walks (c : M unit) : Prop :=
  ∀ w r w', c w = (r, w') →
    ∃ d, log w' = log w ++ d
         ∧ omap policy_path d `prefix_of` expected_tests d
         ∧ (r = Ok tt → omap policy_path d = expected_tests d).

(* ------------------------------------------------------------------- *)
(** *** Strings and paths                                               *)
(* ------------------------------------------------------------------- *)

Lemma sapp_cons (c : ascii) (s t : string) : String c s +:+ t = String c (s +:+ t).
Proof. reflexivity. Qed.

Lemma sapp_nil_l (s : string) : "" +:+ s = s.
Proof. reflexivity. Qed.

Lemma sapp_nil_r (s : string) : s +:+ "" = s.
Proof. induction s as [|c s IH]; [done|]. by rewrite sapp_cons, IH. Qed.

Lemma sapp_assoc (s t u : string) : (s +:+ t) +:+ u = s +:+ t +:+ u.
Proof. induction s as [|c s IH]; [done|]. by rewrite !sapp_cons, IH. Qed.

Lemma is_slash_true (c : ascii) : Str.is_slash c = true → c = Str.slash.
Proof. unfold Str.is_slash. by intros H%Ascii.eqb_eq. Qed.

(** No character of the string is a slash. *)
Lemma contains_slash_cons (c : ascii) (s : string) :
  Str.contains "/" (String c s) = Str.is_slash c || Str.contains "/" s.
Proof.
  change (Str.contains "/" (String c s))
    with ((Ascii.eqb "/" c && true) || Str.contains "/" s).
  unfold Str.is_slash, Str.slash. rewrite (Ascii.eqb_sym "/" c).
  by rewrite andb_true_r.
Qed.

Lemma contains_slash_nil : Str.contains "/" "" = false.
Proof. reflexivity. Qed.

Lemma split_slash_nonempty (s : string) : Str.split_slash s ≠ [].
Proof.
  induction s as [|c s IH]; simpl; [done|].
  destruct (Str.is_slash c); [done|]. by destruct (Str.split_slash s).
Qed.

(** Splitting distributes over a slash. *)
Lemma split_slash_app (s t : string) :
  Str.split_slash (s +:+ String Str.slash t) = Str.split_slash s ++ Str.split_slash t.
Proof.
  induction s as [|c s IH].
  - reflexivity.
  - rewrite sapp_cons. simpl. rewrite IH.
    destruct (Str.is_slash c); [done|].
    pose proof (split_slash_nonempty s).
    by destruct (Str.split_slash s).
Qed.

Lemma split_slash_noslash (s : string) :
  Str.contains "/" s = false → Str.split_slash s = [s].
Proof.
  induction s as [|c s IH]; [done|].
  rewrite contains_slash_cons. intros [Hc Hs]%orb_false_elim.
  simpl. rewrite Hc, (IH Hs). done.
Qed.

Lemma split_slash_pieces (s : string) :
  Forall (λ c, Str.contains "/" c = false) (Str.split_slash s).
Proof.
  induction s as [|c s IH]; simpl.
  - by constructor.
  - destruct (Str.is_slash c) eqn:Hc.
    + by constructor.
    + pose proof (split_slash_nonempty s).
      destruct (Str.split_slash s) as [|h t]; [done|].
      inversion IH; subst. constructor; [|done].
      rewrite contains_slash_cons, Hc. done.
Qed.

Lemma join_slash_cons (x y : string) (l : list string) :
  Str.join_slash (x :: y :: l) = x +:+ String Str.slash (Str.join_slash (y :: l)).
Proof. reflexivity. Qed.

Lemma join_slash_snoc (l : list string) (x : string) :
  l ≠ [] → Str.join_slash (l ++ [x]) = Str.join_slash l +:+ String Str.slash x.
Proof.
  induction l as [|a l IH]; [done|]. intros _.
  destruct l as [|b l].
  - reflexivity.
  - change ((a :: b :: l) ++ [x]) with (a :: (b :: l) ++ [x]).
    change ((b :: l) ++ [x]) with (b :: (l ++ [x])) at 1.
    rewrite join_slash_cons.
    change (b :: l ++ [x]) with ((b :: l) ++ [x]).
    rewrite IH by done. rewrite join_slash_cons.
    by rewrite sapp_assoc, sapp_cons.
Qed.

(** Joining with slashes and splitting at slashes are inverse on
    slash-free pieces. *)
Lemma split_join_slash (l : list string) :
  l ≠ [] →
  Forall (λ c, Str.contains "/" c = false) l →
  Str.split_slash (Str.join_slash l) = l.
Proof.
  induction l as [|x l IH]; [done|]. intros _ Hl.
  inversion Hl as [|? ? Hx Hrest]; subst.
  destruct l as [|y l].
  - simpl. by apply split_slash_noslash.
  - rewrite join_slash_cons, split_slash_app, (split_slash_noslash x Hx).
    by rewrite IH.
Qed.

Lemma plain_inv (c : string) :
  FS.plain c = true →
  c ≠ "" ∧ c ≠ "." ∧ c ≠ ".." ∧ Str.contains "/" c = false.
Proof.
  unfold FS.plain. rewrite !andb_true_iff, !negb_true_iff.
  intros [[[H1 H2] H3] H4].
  apply String.eqb_neq in H1, H2, H3. done.
Qed.

Lemma ends_with_slash_app (s : string) (c : ascii) (t : string) :
  Str.ends_with_slash (s +:+ String c t) = Str.ends_with_slash (String c t).
Proof.
  induction s as [|a s IH]; [done|].
  rewrite sapp_cons.
  change (Str.ends_with_slash (String a (s +:+ String c t)))
    with (match s +:+ String c t with
          | EmptyString => Str.is_slash a
          | _ => Str.ends_with_slash (s +:+ String c t)
          end).
  destruct (s +:+ String c t) eqn:E; [by destruct s|done].
Qed.

Lemma ends_with_slash_noslash (s : string) :
  Str.contains "/" s = false → Str.ends_with_slash s = false.
Proof.
  induction s as [|c s IH]; [done|].
  rewrite contains_slash_cons. intros [Hc Hs]%orb_false_elim.
  simpl. destruct s; [done|]. by apply IH.
Qed.

Lemma startswith_slash_noslash (s : string) :
  Str.contains "/" s = false → Str.startswith "/" s = false.
Proof.
  destruct s as [|c s]; [done|].
  rewrite contains_slash_cons. intros [Hc _]%orb_false_elim.
  change (Str.startswith "/" (String c s)) with (Ascii.eqb "/" c && true).
  unfold Str.is_slash, Str.slash in Hc. rewrite Ascii.eqb_sym in Hc.
  by rewrite Hc.
Qed.

(** [join] on a directory that does not end in a slash and a plain name. *)
Lemma join_plain (a b : string) :
  a ≠ "" → Str.ends_with_slash a = false → Str.contains "/" b = false →
  join a b = a +:+ String Str.slash b.
Proof.
  intros Ha He Hb. unfold join.
  rewrite (startswith_slash_noslash b Hb), He.
  apply String.eqb_neq in Ha. rewrite Ha. reflexivity.
Qed.

Lemma norm_step_plain (init : nat) (acc : list string) (c : string) :
  c ≠ "" → c ≠ "." → c ≠ ".." → norm_step init acc c = acc ++ [c].
Proof.
  intros H1 H2 H3. unfold norm_step.
  apply String.eqb_neq in H1, H2, H3. by rewrite H1, H2, H3.
Qed.

Lemma norm_fold_plain (init : nat) (l acc : list string) :
  Forall (λ c, FS.plain c = true) l →
  fold_left (norm_step init) l acc = acc ++ l.
Proof.
  intros Hl. revert acc. induction Hl as [|c l Hc _ IH]; intros acc; simpl.
  - by rewrite app_nil_r.
  - apply plain_inv in Hc as (? & ? & ? & _).
    rewrite norm_step_plain by done. rewrite IH. by rewrite <- app_assoc.
Qed.

Lemma join_slash_not_empty (x : string) (l : list string) :
  x ≠ "" → Str.join_slash (x :: l) ≠ "".
Proof.
  intros Hx. destruct l as [|y l]; simpl; [done|].
  destruct x; [done|]. by rewrite sapp_cons.
Qed.

Lemma ends_with_slash_join_slash (l : list string) (x : string) :
  x ≠ "" → Str.contains "/" x = false →
  Str.ends_with_slash (Str.join_slash (l ++ [x])) = false.
Proof.
  intros Hx Hs. destruct l as [|a l].
  - simpl. by apply ends_with_slash_noslash.
  - rewrite join_slash_snoc by done.
    destruct x as [|c x]; [done|].
    rewrite (ends_with_slash_app _ Str.slash (String c x)).
    change (Str.ends_with_slash (String Str.slash (String c x)))
      with (Str.ends_with_slash (String c x)).
    by apply ends_with_slash_noslash.
Qed.

(** The directories the walk reports are the slash-joined components
    after a leading dot. *)
Lemma walk_root_join_slash (comps : list string) :
  Forall (λ c, FS.plain c = true) comps →
  walk_root comps = Str.join_slash ("." :: comps).
Proof.
  induction comps as [|c comps IH] using rev_ind; [done|].
  intros [Hcomps Hc]%Forall_app. apply Forall_inv in Hc.
  apply plain_inv in Hc as (Hne & _ & _ & Hns).
  unfold walk_root in *. rewrite fold_left_app. cbn [fold_left]. rewrite IH by done.
  change ("." :: comps ++ [c]) with (("." :: comps) ++ [c]).
  rewrite join_slash_snoc by done.
  apply join_plain; [by apply join_slash_not_empty| |done].
  destruct comps as [|d comps _] using rev_ind; [done|].
  apply Forall_app in Hcomps as [_ Hd]. apply Forall_inv in Hd.
  apply plain_inv in Hd as (? & _ & _ & ?).
  change ("." :: comps ++ [d]) with (("." :: comps) ++ [d]).
  by apply ends_with_slash_join_slash.
Qed.

Lemma walk_root_snoc (comps : list string) (name : string) :
  join (walk_root comps) name = walk_root (comps ++ [name]).
Proof. unfold walk_root. by rewrite fold_left_app. Qed.

(** What the walker hands to the policy for the entry [name] of the
    directory reached through [comps]: the components joined by slashes,
    with no leading dot. *)
Lemma normpath_walk_root (comps : list string) (name : string) :
  Forall (λ c, FS.plain c = true) comps →
  FS.plain name = true →
  normpath (join (walk_root comps) name) = Str.join_slash (comps ++ [name]).
Proof.
  intros Hcomps Hname.
  assert (Hall : Forall (λ c, FS.plain c = true) (comps ++ [name])).
  { apply Forall_app. split; [done|]. by constructor. }
  rewrite walk_root_snoc, walk_root_join_slash by done.
  set (l := comps ++ [name]) in *.
  assert (Hl : l ≠ []) by (subst l; by destruct comps).
  destruct l as [|x l']; [done|].
  unfold normpath.
  assert (Hsplit : Str.split_slash (Str.join_slash ("." :: x :: l')) = "." :: x :: l').
  { apply split_join_slash; [done|]. constructor; [done|].
    eapply Forall_impl; [exact Hall|]. intros c Hc. by apply plain_inv in Hc as (_ & _ & _ & ?). }
  rewrite Hsplit.
  rewrite join_slash_cons.
  change (String.eqb ("." +:+ String Str.slash (Str.join_slash (x :: l'))) "") with false.
  change (initial_slashes ("." +:+ String Str.slash (Str.join_slash (x :: l')))) with 0.
  cbv zeta. unfold norm_comps.
  change (fold_left (norm_step 0) ("." :: x :: l') [])
    with (fold_left (norm_step 0) (x :: l') []).
  rewrite norm_fold_plain by done. rewrite app_nil_l.
  change (slashes 0 +:+ Str.join_slash (x :: l')) with (Str.join_slash (x :: l')).
  assert (Hx : x ≠ "") by (apply Forall_inv in Hall; by apply plain_inv in Hall as (? & _)).
  pose proof (join_slash_not_empty x l' Hx) as Hne.
  apply String.eqb_neq in Hne. by rewrite Hne.
Qed.

Lemma startswith_slash_app (a s : string) :
  a ≠ "" → Str.startswith "/" (a +:+ s) = Str.startswith "/" a.
Proof. destruct a as [|c a]; [done|]. intros _. by rewrite sapp_cons. Qed.

Lemma isabs_join (a b : string) : isabs (join a b) = isabs a || isabs b.
Proof.
  unfold isabs, join. destruct (Str.startswith "/" b) eqn:Hb.
  - by rewrite orb_true_r.
  - rewrite orb_false_r. destruct a as [|c a].
    + by rewrite sapp_nil_l.
    + change (String.eqb (String c a) "") with false. rewrite orb_false_l.
      destruct (Str.ends_with_slash (String c a)); by rewrite sapp_cons.
Qed.

Lemma Forall_removelast {A} (P : A → Prop) (l : list A) :
  Forall P l → Forall P (removelast l).
Proof.
  induction 1 as [|x l Hx Hl IH]; simpl; [done|].
  destruct l; [done|]. by constructor.
Qed.

Lemma norm_fold_pieces (P : string → Prop) (init : nat) (l acc : list string) :
  Forall P l → Forall P acc →
  Forall (λ c, P c ∧ c ≠ "") acc →
  Forall (λ c, P c ∧ c ≠ "") (fold_left (norm_step init) l acc).
Proof.
  intros Hl. revert acc. induction Hl as [|c l Hc _ IH]; intros acc Hacc Hacc'; [done|].
  simpl. unfold norm_step at 2.
  destruct (String.eqb c "" || String.eqb c ".") eqn:Hskip.
  - by apply IH.
  - apply orb_false_elim in Hskip as [Hne%String.eqb_neq _].
    match goal with |- context [if ?b then _ else _] => destruct b end.
    + apply IH.
      * apply Forall_app. split; [done|]. by constructor.
      * apply Forall_app. split; [done|]. by constructor.
    + apply IH; by apply Forall_removelast.
Qed.

(** [normpath] keeps a path absolute, and keeps it relative. *)
Lemma isabs_normpath (p : string) : isabs (normpath p) = isabs p.
Proof.
  unfold normpath. destruct (String.eqb p "") eqn:Hp.
  - by apply String.eqb_eq in Hp as ->.
  - unfold isabs, initial_slashes. destruct (Str.startswith "/" p) eqn:Habs.
    + destruct (Str.startswith "//" p && negb (Str.startswith "///" p)); done.
    + cbv zeta. change (slashes 0 +:+ ?x) with x.
      set (comps := norm_comps 0 (Str.split_slash p)).
      assert (Hcomps : Forall (λ c, Str.contains "/" c = false ∧ c ≠ "") comps).
      { apply norm_fold_pieces; [apply split_slash_pieces|done|done]. }
      destruct comps as [|x l]; [done|].
      apply Forall_inv in Hcomps as [Hx Hne].
      pose proof (join_slash_not_empty x l Hne) as Hj.
      apply String.eqb_neq in Hj. rewrite Hj.
      destruct l as [|y l].
      * by apply startswith_slash_noslash.
      * rewrite join_slash_cons, startswith_slash_app by done.
        by apply startswith_slash_noslash.
Qed.

Lemma startswith_cons (a b : ascii) (p s : string) :
  Str.startswith (String a p) (String b s) = Ascii.eqb a b && Str.startswith p s.
Proof. reflexivity. Qed.

(** Only the first three characters decide how many slashes are kept. *)
Lemma initial_slashes_dot (c x : string) :
  Str.startswith "/" x = false →
  initial_slashes (c +:+ String Str.slash ("." +:+ String Str.slash x))
  = initial_slashes (c +:+ String Str.slash x).
Proof.
  intros Hx. unfold initial_slashes.
  destruct c as [|a [|b [|d c]]]; rewrite ?sapp_cons, ?sapp_nil_l.
  - change ("." +:+ String Str.slash x) with (String "." (String Str.slash x)).
    destruct x as [|d x]; [done|].
    rewrite !startswith_cons in *. cbn [Str.startswith] in *.
    rewrite andb_true_r in Hx. unfold Str.slash. by rewrite Hx.
  - change ("." +:+ String Str.slash x) with (String "." (String Str.slash x)).
    rewrite !startswith_cons. cbn [Str.startswith]. rewrite !andb_true_r.
    destruct (Ascii.eqb "/" a); [|done].
    unfold Str.slash. change (Ascii.eqb "/" "/") with true.
    change (Ascii.eqb "/" ".") with false. cbn [andb negb].
    destruct x as [|d x]; [done|].
    rewrite !startswith_cons in *. cbn [Str.startswith] in *.
    rewrite andb_true_r in Hx. by rewrite Hx.
  - rewrite !startswith_cons. cbn [Str.startswith]. done.
  - rewrite !startswith_cons. cbn [Str.startswith]. done.
Qed.

Lemma join_relative (cwd : string) :
  cwd ≠ "" →
  ∃ c, ∀ y, Str.startswith "/" y = false → join cwd y = c +:+ String Str.slash y.
Proof.
  intros Hne. destruct (Str.ends_with_slash cwd) eqn:He.
  - assert (∃ c, cwd = c +:+ "/") as [c ->].
    { clear Hne. induction cwd as [|a s IH]; [done|].
      destruct s as [|b s].
      - exists "". simpl in He. apply is_slash_true in He as ->. done.
      - destruct IH as [c Hc]; [done|]. exists (String a c).
        by rewrite sapp_cons, <- Hc. }
    exists c. intros y Hy. unfold join. rewrite Hy, He, orb_true_r.
    by rewrite sapp_assoc.
  - exists cwd. intros y Hy. unfold join. rewrite Hy, He.
    apply String.eqb_neq in Hne. by rewrite Hne.
Qed.

(** Looking a relative name up from ["."] finds what the name itself
    finds. *)
Lemma normpath_dot_join (cwd x : string) :
  Str.startswith "/" x = false → x ≠ "" →
  normpath (join cwd ("." +:+ String Str.slash x)) = normpath (join cwd x).
Proof.
  intros Hx Hne.
  assert (Hdot : Str.startswith "/" ("." +:+ String Str.slash x) = false) by done.
  destruct (decide (cwd = "")) as [->|Hcwd].
  - unfold join. rewrite Hx, Hdot. cbn [String.eqb orb]. rewrite !sapp_nil_l.
    unfold normpath. apply String.eqb_neq in Hne. rewrite Hne.
    change (String.eqb ("." +:+ String Str.slash x) "") with false.
    rewrite split_slash_app.
    change (initial_slashes ("." +:+ String Str.slash x)) with 0.
    unfold initial_slashes. rewrite Hx. done.
  - destruct (join_relative cwd Hcwd) as [c Hc].
    rewrite !Hc by done. unfold normpath.
    assert (Hnz : ∀ y, String.eqb (c +:+ String Str.slash y) "" = false).
    { intros y. apply String.eqb_neq. by destruct c. }
    rewrite !Hnz, initial_slashes_dot by done.
    rewrite !split_slash_app. unfold norm_comps.
    rewrite !fold_left_app. done.
Qed.
(* ------------------------------------------------------------------- *)
(** *** The policy matcher                                              *)
(* ------------------------------------------------------------------- *)

Lemma first_match_patterns (path : string) (pats : list string) :
  Forall well_formed pats →
  ∃ b, first_match path (VStr <$> pats) = Ok b ∧
       (b = true ↔ ∃ pat, pat ∈ pats ∧ Fnmatch.fnmatch path pat = Some true).
Proof.
  induction 1 as [|pat pats [ts Hts] _ (b & Hb & IH)]; simpl.
  - exists false. split; [done|]. split; [done|].
    intros (pat & Hin & _). by apply elem_of_nil in Hin.
  - unfold Fnmatch.fnmatch at 1. rewrite Hts.
    destruct (Fnmatch.match_toks ts (list_ascii_of_string path)) eqn:Hm.
    + exists true. split; [done|]. split; [|done]. intros _.
      exists pat. split; [apply elem_of_cons; by left|].
      unfold Fnmatch.fnmatch. by rewrite Hts, Hm.
    + exists b. split; [done|]. rewrite IH. split.
      * intros (q & Hq & Hmq). exists q. split; [apply elem_of_cons; by right|done].
      * intros (q & Hq & Hmq). apply elem_of_cons in Hq as [->|Hq].
        -- unfold Fnmatch.fnmatch in Hmq. rewrite Hts, Hm in Hmq. done.
        -- by exists q.
Qed.

(** C1.  Given a context whose [_copy_without_render] setting, when it
    is there, is a sequence of well-formed glob patterns,
    [copy_without_render] returns normally, and it returns true exactly
    when some pattern of the sequence matches the whole path string; it
    returns false, and does not raise, when the namespace key or the
    setting is absent. *)
Theorem copy_without_render_matches
        (h : gmap loc (gmap string value)) (path : string) (context : loc)
        (setting : option (list string)) :
  setting_of h context setting →
  Forall well_formed (default [] setting) →
  ∃ b, copy_without_render h path context = Ok b ∧
       (b = true ↔ ∃ pats pat, setting = Some pats ∧ pat ∈ pats ∧
                               Fnmatch.fnmatch path pat = Some true) ∧
       (setting = None → b = false).
Proof.
  intros Hs Hwf. unfold copy_without_render.
  destruct Hs as [d Hd Hns | d r ns Hd Hr Hns Hset | d r ns pats Hd Hr Hns Hset];
    simpl; rewrite Hd, ?Hr; simpl; rewrite ?Hns, ?Hset; simpl.
  - exists false. split; [done|]. split; [|done]. split; [done|].
    by intros (? & ? & ? & _).
  - exists false. split; [done|]. split; [|done]. split; [done|].
    by intros (? & ? & ? & _).
  - destruct (first_match_patterns path pats Hwf) as (b & Hb & Hiff).
    exists b. rewrite Hb. split; [done|]. split; [|done].
    rewrite Hiff. split.
    + intros (pat & ? & ?). by exists pats, pat.
    + intros (? & pat & [= <-] & ? & ?). by exists pat.
Qed.


(* ------------------------------------------------------------------- *)
(** *** The heap                                                        *)
(* ------------------------------------------------------------------- *)

Lemma alloc_fresh (d : gmap string value) (w : world) :
  ∃ r, alloc d w = (Ok r, with_heap (<[r := d]> (heap w)) w) ∧ heap w !! r = None.
Proof.
  exists (fresh (dom (heap w))). split; [done|].
  apply not_elem_of_dom, is_fresh.
Qed.

Lemma dict_is_empty_true (d : gmap string value) :
  dict_is_empty d = true → d = ∅.
Proof.
  unfold dict_is_empty. intros H%bool_decide_eq_true. by apply map_size_empty_iff.
Qed.

Lemma dict_is_empty_false (d : gmap string value) :
  dict_is_empty d = false → d ≠ ∅.
Proof.
  unfold dict_is_empty. intros H%bool_decide_eq_false Hd. apply H.
  by apply map_size_empty_iff.
Qed.

(** [update_if] overlays the layer on the target, and touches nothing
    else. *)
Lemma update_if_overlay (target : loc) (other : option loc) (w : world)
      (d : gmap string value) :
  heap w !! target = Some d →
  live (heap w) other →
  update_if target other w =
    (Ok tt, with_heap (<[target := layer (heap w) other ∪ d]> (heap w)) w).
Proof.
  intros Hd Hlive. destruct w as [h f c l]. simpl in *.
  destruct other as [o|]; simpl in *.
  - destruct Hlive as [od Hod]. unfold update_if, bind, deref, observe. simpl.
    rewrite Hod. simpl. destruct (dict_is_empty od) eqn:He.
    + apply dict_is_empty_true in He as ->. unfold ret, with_heap. simpl.
      by rewrite (left_id_L ∅ (∪)), insert_id.
    + unfold bind, deref, observe. simpl. rewrite Hd. done.
  - unfold ret, with_heap. simpl. by rewrite (left_id_L ∅ (∪)), insert_id.
Qed.

(* ------------------------------------------------------------------- *)
(** *** The context assembler                                           *)
(* ------------------------------------------------------------------- *)

(** C7.  When the declaration file loads, [generate_context] returns a
    new dictionary in which every key has the value of the highest layer
    that defines it: the extra overrides first, then the default
    overrides, then the template declaration.  The value is taken whole;
    nothing is merged below the top level. *)
Theorem generate_context_precedence
        (context_file : string) (default_context extra_context : option loc)
        (w w1 : world) (loaded : gmap string value) :
  load_context_from_file context_file w = (Ok loaded, w1) →
  live (heap w1) default_context →
  live (heap w1) extra_context →
  ∃ context w' merged,
    generate_context context_file default_context extra_context w = (Ok context, w') ∧
    heap w1 !! context = None ∧
    heap w' !! context = Some merged ∧
    ∀ k, merged !! k =
         match layer (heap w1) extra_context !! k with
         | Some v => Some v
         | None =>
             match layer (heap w1) default_context !! k with
             | Some v => Some v
             | None => loaded !! k
             end
         end.
Proof.
  intros Hload Hd He.
  destruct (alloc_fresh loaded w1) as (c & Halloc & Hfresh).
  assert (Hlayer : ∀ o x, live (heap w1) o →
            layer (<[c := x]> (heap w1)) o = layer (heap w1) o
            ∧ live (<[c := x]> (heap w1)) o).
  { intros [r|] x; simpl; [|done]. intros [od Hod].
    assert (c ≠ r) by congruence.
    rewrite lookup_insert_ne by done. rewrite Hod. eauto. }
  set (D := layer (heap w1) default_context).
  set (E := layer (heap w1) extra_context).
  exists c. eexists. exists (E ∪ (D ∪ loaded)).
  split; [|split; [done|split]].
  - unfold generate_context, bind at 1. rewrite Hload.
    unfold bind at 1. rewrite Halloc.
    unfold bind at 1.
    rewrite (update_if_overlay c default_context _ loaded); simpl;
      [|by rewrite lookup_insert_eq|by apply Hlayer].
    unfold bind at 1.
    rewrite (update_if_overlay c extra_context _ (D ∪ loaded)); simpl.
    + reflexivity.
    + rewrite lookup_insert_eq.
      by rewrite (proj1 (Hlayer default_context loaded Hd)).
    + rewrite insert_insert_eq. by apply Hlayer.
  - simpl. rewrite lookup_insert_eq. f_equal.
    rewrite insert_insert_eq. by rewrite (proj1 (Hlayer extra_context _ He)).
  - intros k. rewrite !lookup_union.
    destruct (E !! k), (D !! k), (loaded !! k); done.
Qed.

(* ------------------------------------------------------------------- *)
(** *** Running the monad                                               *)
(* ------------------------------------------------------------------- *)

Lemma bind_ok {A B} (c : M A) (k : A → M B) (w w' : world) (a : A) :
  c w = (Ok a, w') → bind c k w = k a w'.
Proof. unfold bind. by intros ->. Qed.

Lemma bind_raise {A B} (c : M A) (k : A → M B) (w w' : world) (e : exn) :
  c w = (Raise e, w') → bind c k w = (Raise e, w').
Proof. unfold bind. by intros ->. Qed.

(** A run of [bind] is a run of its first part, then, when that
    returned, a run of the rest. *)
Lemma bind_inv {A B} (c : M A) (k : A → M B) (w w' : world) (r : outcome B) :
  bind c k w = (r, w') →
  (∃ a w1, c w = (Ok a, w1) ∧ k a w1 = (r, w'))
  ∨ (∃ e, c w = (Raise e, w') ∧ r = Raise e).
Proof.
  unfold bind. destruct (c w) as [[a|e] w1]; intros H.
  - left. eauto.
  - right. injection H as <- <-. eauto.
Qed.

(* ------------------------------------------------------------------- *)
(** *** The namespace shim                                              *)
(* ------------------------------------------------------------------- *)

Lemma ensure_namespace_present (c : loc) (w : world)
      (d : gmap string value) (v : value) :
  heap w !! c = Some d →
  d !! "cookiecutter" = Some v →
  ensure_namespace c w = (Ok tt, w).
Proof.
  intros Hd Hv. unfold ensure_namespace, bind, deref, observe.
  rewrite Hd. by rewrite Hv.
Qed.

Lemma ensure_namespace_absent (c : loc) (w : world) (d : gmap string value) :
  heap w !! c = Some d →
  d !! "cookiecutter" = None →
  ensure_namespace c w =
    (Ok tt, with_heap (<[c := <["cookiecutter" := VDict c]> d]> (heap w)) w).
Proof.
  intros Hd Hv. unfold ensure_namespace, bind, deref, observe.
  rewrite Hd. rewrite Hv. unfold setitem, bind, deref, observe. by rewrite Hd.
Qed.

Lemma nested_self (h : gmap loc (gmap string value)) (c : loc)
      (d : gmap string value) (n : nat) :
  h !! c = Some d →
  d !! "cookiecutter" = Some (VDict c) →
  nested h n (VDict c) = Ok (VDict c).
Proof.
  intros Hd Hv. induction n as [|n IH]; simpl; [done|].
  by rewrite Hd, Hv.
Qed.

Lemma context_or_empty_kept (r : loc) (w : world) (d : gmap string value) :
  heap w !! r = Some d → d ≠ ∅ →
  context_or_empty (Some r) w = (Ok r, w).
Proof.
  intros Hd Hne. unfold context_or_empty, bind, deref, observe. rewrite Hd.
  destruct (dict_is_empty d) eqn:He; [|done].
  by apply dict_is_empty_true in He.
Qed.

Lemma context_or_empty_replaced (context : option loc) (w : world) :
  live (heap w) context →
  layer (heap w) context = ∅ →
  ∃ c, context_or_empty context w = (Ok c, with_heap (<[c := ∅]> (heap w)) w)
       ∧ heap w !! c = None.
Proof.
  intros Hlive Hempty. destruct (alloc_fresh ∅ w) as (c & Halloc & Hfresh).
  exists c. split; [|done]. destruct context as [r|]; simpl in *; [|done].
  destruct Hlive as [d Hd]. rewrite Hd in Hempty. simpl in Hempty. subst d.
  unfold bind, deref, observe. rewrite Hd. done.
Qed.

(** The two steps of [generate_files] that prepare the context. *)
Lemma namespace_steps (context : option loc) (w : world) :
  live (heap w) context →
  layer (heap w) context !! "cookiecutter" = None →
  ∃ c w1 w2,
    context_or_empty context w = (Ok c, w1) ∧
    ensure_namespace c w1 = (Ok tt, w2) ∧
    heap w2 !! c = Some (<["cookiecutter" := VDict c]> (layer (heap w) context)) ∧
    ensure_namespace c w2 = (Ok tt, w2) ∧
    (∀ n, nested (heap w2) n (VDict c) = Ok (VDict c)) ∧
    (∀ r, context = Some r → layer (heap w) context ≠ ∅ → c = r) ∧
    (∀ r, context = Some r → layer (heap w) context = ∅ →
          c ≠ r ∧ heap w2 !! r = Some ∅).
Proof.
  intros Hlive Hkey.
  destruct (decide (layer (heap w) context = ∅)) as [Hempty|Hne].
  - destruct (context_or_empty_replaced context w Hlive Hempty)
      as (c & Hrun & Hfresh).
    rewrite Hempty.
    set (w1 := with_heap (<[c := ∅]> (heap w)) w).
    assert (H1 : heap w1 !! c = Some ∅) by (simpl; by rewrite lookup_insert_eq).
    pose proof (ensure_namespace_absent c w1 ∅ H1 (lookup_empty _)) as Hens.
    eexists c, w1, _. split; [done|]. split; [exact Hens|].
    simpl. rewrite insert_insert_eq.
    split; [by rewrite lookup_insert_eq|]. split.
    { eapply ensure_namespace_present; simpl.
      - by rewrite lookup_insert_eq.
      - by rewrite lookup_insert_eq. }
    split.
    { intros n. eapply nested_self; simpl.
      - by rewrite lookup_insert_eq.
      - by rewrite lookup_insert_eq. }
    split; [done|].
    intros r -> _. simpl in Hlive, Hempty. destruct Hlive as [d Hd].
    rewrite Hd in Hempty. simpl in Hempty. subst d.
    assert (c ≠ r) by congruence. split; [done|].
    by rewrite lookup_insert_ne.
  - destruct context as [r|]; simpl in *; [|done].
    destruct Hlive as [d Hd]. rewrite Hd in *. simpl in *.
    pose proof (ensure_namespace_absent r w d Hd Hkey) as Hens.
    eexists r, w, _. split; [by apply (context_or_empty_kept r w d)|].
    split; [exact Hens|]. simpl.
    split; [by rewrite lookup_insert_eq|]. split.
    { eapply ensure_namespace_present; simpl.
      - by rewrite lookup_insert_eq.
      - by rewrite lookup_insert_eq. }
    split.
    { intros n. eapply nested_self; simpl.
      - by rewrite lookup_insert_eq.
      - by rewrite lookup_insert_eq. }
    split; [by intros ? [= ->]|done].
Qed.

(* ------------------------------------------------------------------- *)
(** *** The templated-root rule                                         *)
(* ------------------------------------------------------------------- *)

Lemma context_or_empty_quiet (context : option loc) (w : world) :
  live (heap w) context →
  ∃ c w1, context_or_empty context w = (Ok c, w1) ∧
          fs w1 = fs w ∧ cwd w1 = cwd w ∧ log w1 = log w.
Proof.
  intros Hlive.
  destruct (decide (layer (heap w) context = ∅)) as [Hempty|Hne].
  - destruct (context_or_empty_replaced context w Hlive Hempty) as (c & -> & _).
    by eexists _, _.
  - destruct context as [r|]; simpl in Hlive, Hne; [|done].
    destruct Hlive as [d Hd]. rewrite Hd in Hne. simpl in Hne.
    rewrite (context_or_empty_kept r w d Hd Hne). by eexists _, _.
Qed.

(** C2, as the code has it.  When the name of the template root lacks
    one of the two delimiters, [generate_files] raises
    [NonTemplatedInputDirException] and has done nothing by then: the file
    system, the working directory and the log are as they were.  The name
    [{{cookiecutter.project_name}}] passes the check and the name
    [project] fails it. *)
Theorem generate_files_untemplated_root
        (fuel : nat) (repo_dir : string) (context : option loc)
        (output_dir : string) (w : world) (template_dir : string) :
  find_template_in w repo_dir = Ok template_dir →
  live (heap w) context →
  Str.contains "{{" (basename template_dir)
    && Str.contains "}}" (basename template_dir) = false →
  (∃ w', generate_files fuel repo_dir context output_dir w
           = (Raise NonTemplatedInputDirException, w') ∧
         fs w' = fs w ∧ cwd w' = cwd w ∧ log w' = log w)
  ∧ ensure_dir_is_templated "{{cookiecutter.project_name}}" = Ok true
  ∧ ensure_dir_is_templated "project" = Raise NonTemplatedInputDirException.
Proof.
  intros Hfind Hlive Hname. split; [|done].
  destruct (context_or_empty_quiet context w Hlive) as (c & w1 & Hc & Hfs & Hcwd & Hlog).
  exists w1. split; [|done].
  unfold generate_files.
  rewrite (bind_ok _ _ w w template_dir)
    by (unfold find_template, observe; by rewrite Hfind).
  rewrite (bind_ok _ _ w w1 c) by done.
  apply bind_raise. unfold observe, ensure_dir_is_templated. by rewrite Hname.
Qed.

(* ------------------------------------------------------------------- *)
(** *** Files                                                           *)
(* ------------------------------------------------------------------- *)

Lemma bind_ok_inv {A B} (c : M A) (k : A → M B) (w w' : world) (b : B) :
  bind c k w = (Ok b, w') →
  ∃ a w1, c w = (Ok a, w1) ∧ k a w1 = (Ok b, w').
Proof.
  intros [H|(e & _ & ?)]%bind_inv; [done|discriminate].
Qed.

Lemma key_same (w1 w2 : world) (p : string) :
  cwd w1 = cwd w2 → key w1 p = key w2 p.
Proof. unfold key. by intros ->. Qed.

Lemma node_at_file (f : gmap (list string) node) (p : list string)
      (d : string) (m : N) :
  FS.node_at f p = Some (File d m) → p ≠ [] ∧ f !! p = Some (File d m).
Proof. destruct p; [done|]. simpl. done. Qed.

Lemma node_at_lookup (f : gmap (list string) node) (p : list string) :
  p ≠ [] → FS.node_at f p = f !! p.
Proof. by destruct p. Qed.

Lemma open_w_spec (dst : list string) (f f1 : gmap (list string) node) :
  FS.open_w umask dst f = Some f1 →
  dst ≠ [] ∧
  ∃ m, f1 = <[dst := File "" m]> f ∧
       ∀ d m0, f !! dst = Some (File d m0) → m = m0.
Proof.
  unfold FS.open_w. destruct dst as [|c dst]; [done|].
  destruct (FS.isdir f (FS.parent (c :: dst))); [|done].
  destruct (f !! (c :: dst)) as [[d m|m]|] eqn:Hf; intros [= <-]; (split; [done|]).
  - exists m. split; [done|]. by intros ? ? [= _ ->].
  - eexists. split; [done|]. done.
Qed.

Lemma put_opened (dst : list string) (data : string) (m : N)
      (f : gmap (list string) node) :
  FS.put dst data (<[dst := File "" m]> f) = <[dst := File data m]> f.
Proof. unfold FS.put. by rewrite lookup_insert_eq, insert_insert_eq. Qed.

Lemma write_spec (dst : list string) (data : string)
      (f f' : gmap (list string) node) :
  FS.write umask dst data f = Some f' →
  dst ≠ [] ∧
  ∃ m, f' = <[dst := File data m]> f ∧
       ∀ d m0, f !! dst = Some (File d m0) → m = m0.
Proof.
  unfold FS.write. destruct (FS.open_w umask dst f) as [f1|] eqn:Ho; [|done].
  apply open_w_spec in Ho as (Hne & m & -> & Hm). intros [= <-].
  split; [done|]. exists m. split; [apply put_opened|done].
Qed.

Lemma chmod_spec (dst : list string) (m : N) (n : node)
      (f f' : gmap (list string) node) :
  FS.chmod dst m f = Some f' → dst ≠ [] → f !! dst = Some n →
  f' = <[dst := set_mode m n]> f.
Proof.
  unfold FS.chmod. destruct dst; [done|]. intros H _ Hn. rewrite Hn in H.
  by injection H as <-.
Qed.

Lemma copyfile_ok (src dst : string) (w w' : world) :
  copyfile src dst w = (Ok tt, w') →
  ∃ d m0 m,
    FS.node_at (fs w) (key w src) = Some (File d m0) ∧
    key w src ≠ key w dst ∧ key w dst ≠ [] ∧
    w' = with_fs (<[key w dst := File d m]> (fs w))
                 (with_event (EvCopyFile (key w src) (key w dst)) w).
Proof.
  unfold copyfile.
  destruct (FS.node_at (fs w) (key w src)) as [[d m0|?]|]; [|done..].
  case_bool_decide as Hk; [done|].
  destruct (FS.write umask (key w dst) d (fs w)) as [f'|] eqn:Hw; [|done].
  apply write_spec in Hw as (Hne & m & -> & _).
  intros [= <-]. by exists d, m0, m.
Qed.

Lemma copymode_ok (src dst : string) (w w' : world) (k : list string) (n : node) :
  copymode src dst w = (Ok tt, w') →
  key w dst = k → k ≠ [] → fs w !! k = Some n →
  ∃ n0, FS.node_at (fs w) (key w src) = Some n0 ∧
        w' = with_fs (<[k := set_mode (node_mode n0) n]> (fs w))
                     (with_event (EvCopyMode (key w src) k) w).
Proof.
  unfold copymode. intros H <- Hne Hn.
  destruct (FS.node_at (fs w) (key w src)) as [n0|]; [|done].
  destruct (FS.chmod (key w dst) (node_mode n0) (fs w)) as [f'|] eqn:Hc; [|done].
  apply (chmod_spec _ _ n) in Hc; [|done..]. subst f'.
  injection H as <-. by exists n0.
Qed.

(** Copying a file and then its permission bits leaves, at the
    destination, the bytes and the bits of the source. *)
Lemma copy_with_mode (src dst : string) (w w' : world) (data : string) (mode : N) :
  FS.node_at (fs w) (key w src) = Some (File data mode) →
  (copyfile src dst ;;; copymode src dst) w = (Ok tt, w') →
  fs w' = <[key w dst := File data mode]> (fs w) ∧
  heap w' = heap w ∧ cwd w' = cwd w ∧
  log w' = log w ++ [EvCopyFile (key w src) (key w dst);
                     EvCopyMode (key w src) (key w dst)].
Proof.
  intros Hsrc ([] & w1 & Hcopy & Hmode)%bind_ok_inv.
  apply copyfile_ok in Hcopy as (d & m0 & m & Hsrc' & Hne & Hdst & ->).
  rewrite Hsrc in Hsrc'. injection Hsrc' as <- <-.
  apply node_at_file in Hsrc as [Hks Hsrc].
  eapply (copymode_ok _ _ _ _ (key w dst)) in Hmode; [|done|done|..]; last first.
  { simpl. by rewrite lookup_insert_eq. }
  destruct Hmode as (n0 & Hn0 & ->).
  change (key (with_fs _ (with_event _ w)) src) with (key w src) in *.
  simpl in Hn0. rewrite node_at_lookup in Hn0 by done.
  rewrite lookup_insert_ne in Hn0 by done.
  rewrite Hsrc in Hn0. injection Hn0 as <-. simpl.
  rewrite insert_insert_eq. split; [done|]. split; [done|]. split; [done|].
  by rewrite <- app_assoc.
Qed.

Lemma render_run (context : loc) (s : string) (w : world) :
  render context s w
  = (render_name (heap w) context s, with_event (EvRenderName s) w).
Proof. unfold render, bind, tell, observe. simpl. by destruct (render_name _ _ _). Qed.

Lemma policy_run (path : string) (context : loc) (w : world) :
  policy path context w
  = (copy_without_render (heap w) path context, with_event (EvPolicy path) w).
Proof.
  unfold policy, bind, tell, observe. simpl.
  by destruct (copy_without_render _ _ _).
Qed.

Lemma is_binary_ok (p : string) (w w' : world) (b : bool) :
  is_binary p w = (Ok b, w') →
  w' = w ∧ ∃ d m, FS.node_at (fs w) (key w p) = Some (File d m) ∧ b = is_binary_data d.
Proof.
  unfold is_binary, bind, read_file, observe, ret.
  destruct (FS.node_at (fs w) (key w p)) as [[d m|?]|]; [|done..].
  intros [= <- <-]. split; [done|]. by exists d, m.
Qed.

(** C3.  When the walker reaches a file that the binary detector
    classifies as binary, or that the policy says to copy, and the step
    succeeds, the file at the output path (the project directory joined
    with the rendered name) has exactly the bytes of the input file, and
    its permission bits.  The step consists of the policy test, the
    rendering of the name, one [copyfile] and one [copymode]: the contents
    never reach the template engine. *)
Theorem generate_one_copies_verbatim
        (project_dir : string) (context : loc) (env : environment)
        (root f : string) (w w' : world) (data : string) (mode : N) :
  let infile := normpath (join root f) in
  FS.node_at (fs w) (key w infile) = Some (File data mode) →
  (is_binary_data data = true
   ∨ copy_without_render (heap w) infile context = Ok true) →
  generate_one project_dir context env root f w = (Ok tt, w') →
  ∃ rendered,
    render_name (heap w) context infile = Ok rendered ∧
    let outfile := join project_dir rendered in
    fs w' !! key w outfile = Some (File data mode) ∧
    log w' = log w ++ [EvPolicy infile; EvRenderName infile;
                       EvCopyFile (key w infile) (key w outfile);
                       EvCopyMode (key w infile) (key w outfile)].
Proof.
  intros infile Hfile Hcase Hrun. unfold generate_one in Hrun. fold infile in Hrun.
  apply bind_ok_inv in Hrun as (copy & w1 & Hpol & Hrun).
  rewrite policy_run in Hpol. injection Hpol as Hpol <-.
  assert (Hrest : ∀ w2 w3 rendered,
             w2 = with_event (EvRenderName infile) (with_event (EvPolicy infile) w) →
             (copyfile infile (join project_dir rendered) ;;;
              copymode infile (join project_dir rendered)) w2 = (Ok tt, w3) →
             fs w3 !! key w (join project_dir rendered) = Some (File data mode) ∧
             log w3 = log w ++ [EvPolicy infile; EvRenderName infile;
                                EvCopyFile (key w infile) (key w (join project_dir rendered));
                                EvCopyMode (key w infile) (key w (join project_dir rendered))]).
  { intros w2 w3 rendered -> Hcopy.
    apply (copy_with_mode _ _ _ _ data mode) in Hcopy as (Hfs & _ & _ & Hlog); [|done].
    change (key (with_event _ (with_event _ w))) with (key w) in *.
    simpl in Hfs, Hlog. rewrite Hfs, Hlog, lookup_insert_eq.
    split; [done|]. by rewrite <- !app_assoc. }
  destruct copy.
  - apply bind_ok_inv in Hrun as (rendered & w2 & Hren & Hrun).
    rewrite render_run in Hren. injection Hren as Hren <-.
    exists rendered. split; [done|]. by apply (Hrest _ w' rendered eq_refl).
  - unfold generate_file in Hrun.
    apply bind_ok_inv in Hrun as (rendered & w2 & Hren & Hrun).
    rewrite render_run in Hren. injection Hren as Hren <-.
    apply bind_ok_inv in Hrun as (binary & w3 & Hbin & Hrun).
    apply is_binary_ok in Hbin as (-> & d & m & Hd & ->).
    change (key (with_event _ (with_event _ w))) with (key w) in Hd.
    simpl in Hd. rewrite Hfile in Hd. injection Hd as <- <-.
    destruct Hcase as [Hb|Hc]; [|congruence]. rewrite Hb in Hrun.
    exists rendered. split; [done|]. by apply (Hrest _ w' rendered eq_refl).
Qed.

(* ------------------------------------------------------------------- *)
(** *** The single-file generator                                       *)
(* ------------------------------------------------------------------- *)

Lemma filter_plain_pieces (comps : list string) :
  Forall (λ c, FS.plain c = true) comps →
  filter (λ p, p ≠ "" ∧ p ≠ ".") comps = comps.
Proof.
  induction 1 as [|c comps Hc _ IH]; [done|].
  apply plain_inv in Hc as (? & ? & _).
  rewrite filter_cons_True by done. by rewrite IH.
Qed.

(** For a relative path of plain components the loader, searching from
    ["."], looks at the path the walk would report. *)
Lemma template_filename_plain (comps : list string) :
  comps ≠ [] → Forall (λ c, FS.plain c = true) comps →
  template_filename "." (Str.join_slash comps) = Some (walk_root comps).
Proof.
  intros Hne Hplain. unfold template_filename.
  rewrite split_join_slash; [|done|].
  - rewrite bool_decide_eq_false_2.
    + by rewrite filter_plain_pieces.
    + intros Hin. rewrite Forall_forall in Hplain.
      by apply Hplain, plain_inv in Hin as (_ & _ & ? & _).
  - eapply Forall_impl; [exact Hplain|]. intros c Hc.
    by apply plain_inv in Hc as (_ & _ & _ & ?).
Qed.

Lemma join_slash_relative (comps : list string) :
  comps ≠ [] → Forall (λ c, FS.plain c = true) comps →
  Str.startswith "/" (Str.join_slash comps) = false ∧ Str.join_slash comps ≠ "".
Proof.
  intros Hne Hplain. destruct comps as [|x l]; [done|].
  apply Forall_inv in Hplain. apply plain_inv in Hplain as (Hx & _ & _ & Hs).
  split; [|by apply join_slash_not_empty].
  destruct l as [|y l].
  - by apply startswith_slash_noslash.
  - rewrite join_slash_cons, startswith_slash_app by done.
    by apply startswith_slash_noslash.
Qed.

(** ... and that is the file the relative path names. *)
Lemma key_walk_root (w : world) (comps : list string) :
  comps ≠ [] → Forall (λ c, FS.plain c = true) comps →
  key w (walk_root comps) = key w (Str.join_slash comps).
Proof.
  intros Hne Hplain.
  destruct (join_slash_relative comps Hne Hplain) as [Hrel Hnz].
  rewrite walk_root_join_slash by done.
  destruct comps as [|x l]; [done|]. rewrite join_slash_cons.
  unfold key, abspath, isabs. rewrite Hrel.
  change (Str.startswith "/" ("." +:+ String Str.slash (Str.join_slash (x :: l))))
    with false.
  by rewrite normpath_dot_join.
Qed.

Lemma get_template_render_ok (env : environment) (context : loc)
      (comps : list string) (w w' : world) (text data : string) (mode : N) :
  comps ≠ [] → Forall (λ c, FS.plain c = true) comps →
  loader_searchpath env = "." →
  FS.node_at (fs w) (key w (Str.join_slash comps)) = Some (File data mode) →
  get_template_render env context (Str.join_slash comps) w = (Ok text, w') →
  w' = with_event (EvGetTemplate (Str.join_slash comps)) w ∧
  render_source env w' context (Str.join_slash comps) data = Ok text.
Proof.
  intros Hne Hplain Hsp Hfile. unfold get_template_render, bind, tell, observe.
  rewrite Hsp, template_filename_plain by done.
  change (key (with_event _ w)) with (key w). rewrite key_walk_root by done.
  change (fs (with_event _ w)) with (fs w). rewrite Hfile.
  intros [= Htext <-]. done.
Qed.

Lemma write_text_ok (dst text : string) (w w' : world) :
  write_text dst text w = (Ok tt, w') →
  key w dst ≠ [] ∧
  ∃ m, w' = with_fs (<[key w dst := File text m]> (fs w))
                    (with_event (EvWrite (key w dst)) w) ∧
       ∀ d m0, fs w !! key w dst = Some (File d m0) → m = m0.
Proof.
  unfold write_text.
  destruct (FS.open_w umask (key w dst) (fs w)) as [f1|] eqn:Hw; [|done].
  apply open_w_spec in Hw as (Hne & m & -> & Hm).
  destruct (Utf8.has_surrogate text); [done|].
  intros [= <-]. split; [done|]. exists m. by rewrite put_opened.
Qed.

Lemma write_text_encodable (dst text : string) (w w' : world) :
  write_text dst text w = (Ok tt, w') → Utf8.has_surrogate text = false.
Proof.
  unfold write_text.
  destruct (FS.open_w umask (key w dst) (fs w)) as [f1|]; [|done].
  by destruct (Utf8.has_surrogate text).
Qed.

(** C4, as the code has it.  Take an input file named by a relative
    path of plain components and a successful [generate_file] under the
    environment that [generate_files] builds, which keeps a trailing
    newline and loads from ["."].  The output file carries the permission
    bits of the input file, whether the input is binary or text.  Its
    bytes are those of the input when the input is binary; when it is
    text they are the encoding of what the engine returned for the bytes
    of the input file under the context, whatever that is: nothing in
    [generate_file] compares it with the input. *)
Theorem generate_file_contents_and_mode
        (project_dir : string) (comps : list string) (context : loc)
        (w w' : world) :
  let infile := Str.join_slash comps in
  comps ≠ [] →
  Forall (λ c, FS.plain c = true) comps →
  generate_file project_dir infile context walk_environment w = (Ok tt, w') →
  keep_trailing_newline walk_environment = true ∧
  ∃ data mode rendered out,
    FS.node_at (fs w) (key w infile) = Some (File data mode) ∧
    render_name (heap w) context infile = Ok rendered ∧
    fs w' !! key w (join project_dir rendered) = Some (File out mode) ∧
    (is_binary_data data = true → out = data) ∧
    (is_binary_data data = false →
     render_source walk_environment
                   (with_event (EvGetTemplate infile)
                               (with_event (EvRenderName infile) w))
                   context infile data = Ok out
     ∧ Utf8.has_surrogate out = false).
Proof.
  intros infile Hne Hplain Hrun. split; [done|]. unfold generate_file in Hrun.
  apply bind_ok_inv in Hrun as (rendered & w1 & Hren & Hrun).
  rewrite render_run in Hren. injection Hren as Hren <-.
  apply bind_ok_inv in Hrun as (binary & w2 & Hbin & Hrun).
  apply is_binary_ok in Hbin as (-> & data & mode & Hfile & ->).
  change (key (with_event _ w)) with (key w) in Hfile.
  change (fs (with_event _ w)) with (fs w) in Hfile.
  set (outfile := join project_dir rendered) in *.
  destruct (is_binary_data data) eqn:Hb.
  - exists data, mode, rendered, data. split; [done|]. split; [done|].
    apply (copy_with_mode _ _ _ _ data mode) in Hrun as (Hfs & _); [|done].
    change (key (with_event _ w)) with (key w) in Hfs. simpl in Hfs.
    rewrite Hfs, lookup_insert_eq. split; [done|]. split; [done|].
    intros ?; congruence.
  - apply bind_ok_inv in Hrun as ([] & w3 & Hwrite & Hmode).
    apply bind_ok_inv in Hwrite as (text & w2 & Hget & Hwrite).
    apply (get_template_render_ok _ _ _ _ _ _ data mode) in Hget as [-> Htext];
      [|done..].
    pose proof (write_text_encodable _ _ _ _ Hwrite) as Henc.
    apply write_text_ok in Hwrite as (Hkd & m & -> & Hm).
    change (key (with_event _ (with_event _ w))) with (key w) in *.
    simpl in Hm.
    eapply (copymode_ok _ _ _ _ (key w outfile)) in Hmode; [|done|done|..];
      last first.
    { simpl. by rewrite lookup_insert_eq. }
    destruct Hmode as (n0 & Hn0 & ->).
    change (key (with_fs _ (with_event _ (with_event _ (with_event _ w)))))
      with (key w) in *.
    simpl in Hn0.
    pose proof Hfile as [Hks Hfile']%node_at_file.
    rewrite node_at_lookup in Hn0 by done.
    assert (Hmode0 : node_mode n0 = mode).
    { destruct (decide (key w outfile = key w infile)) as [Heq|Hneq].
      - rewrite Heq, lookup_insert_eq in Hn0. injection Hn0 as <-. simpl.
        apply (Hm data). by rewrite Heq.
      - rewrite lookup_insert_ne in Hn0 by done. rewrite Hfile' in Hn0.
        by injection Hn0 as <-. }
    exists data, mode, rendered, text. split; [done|]. split; [done|]. split.
    { simpl. rewrite lookup_insert_eq, Hmode0. done. }
    split; [intros ?; congruence|]. intros _. done.
Qed.

(* ------------------------------------------------------------------- *)
(** *** The directory generator                                         *)
(* ------------------------------------------------------------------- *)

Lemma snoc_take (prefix : list string) (c : string) (rest : list string) (j : nat) :
  (prefix ++ [c]) ++ take j rest = prefix ++ take (S j) (c :: rest).
Proof. by rewrite <- app_assoc. Qed.

Lemma snoc_take0 (prefix : list string) (c : string) (rest : list string) :
  prefix ++ take 1 (c :: rest) = prefix ++ [c].
Proof. simpl. by rewrite take_0. Qed.

Lemma snoc_take_ne (p : list string) (j : nat) (rest : list string) :
  j < length rest → p ++ take (S j) rest ≠ p.
Proof.
  intros Hj Heq. apply (f_equal length) in Heq.
  rewrite length_app, length_take in Heq. lia.
Qed.

(** What [mkdirs] leaves behind: every directory on the way exists,
    whatever existed is as it was, and nothing off the way appeared. *)
Lemma mkdirs_spec (rest prefix : list string) (f f' : gmap (list string) node) :
  FS.mkdirs umask prefix rest f = Some f' →
  (∀ i, i < length rest →
        ∃ m, f' !! (prefix ++ take (S i) rest) = Some (Dir m))
  ∧ (∀ k n, f !! k = Some n → f' !! k = Some n)
  ∧ (∀ k, (∀ i, i < length rest → k ≠ prefix ++ take (S i) rest) →
          f' !! k = f !! k).
Proof.
  revert prefix f. induction rest as [|c rest IH]; intros prefix f Hrun.
  - injection Hrun as <-. split; [|done]. simpl. lia.
  - simpl in Hrun. set (p := prefix ++ [c]) in *.
    assert (Hstep : ∀ f0 m0, f0 !! p = Some (Dir m0) →
              (∀ k n, f !! k = Some n → f0 !! k = Some n) →
              (∀ k, k ≠ p → f0 !! k = f !! k) →
              FS.mkdirs umask p rest f0 = Some f' →
              (∀ i, i < length (c :: rest) →
                    ∃ m, f' !! (prefix ++ take (S i) (c :: rest)) = Some (Dir m))
              ∧ (∀ k n, f !! k = Some n → f' !! k = Some n)
              ∧ (∀ k, (∀ i, i < length (c :: rest) →
                            k ≠ prefix ++ take (S i) (c :: rest)) →
                      f' !! k = f !! k)).
    { intros f0 m0 Hp Hkeep Hoff Hrec.
      destruct (IH p f0 Hrec) as (Hdirs & Hkeep' & Hoff').
      split; [|split].
      - intros [|j] Hj.
        + exists m0. rewrite snoc_take0. by apply Hkeep'.
        + simpl in Hj. destruct (Hdirs j) as [m Hm]; [lia|].
          exists m. by rewrite <- snoc_take.
      - intros k n Hk. by apply Hkeep', Hkeep.
      - intros k Hk. rewrite Hoff'.
        + apply Hoff. specialize (Hk 0). rewrite snoc_take0 in Hk. apply Hk. simpl. lia.
        + intros j Hj. unfold p. rewrite snoc_take. apply Hk. simpl. lia. }
    destruct (f !! p) as [[d m|m]|] eqn:Hp; [done| |].
    + by apply (Hstep f m).
    + apply (Hstep _ (FS.new_dir_mode umask)) in Hrun; [done| | |].
      * by rewrite lookup_insert_eq.
      * intros k n Hk. rewrite lookup_insert_ne; [done|]. congruence.
      * intros k Hk. by rewrite lookup_insert_ne.
Qed.

(** [mkdirs] succeeds unless a file is in the way. *)
Lemma mkdirs_succeeds (rest prefix : list string) (f : gmap (list string) node) :
  (∀ i d m, i < length rest →
            f !! (prefix ++ take (S i) rest) ≠ Some (File d m)) →
  is_Some (FS.mkdirs umask prefix rest f).
Proof.
  revert prefix f. induction rest as [|c rest IH]; intros prefix f Hfree; [done|].
  simpl. set (p := prefix ++ [c]).
  assert (Hp : ∀ d m, f !! p ≠ Some (File d m)).
  { intros d m. specialize (Hfree 0 d m). rewrite snoc_take0 in Hfree.
    apply Hfree. simpl. lia. }
  destruct (f !! p) as [[d m|m]|] eqn:Hlook.
  - by destruct (Hp d m).
  - apply IH. intros j d m' Hj. subst p. rewrite snoc_take. apply Hfree. simpl. lia.
  - apply IH. intros j d m' Hj.
    rewrite lookup_insert_ne by (symmetry; by apply snoc_take_ne).
    subst p. rewrite snoc_take. apply Hfree. simpl. lia.
Qed.

(** Directories that are all there already are left alone. *)
Lemma mkdirs_idempotent (rest prefix : list string) (f : gmap (list string) node) :
  (∀ i, i < length rest → ∃ m, f !! (prefix ++ take (S i) rest) = Some (Dir m)) →
  FS.mkdirs umask prefix rest f = Some f.
Proof.
  revert prefix. induction rest as [|c rest IH]; intros prefix Hall; [done|].
  simpl. destruct (Hall 0) as [m Hm]; [simpl; lia|]. rewrite snoc_take0 in Hm.
  rewrite Hm. apply IH. intros j Hj. rewrite snoc_take. apply Hall. simpl. lia.
Qed.

Lemma prefix_of_take (q k : list string) :
  q `prefix_of` k → q ≠ [] → ∃ i, i < length k ∧ q = take (S i) k.
Proof.
  intros [s ->] Hq. destruct q as [|a q]; [done|].
  exists (length q). split.
  - rewrite length_app. simpl. lia.
  - change (S (length q)) with (length (a :: q)). by rewrite take_app_length.
Qed.

Lemma isdir_lookup (f : gmap (list string) node) (q : list string) (m : N) :
  f !! q = Some (Dir m) → FS.isdir f q = true.
Proof. unfold FS.isdir, FS.node_at. destruct q; [done|]. by intros ->. Qed.

(** C9, as the code has it.  [render_and_create_dir] renders the name
    and returns [normpath(join(output_dir, rendered))].  That path is
    absolute exactly when the output directory or the rendered name is;
    otherwise it is relative to the working directory.  Unless a file is
    in the way, the call succeeds, every directory along the path exists
    afterwards, whatever existed before is unchanged, and when the whole
    path existed already the file system is unchanged. *)
Theorem render_and_create_dir_creates
        (dirname : string) (context : loc) (output_dir : string)
        (w : world) (rendered : string) :
  let dir_to_create := normpath (join output_dir rendered) in
  render_name (heap w) context dirname = Ok rendered →
  (∀ q d m, q `prefix_of` key w dir_to_create → fs w !! q ≠ Some (File d m)) →
  ∃ w',
    render_and_create_dir dirname context output_dir w = (Ok dir_to_create, w') ∧
    isabs dir_to_create = isabs output_dir || isabs rendered ∧
    (∀ q, q `prefix_of` key w dir_to_create → FS.isdir (fs w') q = true) ∧
    (∀ k n, fs w !! k = Some n → fs w' !! k = Some n) ∧
    (∀ k, ¬ k `prefix_of` key w dir_to_create → fs w' !! k = fs w !! k) ∧
    ((∀ q, q `prefix_of` key w dir_to_create → FS.isdir (fs w) q = true) →
     fs w' = fs w).
Proof.
  intros dir_to_create Hren Hfree.
  set (k := key w dir_to_create) in *.
  destruct (mkdirs_succeeds k [] (fs w)) as [f' Hmk].
  { intros i d m Hi. apply Hfree. simpl. apply prefix_take. }
  exists (with_fs f' (with_event (EvMakedirs k) (with_event (EvRenderName dirname) w))).
  split; [|split].
  - unfold render_and_create_dir.
    rewrite (bind_ok _ _ w (with_event (EvRenderName dirname) w) rendered)
      by (by rewrite render_run, Hren).
    fold dir_to_create. unfold bind, make_sure_path_exists.
    change (key (with_event _ w)) with (key w). fold k.
    change (fs (with_event _ w)) with (fs w). by rewrite Hmk.
  - unfold dir_to_create. by rewrite isabs_normpath, isabs_join.
  - destruct (mkdirs_spec k [] (fs w) f' Hmk) as (Hdirs & Hkeep & Hoff).
    simpl. split; [|split; [done|split]].
    + intros q Hq. destruct (decide (q = [])) as [->|Hne]; [done|].
      destruct (prefix_of_take q k Hq Hne) as (i & Hi & ->).
      destruct (Hdirs i Hi) as [m Hm]. by apply (isdir_lookup _ _ m).
    + intros k0 Hk0. apply Hoff. intros i Hi ->. apply Hk0. simpl.
      apply prefix_take.
    + intros Hall. rewrite mkdirs_idempotent in Hmk; [by injection Hmk|].
      intros i Hi. specialize (Hall (take (S i) k) (prefix_take _ _)).
      unfold FS.isdir, FS.node_at in Hall.
      destruct (take (S i) k) eqn:Ht.
      { destruct k; simpl in *; [lia|done]. }
      simpl. destruct (fs w !! (s :: l)) as [[?|m]|]; [done| |done]. by exists m.
Qed.

(* ------------------------------------------------------------------- *)
(** *** What a computation logs                                         *)
(* ------------------------------------------------------------------- *)

Lemma emits_ret {A} (P : event → Prop) (Q : A → Prop) (w0 : world) (a : A) :
  Q a → emits P Q w0 (ret a).
Proof.
  intros Ha w r w' Hh Hc [= <- <-]. split; [done|]. split; [done|]. split.
  - exists []. by rewrite app_nil_r.
  - by intros ? [= <-].
Qed.

Lemma emits_raise {A} (P : event → Prop) (Q : A → Prop) (w0 : world) (e : exn) :
  emits P Q w0 (raise e).
Proof.
  intros w r w' Hh Hc [= <- <-]. split; [done|]. split; [done|]. split.
  - exists []. by rewrite app_nil_r.
  - done.
Qed.

Lemma emits_bind {A B} (P : event → Prop) (Q : A → Prop) (R : B → Prop)
      (w0 : world) (c : M A) (k : A → M B) :
  emits P Q w0 c →
  (∀ a, Q a → emits P R w0 (k a)) →
  emits P R w0 (bind c k).
Proof.
  intros Hc Hk w r w' Hh Hd Hrun.
  apply bind_inv in Hrun as [(a & w1 & Hrun1 & Hrun2)|(e & Hrun1 & ->)].
  - destruct (Hc w _ _ Hh Hd Hrun1) as (Hh1 & Hd1 & (d1 & Hl1 & HP1) & HQ).
    destruct (Hk a (HQ a eq_refl) w1 _ _ Hh1 Hd1 Hrun2)
      as (Hh2 & Hd2 & (d2 & Hl2 & HP2) & HR).
    split; [done|]. split; [done|]. split; [|done].
    exists (d1 ++ d2). rewrite Hl2, Hl1, <- app_assoc. split; [done|].
    by apply Forall_app.
  - destruct (Hc w _ _ Hh Hd Hrun1) as (Hh1 & Hd1 & Hlog & _).
    split; [done|]. split; [done|]. split; [done|]. done.
Qed.

Lemma emits_weaken {A} (P : event → Prop) (Q Q' : A → Prop) (w0 : world) (c : M A) :
  emits P Q w0 c → (∀ a, Q a → Q' a) → emits P Q' w0 c.
Proof.
  intros Hc HQ w r w' Hh Hd Hrun.
  destruct (Hc w _ _ Hh Hd Hrun) as (? & ? & ? & H).
  repeat (split; [done|]). intros a Ha. by apply HQ, H.
Qed.

Lemma emits_tell (P : event → Prop) (w0 : world) (e : event) :
  P e → emits P (λ _, True) w0 (tell e).
Proof.
  intros He w r w' Hh Hd [= <- <-]. split; [done|]. split; [done|]. split; [|done].
  exists [e]. split; [done|]. by constructor.
Qed.

Lemma emits_observe {A} (P : event → Prop) (Q : A → Prop) (w0 : world)
      (f : world → outcome A) :
  (∀ w a, heap w = heap w0 → cwd w = cwd w0 → f w = Ok a → Q a) →
  emits P Q w0 (observe f).
Proof.
  intros Hf w r w' Hh Hd [= <- <-]. split; [done|]. split; [done|]. split.
  - exists []. by rewrite app_nil_r.
  - intros a Ha. by apply (Hf w).
Qed.

Lemma emits_for_each {A} (P : event → Prop) (w0 : world) (l : list A)
      (f : A → M unit) :
  (∀ x, x ∈ l → emits P (λ _, True) w0 (f x)) →
  emits P (λ _, True) w0 (for_each l f).
Proof.
  induction l as [|x l IH]; intros Hf; simpl.
  - by apply emits_ret.
  - eapply emits_bind.
    + apply Hf. by left.
    + intros _ _. apply IH. intros y Hy. apply Hf. by right.
Qed.

(** An operation that logs one entry, then changes the file system or
    fails. *)
Lemma emits_fs_step (P : event → Prop) (w0 : world) (c : M unit)
      (e : world → event) :
  (∀ w, ∃ r f', c w = (r, with_fs f' (with_event (e w) w))) →
  (∀ w, cwd w = cwd w0 → P (e w)) →
  emits P (λ _, True) w0 c.
Proof.
  intros Hc He w r w' Hh Hd Hrun.
  destruct (Hc w) as (r0 & f' & Hrun'). rewrite Hrun' in Hrun.
  injection Hrun as <- <-. split; [done|]. split; [done|]. split; [|done].
  exists [e w]. split; [done|]. constructor; [|done]. by apply He.
Qed.

Lemma copyfile_step (src dst : string) (w : world) :
  ∃ r f', copyfile src dst w
          = (r, with_fs f' (with_event (EvCopyFile (key w src) (key w dst)) w)).
Proof.
  unfold copyfile.
  destruct (FS.node_at (fs w) (key w src)) as [[d m|?]|].
  - case_bool_decide.
    + by exists (Raise (ShutilError (key w dst))), (fs w).
    + destruct (FS.write umask (key w dst) d (fs w)) as [f'|].
      * by exists (Ok tt), f'.
      * by exists (Raise (OSError (key w dst))), (fs w).
  - by exists (Raise (OSError (key w src))), (fs w).
  - by exists (Raise (OSError (key w src))), (fs w).
Qed.

Lemma copymode_step (src dst : string) (w : world) :
  ∃ r f', copymode src dst w
          = (r, with_fs f' (with_event (EvCopyMode (key w src) (key w dst)) w)).
Proof.
  unfold copymode.
  destruct (FS.node_at (fs w) (key w src)) as [n|].
  - destruct (FS.chmod (key w dst) (node_mode n) (fs w)) as [f'|].
    + by exists (Ok tt), f'.
    + by exists (Raise (OSError (key w dst))), (fs w).
  - by exists (Raise (OSError (key w src))), (fs w).
Qed.

Lemma write_text_step (dst text : string) (w : world) :
  ∃ r f', write_text dst text w
          = (r, with_fs f' (with_event (EvWrite (key w dst)) w)).
Proof.
  unfold write_text.
  destruct (FS.open_w umask (key w dst) (fs w)) as [f1|].
  - destruct (Utf8.has_surrogate text); by eexists _, _.
  - by exists (Raise (OSError (key w dst))), (fs w).
Qed.

Lemma copytree_step (src dst : string) (w : world) :
  ∃ r f', copytree src dst w
          = (r, with_fs f' (with_event (EvCopyTree (key w src) (key w dst)) w)).
Proof.
  unfold copytree.
  destruct (FS.copytree umask (key w src) (key w dst) (fs w)) as [f'|].
  - by exists (Ok tt), f'.
  - by exists (Raise (OSError (key w dst))), (fs w).
Qed.

Lemma make_sure_path_exists_step (p : string) (w : world) :
  ∃ r f', make_sure_path_exists p w
          = (r, with_fs f' (with_event (EvMakedirs (key w p)) w)).
Proof.
  unfold make_sure_path_exists.
  destruct (FS.mkdirs umask [] (key w p) (fs w)) as [f'|].
  - by exists (Ok tt), f'.
  - by exists (Raise (OSError (key w p))), (fs w).
Qed.

Lemma emits_render (P : event → Prop) (w0 : world) (context : loc) (s : string) :
  P (EvRenderName s) → emits P (λ _, True) w0 (render context s).
Proof.
  intros Hs. unfold render. eapply emits_bind.
  - by apply emits_tell.
  - intros _ _. by apply emits_observe.
Qed.

Lemma emits_policy (P : event → Prop) (w0 : world) (context : loc) (path : string) :
  P (EvPolicy path) →
  emits P (λ b, copy_without_render (heap w0) path context = Ok b) w0
        (policy path context).
Proof.
  intros Hp. unfold policy. eapply emits_bind.
  - by apply emits_tell.
  - intros _ _. apply emits_observe. intros w a Hh _. by rewrite Hh.
Qed.

Lemma emits_is_binary (P : event → Prop) (w0 : world) (p : string) :
  emits P (λ _, True) w0 (is_binary p).
Proof.
  unfold is_binary. eapply emits_bind.
  - by apply (emits_observe _ (λ _, True)).
  - intros [d m] _. by apply emits_ret.
Qed.

Lemma emits_get_template (P : event → Prop) (w0 : world) (env : environment)
      (context : loc) (name : string) :
  P (EvGetTemplate name) →
  emits P (λ _, True) w0 (get_template_render env context name).
Proof.
  intros Hn. unfold get_template_render. eapply emits_bind.
  - by apply emits_tell.
  - intros _ _. by apply emits_observe.
Qed.

(* ------------------------------------------------------------------- *)
(** *** What the walk logs                                              *)
(* ------------------------------------------------------------------- *)

Lemma visited_plain (h : gmap loc (gmap string value)) (context : loc)
      (comps : list string) :
  visited h context comps → Forall (λ c, FS.plain c = true) comps.
Proof.
  induction 1 as [|comps d _ IH Hd _]; [done|].
  apply Forall_app. split; [done|]. by constructor.
Qed.

Section Walk.

Variables (project_dir : string) (context : loc) (output_dir : string)
          (env : environment) (w0 : world).

Let P := walk_event project_dir context w0.

Lemma child_event (comps : list string) (name : string) :
  visited (heap w0) context comps → FS.plain name = true →
  ∃ comps' name', visited (heap w0) context comps'
                  ∧ FS.plain name' = true
                  ∧ Str.join_slash (comps ++ [name]) = Str.join_slash (comps' ++ [name']).
Proof. intros. by exists comps, name. Qed.

Lemma emits_copy_pair (comps : list string) (f dst : string) :
  visited (heap w0) context comps → FS.plain f = true →
  emits P (λ _, True) w0
        (copyfile (Str.join_slash (comps ++ [f])) dst ;;;
         copymode (Str.join_slash (comps ++ [f])) dst).
Proof.
  intros Hv Hf. eapply emits_bind.
  - eapply emits_fs_step; [apply copyfile_step|].
    intros w Hd. simpl. eexists. split; [by apply child_event|].
    by apply key_same.
  - intros _ _. eapply emits_fs_step; [apply copymode_step|].
    intros w Hd. simpl. eexists. split; [by apply child_event|].
    by apply key_same.
Qed.

Lemma emits_generate_file (comps : list string) (f : string) :
  visited (heap w0) context comps → FS.plain f = true →
  copy_without_render (heap w0) (Str.join_slash (comps ++ [f])) context = Ok false →
  emits P (λ _, True) w0
        (generate_file project_dir (Str.join_slash (comps ++ [f])) context env).
Proof.
  intros Hv Hf Hpol. unfold generate_file.
  eapply emits_bind.
  { apply emits_render. simpl. left. by apply child_event. }
  intros rendered _. eapply emits_bind; [apply emits_is_binary|].
  intros binary _. eapply emits_bind.
  - destruct binary.
    + eapply emits_fs_step; [apply copyfile_step|].
      intros w Hd. simpl. eexists. split; [by apply child_event|].
      by apply key_same.
    + eapply emits_bind.
      * apply emits_get_template. simpl. split; [by apply child_event|done].
      * intros text _. eapply emits_fs_step; [apply write_text_step|]. done.
  - intros _ _. eapply emits_fs_step; [apply copymode_step|].
    intros w Hd. simpl. eexists. split; [by apply child_event|].
    by apply key_same.
Qed.

Lemma emits_generate_one (comps : list string) (f : string) :
  visited (heap w0) context comps → FS.plain f = true →
  emits P (λ _, True) w0
        (generate_one project_dir context env (walk_root comps) f).
Proof.
  intros Hv Hf. unfold generate_one.
  rewrite normpath_walk_root; [|by apply (visited_plain (heap w0) context)|done].
  eapply emits_bind.
  { apply emits_policy. simpl. by apply child_event. }
  intros [] Hpol.
  - eapply emits_bind.
    + apply emits_render. simpl. left. by apply child_event.
    + intros rendered _. by apply emits_copy_pair.
  - by apply emits_generate_file.
Qed.

Lemma emits_render_and_create_dir (dirname : string) :
  P (EvRenderName dirname) →
  emits P (λ _, True) w0 (render_and_create_dir dirname context output_dir).
Proof.
  intros Hd. unfold render_and_create_dir. eapply emits_bind.
  { by apply emits_render. }
  intros rendered _. eapply emits_bind.
  - eapply emits_fs_step; [apply make_sure_path_exists_step|]. done.
  - intros _ _. by apply emits_ret.
Qed.

Lemma emits_copy_dir_verbatim (comps : list string) (d : string) :
  visited (heap w0) context comps → FS.plain d = true →
  copy_without_render (heap w0) (Str.join_slash (comps ++ [d])) context = Ok true →
  emits P (λ _, True) w0 (copy_dir_verbatim project_dir (walk_root comps) d).
Proof.
  intros Hv Hd Hpol. unfold copy_dir_verbatim.
  rewrite normpath_walk_root; [|by apply (visited_plain (heap w0) context)|done].
  eapply emits_fs_step; [apply copytree_step|].
  intros w Hc. simpl. eexists. split; [by apply child_event|].
  split; [done|]. split; by apply key_same.
Qed.

Lemma emits_partition_dirs (comps dirs : list string) :
  visited (heap w0) context comps →
  Forall (λ d, FS.plain d = true) dirs →
  emits P
        (λ cr : list string * list string,
           Forall (λ d, FS.plain d = true
                        ∧ copy_without_render (heap w0)
                            (Str.join_slash (comps ++ [d])) context = Ok true) cr.1
           ∧ Forall (λ d, FS.plain d = true
                          ∧ copy_without_render (heap w0)
                              (Str.join_slash (comps ++ [d])) context = Ok false) cr.2)
        w0 (partition_dirs (walk_root comps) context dirs).
Proof.
  intros Hv. induction 1 as [|d dirs Hd _ IH]; simpl.
  - by apply emits_ret.
  - rewrite normpath_walk_root; [|by apply (visited_plain (heap w0) context)|done].
    eapply emits_bind.
    { apply emits_policy. simpl. by apply child_event. }
    intros copy Hpol. eapply emits_bind; [exact IH|].
    intros [cs rs] [Hcs Hrs]. apply emits_ret. simpl in *.
    destruct copy; simpl; split; try done; by constructor.
Qed.

Lemma emits_walk_body (comps dirs files : list string) :
  visited (heap w0) context comps →
  Forall (λ d, FS.plain d = true) dirs →
  Forall (λ f, FS.plain f = true) files →
  emits P
        (Forall (λ d, visited (heap w0) context (comps ++ [d])))
        w0
        (walk_body project_dir context output_dir env (walk_root comps) dirs files).
Proof.
  intros Hv Hdirs Hfiles. unfold walk_body.
  eapply emits_bind; [by apply emits_partition_dirs|].
  intros [copy_dirs render_dirs] [Hcs Hrs]. simpl in Hcs, Hrs.
  rewrite Forall_forall in Hcs, Hrs, Hfiles.
  eapply emits_bind.
  { apply emits_for_each. intros d Hd. destruct (Hcs d Hd).
    by apply emits_copy_dir_verbatim. }
  intros _ _. eapply emits_bind.
  { apply emits_for_each. intros d Hd. destruct (Hrs d Hd).
    eapply emits_bind.
    - apply emits_render_and_create_dir. simpl. right.
      exists comps, d. split; [by constructor|done].
    - intros _ _. by apply emits_ret. }
  intros _ _. eapply emits_bind.
  { apply emits_for_each. intros f Hf. apply emits_generate_one; auto. }
  intros _ _. apply emits_ret. apply Forall_forall. intros d Hd.
  destruct (Hrs d Hd). by constructor.
Qed.

Lemma entries_plain (f : gmap (list string) node) (p : list string) :
  Forall (λ e : string * node, FS.plain e.1 = true) (FS.entries f p).
Proof.
  apply Forall_forall. intros [c n] Hin. unfold FS.entries in Hin.
  apply list_elem_of_omap in Hin as ([k n'] & _ & Hk). simpl in Hk.
  destruct (FS.child_of p k) as [c'|]; [|done].
  destruct (FS.plain c') eqn:Hc; [|done]. by injection Hk as <- <-.
Qed.

(** [os.listdir] reports plain names only. *)
Lemma listdir_plain (f : gmap (list string) node) (p : list string)
      (dirs files : list string) :
  FS.listdir f p = Some (dirs, files) →
  Forall (λ d, FS.plain d = true) dirs ∧ Forall (λ d, FS.plain d = true) files.
Proof.
  unfold FS.listdir. destruct (FS.isdir f p); [|done]. intros [= <- <-].
  pose proof (entries_plain f p) as He.
  split; apply Forall_fmap, Forall_forall; intros e [_ Hin]%list_elem_of_filter;
    rewrite Forall_forall in He; by apply He.
Qed.

(** Whatever the depth bound and however the walk ends, it logs only
    what [walk_event] allows. *)
Lemma emits_walk (fuel : nat) (comps : list string) :
  visited (heap w0) context comps →
  emits P (λ _, True) w0
        (walk fuel (walk_body project_dir context output_dir env) (walk_root comps)).
Proof.
  revert comps. induction fuel as [|fuel IH]; intros comps Hv; simpl.
  - apply emits_raise.
  - eapply emits_bind.
    { apply (emits_observe _ (λ names,
               ∀ dirs files, names = Some (dirs, files) →
                 Forall (λ d, FS.plain d = true) dirs
                 ∧ Forall (λ d, FS.plain d = true) files)).
      intros w a _ _ [= <-] dirs files Hl. by apply listdir_plain in Hl. }
    intros [[dirs files]|] Hnames; [|by apply emits_ret].
    destruct (Hnames dirs files eq_refl) as [Hdirs Hfiles].
    eapply emits_bind.
    { apply emits_tell. simpl. split; [by exists comps|].
      by apply Forall_app. }
    intros _ _. eapply emits_bind; [by apply emits_walk_body|].
    intros dirs' Hdirs'. apply emits_for_each. intros d Hd.
    rewrite walk_root_snoc. apply IH.
    rewrite Forall_forall in Hdirs'. by apply Hdirs'.
Qed.

End Walk.

(* ------------------------------------------------------------------- *)
(** *** What the policy is asked about                                  *)
(* ------------------------------------------------------------------- *)

Lemma list_ascii_app (s t : string) :
  list_ascii_of_string (s +:+ t) = list_ascii_of_string s ++ list_ascii_of_string t.
Proof. induction s as [|c s IH]; [done|]. rewrite sapp_cons. simpl. by rewrite IH. Qed.

(** A star swallows any prefix, slashes included. *)
Lemma match_star_prefix (ts : list Fnmatch.tok) (a b : list ascii) :
  Fnmatch.match_toks ts b = true →
  Fnmatch.match_toks (Fnmatch.TStar :: ts) (a ++ b) = true.
Proof.
  intros Hb. induction a as [|c a IH].
  - simpl. destruct b; by rewrite Hb.
  - simpl in *. rewrite IH. apply orb_true_r.
Qed.

Lemma fnmatch_star_bin (s : string) :
  Fnmatch.fnmatch (s +:+ ".bin") "*.bin" = Some true.
Proof.
  unfold Fnmatch.fnmatch.
  change (Fnmatch.compile "*.bin")
    with (Some [Fnmatch.TStar; Fnmatch.TLit "."; Fnmatch.TLit "b";
                Fnmatch.TLit "i"; Fnmatch.TLit "n"]).
  rewrite list_ascii_app. f_equal. by apply match_star_prefix.
Qed.

Lemma walk_run_log (fuel : nat) (project_dir : string) (context : loc)
      (output_dir : string) (env : environment) (w : world)
      (r : outcome unit) (w' : world) :
  walk fuel (walk_body project_dir context output_dir env) "." w = (r, w') →
  heap w' = heap w ∧ cwd w' = cwd w ∧
  ∃ delta, log w' = log w ++ delta
           ∧ Forall (walk_event project_dir context w) delta.
Proof.
  intros Hrun.
  destruct (emits_walk project_dir context output_dir env w fuel []
              (visited_top _ _) w r w' eq_refl eq_refl Hrun)
    as (Hh & Hc & Hlog & _).
  done.
Qed.


(* ------------------------------------------------------------------- *)
(** *** Directories copied verbatim                                     *)
(* ------------------------------------------------------------------- *)

Lemma strip_prefix_app (p s : list string) : FS.strip_prefix p (p ++ s) = Some s.
Proof.
  induction p as [|a p IH]; simpl; [done|]. by rewrite String.eqb_refl.
Qed.

Lemma strip_prefix_Some (p k s : list string) :
  FS.strip_prefix p k = Some s → k = p ++ s.
Proof.
  revert k. induction p as [|a p IH]; intros k; simpl.
  - by intros [= ->].
  - destruct k as [|b k]; [done|]. destruct (String.eqb a b) eqn:Hab; [|done].
    apply String.eqb_eq in Hab as ->. intros H. by rewrite (IH _ H).
Qed.

(** Every entry below [src] reappears below [dst], under the same
    relative name and as it is. *)
Lemma graft_lookup (src dst : list string) (f base : gmap (list string) node)
      (suffix : list string) (n : node) :
  suffix ≠ [] →
  f !! (src ++ suffix) = Some n →
  FS.graft src dst f base !! (dst ++ suffix) = Some n.
Proof.
  unfold FS.graft. revert suffix n.
  apply (map_fold_weak_ind
           (λ r (m : gmap (list string) node),
              ∀ suffix n, suffix ≠ [] → m !! (src ++ suffix) = Some n →
                          r !! (dst ++ suffix) = Some n)).
  - intros suffix n _ H. by rewrite lookup_empty in H.
  - intros k x m r Hk IH suffix n Hne Hlook.
    destruct (decide (k = src ++ suffix)) as [->|Hneq].
    + rewrite lookup_insert_eq in Hlook. injection Hlook as ->.
      rewrite strip_prefix_app. destruct suffix as [|c s]; [done|].
      by rewrite lookup_insert_eq.
    + rewrite lookup_insert_ne in Hlook by done.
      specialize (IH suffix n Hne Hlook).
      destruct (FS.strip_prefix src k) as [[|c s]|] eqn:Hs; [done| |done].
      apply strip_prefix_Some in Hs. rewrite lookup_insert_ne; [done|].
      intros Heq. apply app_inv_head in Heq. congruence.
Qed.

(** Nothing else changes. *)
Lemma graft_other (src dst : list string) (f base : gmap (list string) node)
      (k : list string) :
  (∀ c suffix, k ≠ dst ++ c :: suffix) →
  FS.graft src dst f base !! k = base !! k.
Proof.
  intros Hk. unfold FS.graft.
  apply (map_fold_weak_ind
           (λ r (m : gmap (list string) node), r !! k = base !! k)); [done|].
  intros i x m r _ IH.
  destruct (FS.strip_prefix src i) as [[|c s]|]; [done| |done].
  rewrite lookup_insert_ne; [done|]. intros Heq. by apply (Hk c s).
Qed.

Lemma copytree_spec (src dst : list string) (f f' : gmap (list string) node) :
  FS.copytree umask src dst f = Some f' →
  (∃ m, FS.node_at f src = Some (Dir m) ∧ f' !! dst = Some (Dir m))
  ∧ FS.node_at f dst = None
  ∧ (∀ suffix n, suffix ≠ [] → f !! (src ++ suffix) = Some n →
                 f' !! (dst ++ suffix) = Some n).
Proof.
  unfold FS.copytree.
  destruct (FS.node_at f src) as [[?|m]|] eqn:Hsrc; [done| |done].
  destruct (FS.node_at f dst) eqn:Hdst; [done|].
  case_bool_decide; [done|].
  destruct (FS.mkdirs umask [] (FS.parent dst) f) as [f1|]; [|done].
  intros [= <-]. split; [|split; [done|]].
  - exists m. split; [done|]. rewrite graft_other.
    + by rewrite lookup_insert_eq.
    + intros c suffix Heq. apply (f_equal length) in Heq.
      rewrite length_app in Heq. simpl in Heq. lia.
  - intros suffix n Hne Hn. by apply graft_lookup.
Qed.

Lemma visited_prefix (h : gmap loc (gmap string value)) (context : loc)
      (comps q : list string) :
  visited h context comps → q `prefix_of` comps → visited h context q.
Proof.
  induction 1 as [|comps d Hv IH Hd Hpol]; intros Hq.
  - apply prefix_nil_inv in Hq as ->. constructor.
  - destruct Hq as [s Hs].
    destruct s as [|x s _] using rev_ind.
    + rewrite app_nil_r in Hs. subst q. by constructor.
    + rewrite app_assoc in Hs. apply app_inj_tail in Hs as [-> _].
      apply IH. by exists s.
Qed.

Lemma visited_not_copied (h : gmap loc (gmap string value)) (context : loc)
      (comps : list string) :
  visited h context comps → comps ≠ [] →
  copy_without_render h (Str.join_slash comps) context = Ok false.
Proof. destruct 1 as [|comps d _ _ Hpol]; [done|]. done. Qed.

Lemma plain_noslash (l : list string) :
  Forall (λ c, FS.plain c = true) l →
  Forall (λ c, Str.contains "/" c = false) l.
Proof.
  intros H. eapply Forall_impl; [exact H|]. intros c Hc.
  by apply plain_inv in Hc as (_ & _ & _ & ?).
Qed.

Lemma join_slash_inj (l1 l2 : list string) :
  l1 ≠ [] → l2 ≠ [] →
  Forall (λ c, FS.plain c = true) l1 → Forall (λ c, FS.plain c = true) l2 →
  Str.join_slash l1 = Str.join_slash l2 → l1 = l2.
Proof.
  intros H1 H2 Hp1 Hp2 Heq.
  rewrite <- (split_join_slash l1), <- (split_join_slash l2), Heq;
    auto using plain_noslash.
Qed.

Lemma walk_root_inj (l1 l2 : list string) :
  Forall (λ c, FS.plain c = true) l1 → Forall (λ c, FS.plain c = true) l2 →
  walk_root l1 = walk_root l2 → l1 = l2.
Proof.
  intros Hp1 Hp2 Heq. rewrite !walk_root_join_slash in Heq by done.
  assert (Hdot : Str.contains "/" "." = false) by done.
  apply (f_equal Str.split_slash) in Heq.
  rewrite !split_join_slash in Heq;
    [by injection Heq|done|constructor; auto using plain_noslash
                     |done|constructor; auto using plain_noslash].
Qed.

(** A directory on the way to an entry that the walk handles does not
    match the policy. *)
Lemma child_not_inside_copied (h : gmap loc (gmap string value)) (context : loc)
      (comps : list string) (name : string) (q rest : list string) :
  visited h context comps → FS.plain name = true →
  q ≠ [] → rest ≠ [] → Forall (λ c, FS.plain c = true) (q ++ rest) →
  Str.join_slash (comps ++ [name]) = Str.join_slash (q ++ rest) →
  copy_without_render h (Str.join_slash q) context = Ok false.
Proof.
  intros Hv Hname Hq Hrest Hplain Heq.
  apply join_slash_inj in Heq; [|by destruct comps|by destruct q| |done].
  - destruct rest as [|x rest' _] using rev_ind; [done|].
    rewrite app_assoc in Heq. apply app_inj_tail in Heq as [-> _].
    apply visited_not_copied; [|done].
    apply (visited_prefix _ _ (q ++ rest')); [done|]. by exists rest'.
  - apply Forall_app. split; [by apply (visited_plain h context)|by constructor].
Qed.

(** X19.  In a walk, whatever the depth bound and however the walk
    ends, every logged step is about an entry of a directory the walk may
    enter.  When [os.walk] yields a directory, or the policy is asked
    about a path, or a path is read as a template, no directory that this
    path is strictly inside of matches the policy (nor does a directory
    that is yielded): the walk does not descend into a directory that
    matches. *)
Theorem walk_never_descends_into_copied
        (fuel : nat) (project_dir : string) (context : loc)
        (output_dir : string) (env : environment) (w : world)
        (r : outcome unit) (w' : world) :
  walk fuel (walk_body project_dir context output_dir env) "." w = (r, w') →
  ∃ delta,
    log w' = log w ++ delta
    ∧ Forall (walk_event project_dir context w) delta
    ∧ ∀ q rest,
        q ≠ [] → Forall (λ c, FS.plain c = true) (q ++ rest) →
        (∃ dirs files, EvWalk (walk_root (q ++ rest)) dirs files ∈ delta)
        ∨ (rest ≠ [] ∧ (EvPolicy (Str.join_slash (q ++ rest)) ∈ delta
                        ∨ EvGetTemplate (Str.join_slash (q ++ rest)) ∈ delta)) →
        copy_without_render (heap w) (Str.join_slash q) context = Ok false.
Proof.
  intros Hrun.
  apply walk_run_log in Hrun as (_ & _ & delta & Hlog & Hev).
  exists delta. split; [done|]. split; [done|].
  rewrite Forall_forall in Hev.
  intros q rest Hq Hplain [(dirs & files & Hin)|[Hrest [Hin|Hin]]];
    apply Hev in Hin; simpl in Hin.
  - destruct Hin as [(comps & Hv & Heq) _].
    apply walk_root_inj in Heq; [|done|by apply (visited_plain (heap w) context)].
    subst comps. apply visited_not_copied; [|done].
    apply (visited_prefix _ _ (q ++ rest)); [done|]. by exists rest.
  - destruct Hin as (comps & name & Hv & Hname & Heq).
    by apply (child_not_inside_copied _ _ comps name q rest).
  - destruct Hin as [(comps & name & Hv & Hname & Heq) _].
    by apply (child_not_inside_copied _ _ comps name q rest).
Qed.

(* ------------------------------------------------------------------- *)
(** *** The whole run                                                   *)
(* ------------------------------------------------------------------- *)

Lemma context_or_empty_frame (context : option loc) (w w1 : world) (r : outcome loc) :
  context_or_empty context w = (r, w1) →
  fs w1 = fs w ∧ cwd w1 = cwd w ∧ log w1 = log w.
Proof.
  unfold context_or_empty, alloc, bind, deref, observe, ret.
  destruct context as [c|].
  - destruct (heap w !! c) as [d|]; [|by intros [= <- <-]].
    destruct (dict_is_empty d); by intros [= <- <-].
  - by intros [= <- <-].
Qed.

Lemma ensure_namespace_frame (c : loc) (w w1 : world) (r : outcome unit) :
  ensure_namespace c w = (r, w1) →
  fs w1 = fs w ∧ cwd w1 = cwd w ∧ log w1 = log w.
Proof.
  unfold ensure_namespace, setitem, bind, deref, observe, ret.
  destruct (heap w !! c) as [d|]; [|by intros [= <- <-]].
  destruct (d !! "cookiecutter"); [by intros [= <- <-]|].
  rewrite ?Hd. destruct (heap w !! c); by intros [= <- <-].
Qed.

(** The three ways [render_and_create_dir] can end. *)
Lemma render_and_create_dir_log (dirname : string) (context : loc)
      (output_dir : string) (w w1 : world) (r : outcome string) :
  render_and_create_dir dirname context output_dir w = (r, w1) →
  cwd w1 = cwd w ∧
  ((∃ e, r = Raise e ∧ log w1 = log w ++ [EvRenderName dirname])
   ∨ (∃ e k, r = Raise e ∧ log w1 = log w ++ [EvRenderName dirname; EvMakedirs k])
   ∨ (∃ rendered,
         let dir := normpath (join output_dir rendered) in
         r = Ok dir
         ∧ log w1 = log w ++ [EvRenderName dirname; EvMakedirs (key w dir)]
         ∧ FS.mkdirs umask [] (key w dir) (fs w) = Some (fs w1))).
Proof.
  unfold render_and_create_dir. intros Hrun.
  apply bind_inv in Hrun as [(rendered & w2 & Hren & Hrun)|(e & Hren & ->)];
    rewrite render_run in Hren; injection Hren as Hren <-.
  - unfold bind, make_sure_path_exists, ret in Hrun.
    change (key (with_event _ w)) with (key w) in Hrun.
    change (fs (with_event _ w)) with (fs w) in Hrun.
    destruct (FS.mkdirs umask [] (key w (normpath (join output_dir rendered))) (fs w))
      as [f'|] eqn:Hmk; injection Hrun as <- <-; (split; [done|]); right.
    + right. exists rendered. simpl. by rewrite <- app_assoc.
    + left. eexists _, _. simpl. by rewrite <- app_assoc.
  - split; [done|]. left. by exists e.
Qed.

(** The two ways a hook can end: the directory change fails and nothing
    is logged, or the script runs from the file system as it is. *)
Lemma hook_log (dirname name pd : string) (c : loc) (w w1 : world)
      (r : outcome unit) :
  work_in dirname (run_hook name pd c) w = (r, w1) →
  cwd w1 = cwd w ∧
  ((∃ e, r = Raise e ∧ log w1 = log w ∧ fs w1 = fs w)
   ∨ (∃ wh, log w1 = log w ++ [EvHook name pd (fs w)]
            ∧ (hook_script name pd c wh).1 = r
            ∧ fs w1 = (hook_script name pd c wh).2)).
Proof.
  unfold work_in, run_hook.
  destruct (FS.isdir (fs w) (key w dirname)).
  - match goal with |- context [hook_script name pd c ?x] => set (wh := x) end.
    destruct (hook_script name pd c wh) as [r' f'] eqn:Hh.
    intros [= <- <-]. split; [done|]. right. exists wh. by rewrite Hh.
  - intros [= <- <-]. split; [done|]. left. by eexists.
Qed.

Lemma walk_event_not_hook (project_dir : string) (context : loc) (w0 : world)
      (e : event) :
  walk_event project_dir context w0 e → is_hook e = false.
Proof. by destruct e. Qed.

(** The ways the walk can end: the directory change fails and nothing is
    logged, or the walk runs and logs no hook. *)
Lemma walk_log (dirname : string) (fuel : nat) (pd : string) (c : loc)
      (output_dir : string) (env : environment) (w w1 : world)
      (r : outcome unit) :
  work_in dirname (walk fuel (walk_body pd c output_dir env) ".") w = (r, w1) →
  cwd w1 = cwd w ∧
  ((∃ e, r = Raise e ∧ log w1 = log w ∧ fs w1 = fs w)
   ∨ (∃ ws we walked,
         walk fuel (walk_body pd c output_dir env) "." ws = (r, we)
         ∧ log ws = log w ∧ log w1 = log we ∧ fs w1 = fs we
         ∧ log we = log ws ++ walked
         ∧ Forall (λ e, is_hook e = false) walked)).
Proof.
  unfold work_in. destruct (FS.isdir (fs w) (key w dirname)).
  - match goal with |- context [walk _ _ _ ?x] => set (ws := x) end.
    destruct (walk fuel (walk_body pd c output_dir env) "." ws) as [r' we] eqn:Hw.
    intros [= <- <-]. split; [done|]. right.
    pose proof Hw as (_ & _ & walked & Hlog & Hev)%walk_run_log.
    exists ws, we, walked. repeat (split; [done|]).
    eapply Forall_impl; [exact Hev|]. apply walk_event_not_hook.
  - intros [= <- <-]. split; [done|]. left. by eexists.
Qed.

Lemma mkdirs_isdir (k : list string) (f f' : gmap (list string) node) :
  FS.mkdirs umask [] k f = Some f' → FS.isdir f' k = true.
Proof.
  intros Hmk. destruct (decide (k = [])) as [->|Hne]; [done|].
  destruct (mkdirs_spec k [] f f' Hmk) as (Hdirs & _).
  destruct (Hdirs (length k - 1)) as [m Hm].
  { destruct k; [done|]. simpl. lia. }
  replace (S (length k - 1)) with (length k) in Hm
    by (destruct k; [done|]; simpl; lia).
  rewrite firstn_all in Hm. by apply (isdir_lookup _ _ m).
Qed.

(** Where a hook can sit in a log of the shape
    [render; makedirs; hook] ++ walked ++ tail. *)
Lemma hook_position (u : string) (k : list string) (h : event)
      (walked tail : list event) (i : nat) (e : event) :
  Forall (λ e, is_hook e = false) walked →
  is_hook e = true →
  ([EvRenderName u; EvMakedirs k; h] ++ walked ++ tail) !! i = Some e →
  (i = 2 ∧ e = h)
  ∨ (∃ j, i = 3 + length walked + j ∧ tail !! j = Some e).
Proof.
  intros Hw He Hi. destruct i as [|[|[|i]]]; simpl in Hi.
  - injection Hi as <-. done.
  - injection Hi as <-. done.
  - injection Hi as <-. by left.
  - apply lookup_app_Some in Hi as [Hi|[Hlen Hi]].
    + rewrite Forall_forall in Hw. apply list_elem_of_lookup_2, Hw in Hi. congruence.
    + right. exists (i - length walked). split; [lia|done].
Qed.


(* ------------------------------------------------------------------- *)
(** *** The namespace shim, in the run                                  *)
(* ------------------------------------------------------------------- *)

Lemma render_and_create_dir_heap (dirname : string) (context : loc)
      (output_dir : string) (w w1 : world) (r : outcome string) :
  render_and_create_dir dirname context output_dir w = (r, w1) → heap w1 = heap w.
Proof.
  unfold render_and_create_dir. intros Hrun.
  apply bind_inv in Hrun as [(rendered & w2 & Hren & Hrun)|(e & Hren & ->)];
    rewrite render_run in Hren; injection Hren as Hren <-; [|done].
  unfold bind, make_sure_path_exists, ret in Hrun.
  destruct (FS.mkdirs _ _ _ _); by injection Hrun as <- <-.
Qed.

Lemma hook_heap (dirname name pd : string) (c : loc) (w w1 : world)
      (r : outcome unit) :
  work_in dirname (run_hook name pd c) w = (r, w1) → heap w1 = heap w.
Proof.
  unfold work_in, run_hook. destruct (FS.isdir (fs w) (key w dirname)).
  - match goal with |- context [hook_script name pd c ?x] =>
      destruct (hook_script name pd c x) as [r' f'] end.
    by intros [= <- <-].
  - by intros [= <- <-].
Qed.

Lemma walk_heap (dirname : string) (fuel : nat) (pd : string) (c : loc)
      (output_dir : string) (env : environment) (w w1 : world)
      (r : outcome unit) :
  work_in dirname (walk fuel (walk_body pd c output_dir env) ".") w = (r, w1) →
  heap w1 = heap w.
Proof.
  unfold work_in. destruct (FS.isdir (fs w) (key w dirname)).
  - match goal with |- context [walk _ _ _ ?x] => set (ws := x) end.
    destruct (walk fuel (walk_body pd c output_dir env) "." ws) as [r' we] eqn:Hw.
    intros [= <- <-]. by apply walk_run_log in Hw as (Hh & _).
  - by intros [= <- <-].
Qed.

(** After the context is prepared, nothing in the run writes to the
    heap. *)
Lemma generate_files_heap (fuel : nat) (repo_dir : string) (context : option loc)
      (output_dir : string) (w w' : world) (r : outcome unit)
      (template_dir : string) (c : loc) (w1 w2 : world) :
  find_template_in w repo_dir = Ok template_dir →
  ensure_dir_is_templated (basename template_dir) = Ok true →
  context_or_empty context w = (Ok c, w1) →
  ensure_namespace c w1 = (Ok tt, w2) →
  generate_files fuel repo_dir context output_dir w = (r, w') →
  heap w' = heap w2.
Proof.
  intros Hfind Htempl Hctx Hns. unfold generate_files.
  rewrite (bind_ok _ _ w w template_dir)
    by (unfold find_template, observe; by rewrite Hfind).
  rewrite (bind_ok _ _ w w1 c) by done.
  rewrite (bind_ok _ _ w1 w1 true) by (unfold observe; by rewrite Htempl).
  rewrite (bind_ok _ _ w1 w2 tt) by done.
  intros Hrun.
  apply bind_inv in Hrun as [(pd0 & w3 & Hrcd & Hrun)|(e & Hrcd & ->)];
    apply render_and_create_dir_heap in Hrcd; [|done].
  apply bind_inv in Hrun as [(pd & w4 & Habs & Hrun)|(e & Habs & _)];
    unfold observe in Habs; [|done]. injection Habs as <- <-.
  apply bind_inv in Hrun as [([] & w5 & Hpre & Hrun)|(e & Hpre & ->)];
    apply hook_heap in Hpre; [|congruence].
  apply bind_inv in Hrun as [([] & w6 & Hwalk & Hrun)|(e & Hwalk & ->)];
    apply walk_heap in Hwalk; [|congruence].
  apply hook_heap in Hrun. congruence.
Qed.

(** C8, as the code has it.  Take a run of [generate_files] that gets
    past the templated-root check, on a context without the key
    [cookiecutter].  In the heap the run leaves, the working context maps
    the key to itself over the flat mapping; wrapping it again changes
    nothing, and following the key any number of times comes back to the
    same dictionary.  The working context is the caller's dictionary
    exactly when that dictionary is not empty: an empty dictionary is
    replaced by a new one, and the caller's stays empty. *)
Theorem namespace_shim
        (fuel : nat) (repo_dir : string) (context : option loc)
        (output_dir : string) (w w' : world) (r : outcome unit)
        (template_dir : string) :
  find_template_in w repo_dir = Ok template_dir →
  ensure_dir_is_templated (basename template_dir) = Ok true →
  live (heap w) context →
  layer (heap w) context !! "cookiecutter" = None →
  generate_files fuel repo_dir context output_dir w = (r, w') →
  ∃ c,
    heap w' !! c = Some (<["cookiecutter" := VDict c]> (layer (heap w) context)) ∧
    ensure_namespace c w' = (Ok tt, w') ∧
    (∀ n, nested (heap w') n (VDict c) = Ok (VDict c)) ∧
    (∀ r0, context = Some r0 → layer (heap w) context ≠ ∅ → c = r0) ∧
    (∀ r0, context = Some r0 → layer (heap w) context = ∅ →
           c ≠ r0 ∧ heap w' !! r0 = Some ∅).
Proof.
  intros Hfind Htempl Hlive Hkey Hrun.
  destruct (namespace_steps context w Hlive Hkey)
    as (c & w1 & w2 & Hctx & Hns & Hc & _ & _ & Hsame & Hfresh).
  pose proof (generate_files_heap _ _ _ _ _ _ _ _ _ _ _ Hfind Htempl Hctx Hns Hrun)
    as Hheap.
  exists c. rewrite Hheap. split; [done|]. split.
  { eapply ensure_namespace_present; [by rewrite Hheap|]. by rewrite lookup_insert_eq. }
  split.
  { intros n. eapply nested_self; [done|]. by rewrite lookup_insert_eq. }
  done.
Qed.

(* ------------------------------------------------------------------- *)
(** *** The hooks, in the run                                           *)
(* ------------------------------------------------------------------- *)

(** A hook either cannot change into its directory, or runs its script
    in the world written out here. *)
Lemma hook_run (dirname name pd : string) (c : loc) (w w1 : world)
      (r : outcome unit) :
  work_in dirname (run_hook name pd c) w = (r, w1) →
  (∃ e, r = Raise e ∧ w1 = w)
  ∨ (let wh := World (heap w) (fs w) (abspath (cwd w) dirname)
                     (log w ++ [EvHook name pd (fs w)]) in
     r = (hook_script name pd c wh).1
     ∧ w1 = World (heap w) (hook_script name pd c wh).2 (cwd w)
                  (log w ++ [EvHook name pd (fs w)])).
Proof.
  unfold work_in, run_hook. destruct (FS.isdir (fs w) (key w dirname)).
  - change (with_event (EvHook name pd (fs (with_cwd (abspath (cwd w) dirname) w)))
              (with_cwd (abspath (cwd w) dirname) w))
      with (World (heap w) (fs w) (abspath (cwd w) dirname)
                  (log w ++ [EvHook name pd (fs w)])).
    destruct (hook_script name pd c _) as [r' f'] eqn:Hh.
    intros [= <- <-]. right. done.
  - intros [= <- <-]. left. by eexists.
Qed.

(** The walk either cannot change into the template, or runs from the
    world written out here. *)
Lemma walk_in_run (dirname : string) (fuel : nat)
      (body : string → list string → list string → M (list string))
      (w w1 : world) (r : outcome unit) :
  work_in dirname (walk fuel body ".") w = (r, w1) →
  (∃ e, r = Raise e ∧ w1 = w)
  ∨ ∃ we, walk fuel body "."
               (World (heap w) (fs w) (abspath (cwd w) dirname) (log w))
          = (r, we)
          ∧ w1 = with_cwd (cwd w) we.
Proof.
  unfold work_in. destruct (FS.isdir (fs w) (key w dirname)).
  - change (with_cwd (abspath (cwd w) dirname) w)
      with (World (heap w) (fs w) (abspath (cwd w) dirname) (log w)).
    destruct (walk fuel body "." _) as [r' we] eqn:Hw.
    intros [= <- <-]. right. by exists we.
  - intros [= <- <-]. left. by eexists.
Qed.

(** Every run of [generate_files] logs one of the shapes of [run_log]. *)
Lemma generate_files_run_log (fuel : nat) (repo_dir : string)
      (context : option loc) (output_dir : string) (w w' : world)
      (r : outcome unit) :
  generate_files fuel repo_dir context output_dir w = (r, w') →
  ∃ delta, log w' = log w ++ delta
           ∧ run_log fuel repo_dir context output_dir w w' r delta.
Proof.
  unfold generate_files. intros Hrun.
  assert (Hnil : ∀ e w1, log w1 = log w →
            ∃ delta, log w1 = log w ++ delta
                     ∧ run_log fuel repo_dir context output_dir w w'
                               (Raise e) delta).
  { intros e w1 Hl. exists []. rewrite app_nil_r. split; [done|constructor]. }
  apply bind_inv in Hrun as [(template_dir & w1 & Hfind & Hrun)|(e & Hfind & ->)];
    unfold find_template, observe in Hfind; injection Hfind as Hfind <-;
    [|by apply Hnil].
  apply bind_inv in Hrun as [(c & w2 & Hctx & Hrun)|(e & Hctx & ->)];
    pose proof Hctx as (Hfs2 & Hcwd2 & Hlog2)%context_or_empty_frame;
    [|by apply Hnil].
  apply bind_inv in Hrun as [(templated & w3 & Hens & Hrun)|(e & Hens & ->)];
    unfold observe in Hens; injection Hens as Hens <-; [|by apply Hnil].
  apply bind_inv in Hrun as [([] & w3 & Hns & Hrun)|(e & Hns & ->)];
    apply ensure_namespace_frame in Hns as (Hfs3 & Hcwd3 & Hlog3);
    [|apply Hnil; congruence].
  apply bind_inv in Hrun as [(pd0 & w4 & Hrcd & Hrun)|(e & Hrcd & ->)];
    pose proof Hrcd as Hheap4%render_and_create_dir_heap;
    apply render_and_create_dir_log in Hrcd as (Hcwd4 & Hrcd).
  2:{ destruct Hrcd as [(e' & _ & Hl)|[(e' & k & _ & Hl)|(? & ? & _)]]; [| |done].
      - eexists. split; [rewrite Hl, Hlog3, Hlog2; reflexivity|constructor].
      - eexists. split; [rewrite Hl, Hlog3, Hlog2; reflexivity|constructor]. }
  destruct Hrcd as [(? & ? & _)|[(? & ? & ? & _)|(rendered & Hpd0 & Hlog4 & Hmk)]];
    [done|done|]. simpl in Hpd0. injection Hpd0 as ->.
  set (dir := normpath (join output_dir rendered)) in *.
  rewrite Hlog3, Hlog2 in Hlog4. rewrite Hfs3, Hfs2 in Hmk.
  assert (Hkey : key w3 dir = key w dir) by (apply key_same; congruence).
  rewrite Hkey in Hlog4, Hmk.
  assert (Hcwd : cwd w4 = cwd w) by congruence.
  apply bind_inv in Hrun as [(pd & w5 & Habs & Hrun)|(e & Habs & _)];
    unfold observe in Habs; [|done]. injection Habs as <- <-.
  assert (Hpd : key w dir = components (abspath (cwd w4) dir)).
  { unfold key. by rewrite Hcwd. }
  set (pd := abspath (cwd w4) dir) in *. rewrite Hpd in Hlog4, Hmk.
  set (u := basename template_dir) in *.
  (* the world the pre-generation script runs in *)
  assert (Hwh : ∀ wx, heap wx = heap w4 →
            World (heap w4) (fs w4) (abspath (cwd w4) repo_dir)
                  (log w4 ++ [EvHook "pre_gen_project" pd (fs w4)])
            = pre_hook_world w wx repo_dir (fs w4) (opening u pd (fs w4))).
  { intros wx Hx. unfold pre_hook_world, opening.
    rewrite Hx, Hcwd, Hlog4, <- app_assoc. done. }
  apply bind_inv in Hrun as [([] & w5 & Hpre & Hrun)|(e & Hpre & ->)];
    apply hook_run in Hpre as [(e' & Hr & ->)|[Hr Hw5]].
  - done.
  - (* the pre-generation script returned *)
    cbv zeta in Hr, Hw5. symmetry in Hr.
    assert (Hheap5 : heap w5 = heap w4) by (by rewrite Hw5).
    assert (Hlog5 : log w5 = log w ++ opening u pd (fs w4)).
    { rewrite Hw5. simpl. rewrite Hlog4, <- app_assoc. done. }
    apply bind_inv in Hrun as [([] & w6 & Hwalk & Hrun)|(e & Hwalk & ->)];
      pose proof Hwalk as Hheap6%walk_heap;
      pose proof Hwalk as (Hcwd6 & Hwlog)%walk_log;
      apply walk_in_run in Hwalk as [(e' & Hr' & ->)|(we & Hwalk & Hw6)].
    + done.
    + (* the walk returned: the post-generation hook *)
      pose proof Hrun as Hheap7%hook_heap.
      apply hook_run in Hrun as [(e' & -> & ->)|[_ Hw']].
      * (* it cannot change into the repository *)
        destruct Hwlog as [(? & ? & _)|(ws & we' & walked & _ & Hls & Hl6 & _ & Hle & Hnh)];
          [done|].
        exists (opening u pd (fs w4) ++ walked). split.
        { rewrite Hl6, Hle, Hls, Hlog5, <- app_assoc. done. }
        apply (log_walk_failed _ _ _ _ _ _ _ _ _ _ c w2); [done|done| |done].
        rewrite <- Hwh by congruence. done.
      * cbv zeta in Hw'.
        destruct Hwlog as [(? & ? & _)|(ws & we' & walked & Hwrun' & Hls & Hl6 & Hfs6 & Hle & Hnh)];
          [done|].
        assert (Hwe : log we = log w ++ opening u pd (fs w4) ++ walked
                      ∧ fs w6 = fs we).
        { rewrite Hw6. simpl. split; [|done].
          apply walk_run_log in Hwalk as (_ & _ & d & Hd & _). simpl in Hd.
          rewrite Hw6 in Hl6. simpl in Hl6.
          rewrite Hl6, Hle, Hls, Hlog5, <- app_assoc. done. }
        destruct Hwe as [Hlwe Hfwe].
        exists (opening u pd (fs w4) ++ walked
                ++ [EvHook "post_gen_project" pd (fs we)]). split.
        { rewrite Hw'. simpl. rewrite Hfwe. rewrite Hw6. simpl.
          rewrite Hlwe, <- !app_assoc. done. }
        apply (log_post_hook _ _ _ _ _ _ _ _ _ _ c w2 template_dir walked we);
          try done.
        -- rewrite <- Hwh by congruence. done.
        -- rewrite <- Hwh by congruence.
           unfold walk_start. rewrite Hheap7, Hheap6, <- Hheap5.
           rewrite <- Hlog5, <- Hcwd.
           replace (cwd w4) with (cwd w5) by (by rewrite Hw5).
           replace ((hook_script "pre_gen_project" pd c _).2) with (fs w5)
             by (by rewrite Hw5).
           exact Hwalk.
    + (* the walk cannot change into the template *)
      exists (opening u pd (fs w4)). split; [done|].
      rewrite <- (app_nil_r (opening u pd (fs w4))).
      apply (log_walk_failed _ _ _ _ _ _ _ _ _ _ c w2); [done|done| |done].
      rewrite <- Hwh by congruence. done.
    + (* the walk failed *)
      destruct Hwlog as [(e'' & _ & Hl & _)
                        |(ws & we' & walked & _ & Hls & Hl6 & _ & Hle & Hnh)].
      * exists (opening u pd (fs w4)). split; [congruence|].
        rewrite <- (app_nil_r (opening u pd (fs w4))).
        apply (log_walk_failed _ _ _ _ _ _ _ _ _ _ c w2); [done|done| |done].
        rewrite <- Hwh by congruence. done.
      * exists (opening u pd (fs w4) ++ walked). split.
        { rewrite Hl6, Hle, Hls, Hlog5, <- app_assoc. done. }
        apply (log_walk_failed _ _ _ _ _ _ _ _ _ _ c w2); [done|done| |done].
        rewrite <- Hwh by congruence. done.
  - (* the hook cannot change into the repository *)
    eexists. split; [rewrite Hlog4; reflexivity|constructor].
  - (* the pre-generation script failed *)
    cbv zeta in Hr, Hw5. symmetry in Hr.
    exists (opening u pd (fs w4)). split.
    { rewrite Hw5. simpl. rewrite Hlog4, <- app_assoc. done. }
    apply (log_pre_hook_failed _ _ _ _ _ _ _ _ _ _ c w2); [done|done|].
    rewrite <- Hwh; [done|]. by rewrite Hw5.
Qed.

Lemma opening_quiet (u pd : string) (seen : gmap (list string) node) :
  Forall (λ e, generates e = false) (opening u pd seen).
Proof. by repeat constructor. Qed.

(** C5.  In every run of [generate_files], however it ends.  When the
    [pre_gen_project] hook is invoked, the only steps before it are the
    rendering of the root name and the creation of the project root, the
    project root is a directory, and the file system the script starts
    from is the initial one plus that directory; and when the script, run
    on the context of this run in the world of this run, fails, the run
    fails with its error and the hook is the last step: nothing has been
    generated.  When the [post_gen_project] hook is invoked, it is the
    last step of the run; the pre-generation script of this run had
    returned, the walk of this run - started in the template, from the
    file system that script left and the log up to it - ran the whole
    template and returned, its log is the log of the run between the two
    hooks, and the file system it left is the one the post-generation
    script starts from. *)
Theorem hooks_bracket_generation
        (fuel : nat) (repo_dir : string) (context : option loc)
        (output_dir : string) (w w' : world) (r : outcome unit) :
  generate_files fuel repo_dir context output_dir w = (r, w') →
  ∃ delta,
    log w' = log w ++ delta ∧
    (∀ i pd seen,
        delta !! i = Some (EvHook "pre_gen_project" pd seen) →
        (∃ u, take i delta = [EvRenderName u; EvMakedirs (components pd)]) ∧
        FS.mkdirs umask [] (components pd) (fs w) = Some seen ∧
        FS.isdir seen (components pd) = true ∧
        ∃ c wc,
          context_or_empty context w = (Ok c, wc) ∧
          ∀ e, (hook_script "pre_gen_project" pd c
                  (pre_hook_world w w' repo_dir seen (take (S i) delta))).1
               = Raise e →
               r = Raise e ∧ drop (S i) delta = []
               ∧ Forall (λ e, generates e = false) delta) ∧
    (∀ i pd seen,
        delta !! i = Some (EvHook "post_gen_project" pd seen) →
        drop (S i) delta = [] ∧
        ∃ c wc template_dir u seen0 w2,
          find_template_in w repo_dir = Ok template_dir ∧
          context_or_empty context w = (Ok c, wc) ∧
          take 3 delta = opening u pd seen0 ∧
          let wh := pre_hook_world w w' repo_dir seen0 (take 3 delta) in
          (hook_script "pre_gen_project" pd c wh).1 = Ok tt ∧
          walk fuel (walk_body pd c output_dir walk_environment) "."
               (walk_start w w' template_dir
                  (hook_script "pre_gen_project" pd c wh).2 (take 3 delta))
          = (Ok tt, w2) ∧
          fs w2 = seen ∧
          log w2 = log w ++ take i delta).
Proof.
  intros Hrun.
  apply generate_files_run_log in Hrun as (delta & Hlog & Hshape).
  exists delta. split; [done|].
  destruct Hshape as [e|e u|e u k|e u pd0 seen0 c wc Hctx Hmk Hfail
                     |e u pd0 seen0 c wc walked Hctx Hmk Hok Hnh
                     |r u pd0 seen0 c wc template_dir walked w2
                        Hfind Hctx Hmk Hok Hnh Hwalk Hlog2].
  - split; by intros ? ? ? ?.
  - split; by intros [|[|]] ? ? ?.
  - split; by intros [|[|[|]]] ? ? ?.
  - split.
    + intros [|[|[|]]] pd seen Hi; try done. injection Hi as <- <-.
      split; [by exists u|]. split; [done|].
      split; [by apply (mkdirs_isdir _ (fs w))|].
      exists c, wc. split; [done|]. intros e' He'.
      change (take 3 (opening ?a ?b ?c)) with (opening a b c) in He'.
      split; [congruence|]. split; [done|apply opening_quiet].
    + by intros [|[|[|]]] ? ? ?.
  - split.
    + intros i pd seen Hi. unfold opening in Hi.
      rewrite <- (app_nil_r walked) in Hi.
      apply hook_position in Hi as [[-> [= <- <-]]|(j & _ & Hj)]; [|done..].
      split; [by exists u|]. split; [done|].
      split; [by apply (mkdirs_isdir _ (fs w))|].
      exists c, wc. split; [done|]. intros e' He'.
      change (take 3 (opening ?a ?b ?c ++ walked)) with (opening a b c) in He'.
      congruence.
    + intros i pd seen Hi. unfold opening in Hi.
      rewrite <- (app_nil_r walked) in Hi.
      by apply hook_position in Hi as [[-> [=]]|(j & _ & Hj)].
  - split.
    + intros i pd seen Hi. unfold opening in Hi.
      apply hook_position in Hi as [[-> [= <- <-]]|(j & _ & Hj)]; [| |done..].
      * split; [by exists u|]. split; [done|].
        split; [by apply (mkdirs_isdir _ (fs w))|].
        exists c, wc. split; [done|]. intros e' He'.
        change (take 3 (opening ?a ?b ?c ++ walked ++ ?t)) with (opening a b c) in He'.
        congruence.
      * by destruct j.
    + intros i pd seen Hi. unfold opening in Hi.
      apply hook_position in Hi as [[-> [=]]|(j & -> & Hj)]; [|done..].
      destruct j; [|done]. injection Hj as <- <-.
      rewrite Nat.add_0_r.
      change (3 + length walked)
        with (length (opening u pd0 seen0) + length walked).
      rewrite <- length_app.
      rewrite (app_assoc _ walked).
      split.
      * apply drop_ge. rewrite (length_app _ [_]). simpl. lia.
      * exists c, wc, template_dir, u, seen0, w2.
        split; [done|]. split; [done|].
        assert (Htake : take 3 ((opening u pd0 seen0 ++ walked)
                                ++ [EvHook "post_gen_project" pd0 (fs w2)])
                        = opening u pd0 seen0) by done.
        rewrite Htake. split; [done|]. cbv zeta.
        split; [done|]. split; [done|]. split; [done|].
        rewrite take_app_length. by rewrite Hlog2.
Qed.

(* ------------------------------------------------------------------- *)
(** *** More on the templated-root check                                *)
(* ------------------------------------------------------------------- *)

Lemma contains_cons (p : string) (c : ascii) (s : string) :
  Str.contains p (String c s) = Str.startswith p (String c s) || Str.contains p s.
Proof. reflexivity. Qed.

Lemma contains_tail (p : string) (c : ascii) (s : string) :
  Str.contains p s = true → Str.contains p (String c s) = true.
Proof. intros H. rewrite contains_cons, H. apply orb_true_r. Qed.

Lemma open_then_close_contains (s : string) :
  open_then_close s = true →
  Str.contains "{{" s = true ∧ Str.contains "}}" s = true.
Proof.
  induction s as [|c s IH]; [done|].
  assert (Hrec : open_then_close s = true →
                 Str.contains "{{" (String c s) = true
                 ∧ Str.contains "}}" (String c s) = true).
  { intros [H1 H2]%IH. split; by apply contains_tail. }
  destruct s as [|c2 r]; [by destruct (Ascii.eqb c "{") eqn:E; simpl; destruct c as [[] [] [] [] [] [] [] []]|].
  destruct (Ascii.eqb c "{") eqn:Hc; [destruct (Ascii.eqb c2 "{") eqn:Hc2|].
  - apply Ascii.eqb_eq in Hc as ->, Hc2 as ->.
    change (open_then_close (String "{" (String "{" r)))
      with (Str.contains "}}" r || open_then_close (String "{" r)).
    intros [Hr|Hr]%orb_true_iff; [|by apply Hrec].
    split; [done|]. by do 2 apply contains_tail.
  - apply Ascii.eqb_eq in Hc as ->.
    assert (Heq : open_then_close (String "{" (String c2 r))
                  = open_then_close (String c2 r)).
    { destruct c2 as [[] [] [] [] [] [] [] []]; try reflexivity. discriminate Hc2. }
    rewrite Heq. apply Hrec.
  - assert (Heq : open_then_close (String c (String c2 r))
                  = open_then_close (String c2 r)).
    { destruct c as [[] [] [] [] [] [] [] []]; try reflexivity. discriminate Hc. }
    rewrite Heq. apply Hrec.
Qed.

(** X1.  A name with an opening delimiter and a closing delimiter after
    it passes the templated-root check: the check is weaker than the
    ordered reading, never stronger. *)
Theorem ordered_delimiters_pass (dirname : string) :
  open_then_close dirname = true → ensure_dir_is_templated dirname = Ok true.
Proof.
  intros [H1 H2]%open_then_close_contains.
  unfold ensure_dir_is_templated. by rewrite H1, H2.
Qed.

(* ------------------------------------------------------------------- *)
(** *** More on the policy matcher                                      *)
(* ------------------------------------------------------------------- *)

Lemma first_match_skip (path : string) (pre : list string) (l : list value) :
  Forall (λ p, Fnmatch.fnmatch path p = Some false) pre →
  first_match path ((VStr <$> pre) ++ l) = first_match path l.
Proof.
  induction 1 as [|p pre Hp _ IH]; [done|].
  simpl. by rewrite Hp.
Qed.

Lemma first_match_decided (path : string) (v : value) (rest : list value) :
  first_match path [v] ≠ Ok false →
  first_match path (v :: rest) = first_match path [v].
Proof.
  destruct v as [| | |s| |]; try done.
  simpl. by destruct (Fnmatch.fnmatch path s) as [[]|].
Qed.

(** X2.  The loop over the patterns stops at the first entry that
    decides: after entries that do not match, an entry that matches
    (true), that is not a string (TypeError) or that is an ill-formed
    pattern (regular-expression error) gives the result, and nothing
    after it is looked at. *)
Theorem copy_without_render_first_decides
        (h : gmap loc (gmap string value)) (path : string) (context r : loc)
        (d ns : gmap string value)
        (pre : list string) (v : value) (rest : list value) :
  h !! context = Some d →
  d !! "cookiecutter" = Some (VDict r) →
  h !! r = Some ns →
  ns !! "_copy_without_render" = Some (VList ((VStr <$> pre) ++ v :: rest)) →
  Forall (λ p, Fnmatch.fnmatch path p = Some false) pre →
  first_match path [v] ≠ Ok false →
  copy_without_render h path context = first_match path [v]
  ∧ ∀ rest', first_match path ((VStr <$> pre) ++ v :: rest')
             = first_match path [v].
Proof.
  intros Hd Hr Hns Hset Hpre Hv.
  assert (Hall : ∀ rest', first_match path ((VStr <$> pre) ++ v :: rest')
                          = first_match path [v]).
  { intros rest'. rewrite first_match_skip by done. by apply first_match_decided. }
  split; [|done].
  unfold copy_without_render. simpl. rewrite Hd, Hr. simpl. rewrite Hns, Hset.
  simpl. rewrite Hall.
  destruct v as [| | |s| |]; try done.
  simpl. by destruct (Fnmatch.fnmatch path s) as [[]|].
Qed.

Lemma single_char_compile (c : ascii) :
  ∃ t, Fnmatch.compile (String c "") = Some [t]
       ∧ (c = "*"%char → t = Fnmatch.TStar).
Proof.
  unfold Fnmatch.compile.
  change (list_ascii_of_string (String c "")) with [c].
  change (Fnmatch.translate (S (length [c])) [c])
    with (if Ascii.eqb c "*" then [Fnmatch.TStar]
          else if Ascii.eqb c "?" then [Fnmatch.TAny]
          else if Ascii.eqb c "[" then [Fnmatch.TLit c]
          else [Fnmatch.TLit c]).
  destruct (Ascii.eqb c "*") eqn:E1; [by eexists|].
  assert (c ≠ "*"%char) by (intros ->; discriminate E1).
  destruct (Ascii.eqb c "?"); [by eexists|].
  destruct (Ascii.eqb c "["); by eexists.
Qed.

Lemma match_star_all (s : list ascii) :
  Fnmatch.match_toks [Fnmatch.TStar] s = true.
Proof.
  induction s as [|c s IH]; [done|].
  change (Fnmatch.match_toks [Fnmatch.TStar] (c :: s))
    with (Fnmatch.match_toks [] (c :: s) || Fnmatch.match_toks [Fnmatch.TStar] s).
  rewrite IH. apply orb_true_r.
Qed.

Lemma first_match_chars (path : string) (l : list ascii) :
  ∃ b, first_match path (map (λ c, VStr (String c "")) l) = Ok b ∧
       (b = true ↔ ∃ c, c ∈ l ∧ Fnmatch.fnmatch path (String c "") = Some true).
Proof.
  destruct (first_match_patterns path ((λ c, String c "") <$> l)) as (b & Hb & Hiff).
  { apply Forall_fmap, Forall_forall. intros c _.
    destruct (single_char_compile c) as (t & Ht & _). by exists [t]. }
  exists b. split.
  - rewrite <- Hb. f_equal. clear. induction l as [|c l IH]; [done|].
    simpl. by rewrite IH.
  - rewrite Hiff. split.
    + intros (pat & (c & -> & Hc)%list_elem_of_fmap & Hm). by exists c.
    + intros (c & Hc & Hm). exists (String c ""). split; [|done].
      apply list_elem_of_fmap. by exists c.
Qed.

(** X3.  A setting that is a string instead of a list is iterated
    character by character, each character a pattern of its own: the
    call never raises, it answers true exactly when one character, as a
    pattern, matches the path; so a string that holds a star selects
    every path. *)
Theorem string_setting_is_read_by_character
        (h : gmap loc (gmap string value)) (path : string) (context r : loc)
        (d ns : gmap string value) (s : string) :
  h !! context = Some d →
  d !! "cookiecutter" = Some (VDict r) →
  h !! r = Some ns →
  ns !! "_copy_without_render" = Some (VStr s) →
  ∃ b, copy_without_render h path context = Ok b
       ∧ (b = true ↔ ∃ c, c ∈ list_ascii_of_string s
                          ∧ Fnmatch.fnmatch path (String c "") = Some true)
       ∧ ("*"%char ∈ list_ascii_of_string s → b = true).
Proof.
  intros Hd Hr Hns Hset.
  destruct (first_match_chars path (list_ascii_of_string s)) as (b & Hb & Hiff).
  exists b. split; [|split; [done|]].
  - unfold copy_without_render. simpl. rewrite Hd, Hr. simpl. rewrite Hns, Hset.
    simpl. by rewrite Hb.
  - intros Hstar. apply Hiff. exists "*"%char. split; [done|].
    unfold Fnmatch.fnmatch.
    destruct (single_char_compile "*") as (t & -> & Ht). rewrite Ht by done.
    by rewrite match_star_all.
Qed.

Lemma translate_literal (l : list ascii) (fuel : nat) :
  forallb (λ c, negb (Ascii.eqb c "*" || Ascii.eqb c "?" || Ascii.eqb c "[")) l
  = true →
  length l < fuel →
  Fnmatch.translate fuel l = Fnmatch.TLit <$> l.
Proof.
  revert fuel. induction l as [|c l IH]; intros fuel Hl Hf.
  - by destruct fuel.
  - destruct fuel as [|fuel]; [simpl in Hf; lia|].
    simpl in Hl. apply andb_true_iff in Hl as [Hc Hl].
    apply negb_true_iff in Hc.
    apply orb_false_iff in Hc as [[H1 H2]%orb_false_iff H3].
    change (Fnmatch.translate (S fuel) (c :: l))
      with (if Ascii.eqb c "*" then Fnmatch.TStar :: Fnmatch.translate fuel l
            else if Ascii.eqb c "?" then Fnmatch.TAny :: Fnmatch.translate fuel l
            else if Ascii.eqb c "[" then
              match Fnmatch.bracket l with
              | Some (neg, stuff, after) =>
                  Fnmatch.TClass neg (Fnmatch.class_items stuff)
                    :: Fnmatch.translate fuel after
              | None => Fnmatch.TLit c :: Fnmatch.translate fuel l
              end
            else Fnmatch.TLit c :: Fnmatch.translate fuel l).
    rewrite H1, H2, H3. rewrite IH; [done|done|]. simpl in Hf. lia.
Qed.

Lemma match_literals (l s : list ascii) :
  Fnmatch.match_toks (Fnmatch.TLit <$> l) s = bool_decide (s = l).
Proof.
  revert s. induction l as [|c l IH]; intros [|d s]; try done.
  change (Fnmatch.match_toks (Fnmatch.TLit <$> c :: l) (d :: s))
    with (Ascii.eqb c d && Fnmatch.match_toks (Fnmatch.TLit <$> l) s).
  rewrite IH. destruct (Ascii.eqb c d) eqn:E.
  - apply Ascii.eqb_eq in E as ->. simpl.
    apply bool_decide_ext. split; [by intros ->|by intros [= ->]].
  - simpl. symmetry. apply bool_decide_eq_false. intros [= -> ->].
    by rewrite Ascii.eqb_refl in E.
Qed.

Lemma forallb_tok_ok_literals (l : list ascii) :
  forallb Fnmatch.tok_ok (Fnmatch.TLit <$> l) = true.
Proof. by induction l. Qed.

Lemma fnmatch_literal (path pat : string) :
  literal_pattern pat = true →
  Fnmatch.fnmatch path pat = Some (bool_decide (path = pat)).
Proof.
  intros Hl. unfold Fnmatch.fnmatch, Fnmatch.compile.
  rewrite (translate_literal _ _ Hl) by lia.
  rewrite forallb_tok_ok_literals, match_literals. f_equal.
  apply bool_decide_ext. split; [|by intros ->].
  intros H. rewrite <- (string_of_list_ascii_of_string path), H.
  apply string_of_list_ascii_of_string.
Qed.

Lemma first_match_literals (path : string) (pats : list string) :
  Forall (λ p, literal_pattern p = true) pats →
  first_match path (VStr <$> pats) = Ok (bool_decide (path ∈ pats)).
Proof.
  induction 1 as [|p pats Hp _ IH].
  - rewrite bool_decide_eq_false_2 by apply not_elem_of_nil. done.
  - rewrite fmap_cons. cbn [first_match]. rewrite (fnmatch_literal _ _ Hp).
    destruct (decide (path = p)) as [->|Hne].
    + rewrite bool_decide_eq_true_2 by done. f_equal. symmetry.
      apply bool_decide_eq_true. apply elem_of_cons. by left.
    + rewrite bool_decide_eq_false_2 by done. rewrite IH. f_equal.
      apply bool_decide_ext. rewrite elem_of_cons. split; [by right|by intros [?|?]].
Qed.

(** X4.  When every entry of the setting is free of the characters
    star, question mark and opening bracket, the policy selects exactly
    the paths that are equal to one of the entries: an entry never
    selects the files below a directory of that name. *)
Theorem literal_setting_selects_listed_paths
        (h : gmap loc (gmap string value)) (path : string) (context r : loc)
        (d ns : gmap string value) (pats : list string) :
  h !! context = Some d →
  d !! "cookiecutter" = Some (VDict r) →
  h !! r = Some ns →
  ns !! "_copy_without_render" = Some (VList (VStr <$> pats)) →
  Forall (λ p, literal_pattern p = true) pats →
  copy_without_render h path context = Ok (bool_decide (path ∈ pats)).
Proof.
  intros Hd Hr Hns Hset Hl.
  unfold copy_without_render. simpl. rewrite Hd, Hr. simpl. rewrite Hns, Hset.
  simpl. by rewrite (first_match_literals _ _ Hl).
Qed.

(** X5.  A flat context (no namespace key) that carries the setting at
    its top level: before the namespace shim the policy finds no
    setting and answers false for every path; after the shim the same
    call reads the top-level setting and answers by its patterns. *)
Theorem shim_makes_flat_setting_effective
        (w : world) (path : string) (context : loc)
        (d : gmap string value) (pats : list string) :
  heap w !! context = Some d →
  d !! "cookiecutter" = None →
  d !! "_copy_without_render" = Some (VList (VStr <$> pats)) →
  Forall well_formed pats →
  copy_without_render (heap w) path context = Ok false ∧
  ∃ w2 b, ensure_namespace context w = (Ok tt, w2)
          ∧ copy_without_render (heap w2) path context = Ok b
          ∧ (b = true ↔ ∃ pat, pat ∈ pats
                               ∧ Fnmatch.fnmatch path pat = Some true).
Proof.
  intros Hd Hns Hset Hwf. split.
  - unfold copy_without_render. simpl. by rewrite Hd, Hns.
  - destruct (first_match_patterns path pats Hwf) as (b & Hb & Hiff).
    eexists _, b. split; [by apply ensure_namespace_absent|]. split; [|done].
    unfold copy_without_render. simpl. rewrite lookup_insert_eq. simpl.
    rewrite lookup_insert_eq. simpl. rewrite lookup_insert_eq. simpl.
    rewrite lookup_insert_ne by done. rewrite Hset. simpl. by rewrite Hb.
Qed.

(* ------------------------------------------------------------------- *)
(** *** What the context assembler leaves alone                         *)
(* ------------------------------------------------------------------- *)

Lemma layer_after_alloc (h : gmap loc (gmap string value)) (c : loc)
      (x : gmap string value) (o : option loc) :
  h !! c = None → live h o →
  layer (<[c := x]> h) o = layer h o ∧ live (<[c := x]> h) o.
Proof.
  intros Hfresh. destruct o as [r|]; simpl; [|done]. intros [od Hod].
  assert (c ≠ r) by congruence.
  rewrite lookup_insert_ne by done. rewrite Hod. eauto.
Qed.

(** The run of [generate_context], written out. *)
Lemma generate_context_run
      (context_file : string) (default_context extra_context : option loc)
      (w w1 : world) (loaded : gmap string value) :
  load_context_from_file context_file w = (Ok loaded, w1) →
  live (heap w1) default_context →
  live (heap w1) extra_context →
  ∃ context,
    heap w1 !! context = None ∧
    generate_context context_file default_context extra_context w
    = (Ok context,
       with_heap (<[context := layer (heap w1) extra_context
                               ∪ (layer (heap w1) default_context ∪ loaded)]>
                    (heap w1)) w1).
Proof.
  intros Hload Hd He.
  destruct (alloc_fresh loaded w1) as (c & Halloc & Hfresh).
  exists c. split; [done|].
  unfold generate_context, bind at 1. rewrite Hload.
  unfold bind at 1. rewrite Halloc.
  unfold bind at 1.
  rewrite (update_if_overlay c default_context _ loaded); simpl;
    [|by rewrite lookup_insert_eq|by apply layer_after_alloc].
  unfold bind at 1.
  rewrite (proj1 (layer_after_alloc _ c loaded _ Hfresh Hd)).
  rewrite (update_if_overlay c extra_context _
             (layer (heap w1) default_context ∪ loaded)); simpl.
  - rewrite !insert_insert_eq.
    rewrite (proj1 (layer_after_alloc _ c _ _ Hfresh He)).
    destruct w1; reflexivity.
  - by rewrite lookup_insert_eq.
  - rewrite insert_insert_eq. by apply layer_after_alloc.
Qed.

(** X6.  [generate_context] writes to the dictionary it loaded and to
    nothing else: every dictionary that exists once the declaration is
    loaded - the two override layers among them - is the same
    afterwards, the returned context is none of them, and the file
    system, the working directory and the log are as the loader left
    them. *)
Theorem generate_context_leaves_layers
        (context_file : string) (default_context extra_context : option loc)
        (w w1 w' : world) (loaded : gmap string value) (r : outcome loc) :
  load_context_from_file context_file w = (Ok loaded, w1) →
  live (heap w1) default_context →
  live (heap w1) extra_context →
  generate_context context_file default_context extra_context w = (r, w') →
  ∃ context,
    r = Ok context ∧
    default_context ≠ Some context ∧ extra_context ≠ Some context ∧
    (∀ r0 d, heap w1 !! r0 = Some d → heap w' !! r0 = Some d) ∧
    layer (heap w') default_context = layer (heap w1) default_context ∧
    layer (heap w') extra_context = layer (heap w1) extra_context ∧
    fs w' = fs w1 ∧ cwd w' = cwd w1 ∧ log w' = log w1.
Proof.
  intros Hload Hd He Hrun.
  destruct (generate_context_run _ _ _ _ _ _ Hload Hd He) as (c & Hfresh & Heq).
  rewrite Heq in Hrun. injection Hrun as <- <-. exists c. simpl.
  assert (Hother : ∀ o, live (heap w1) o → o ≠ Some c).
  { intros [o|] Hlive [= ->]. destruct Hlive as [x Hx]. congruence. }
  repeat split; try done; try by apply Hother.
  - intros r0 d Hr0. rewrite lookup_insert_ne; [done|congruence].
  - by apply layer_after_alloc.
  - by apply layer_after_alloc.
Qed.

(* ------------------------------------------------------------------- *)
(** *** What the run leaves of the heap                                 *)
(* ------------------------------------------------------------------- *)

Lemma context_or_empty_heap (context : option loc) (w w1 : world)
      (r : outcome loc) :
  context_or_empty context w = (r, w1) →
  (∀ r0 d, heap w !! r0 = Some d → heap w1 !! r0 = Some d) ∧
  ∀ c, r = Ok c →
       heap w !! c = None
       ∨ (context = Some c ∧ heap w1 = heap w ∧
          ∃ d, heap w !! c = Some d ∧ d ≠ ∅).
Proof.
  destruct (alloc_fresh ∅ w) as (c0 & Halloc & Hfresh).
  assert (Hnew : alloc ∅ w = (r, w1) →
     (∀ r0 d, heap w !! r0 = Some d → heap w1 !! r0 = Some d) ∧
     ∀ c, r = Ok c →
       heap w !! c = None
       ∨ (context = Some c ∧ heap w1 = heap w ∧
          ∃ d, heap w !! c = Some d ∧ d ≠ ∅)).
  { rewrite Halloc. intros [= <- <-]. split.
    - intros r0 d Hr0. simpl. rewrite lookup_insert_ne; [done|congruence].
    - intros c [= <-]. by left. }
  destruct context as [r1|]; simpl; [|done].
  unfold bind, deref, observe. destruct (heap w !! r1) as [d|] eqn:Hd.
  - destruct (dict_is_empty d) eqn:He; [done|].
    intros [= <- <-]. split; [done|]. intros c [= <-]. right.
    split; [done|]. split; [done|]. exists d. split; [done|].
    by apply dict_is_empty_false.
  - intros [= <- <-]. split; [done|]. by intros c [=].
Qed.

Lemma ensure_namespace_heap (c : loc) (w w1 : world) (r : outcome unit) :
  ensure_namespace c w = (r, w1) →
  (∀ r0, r0 ≠ c → heap w1 !! r0 = heap w !! r0) ∧
  (∀ d, heap w !! c = Some d → is_Some (d !! "cookiecutter") → heap w1 = heap w).
Proof.
  unfold ensure_namespace, bind, deref, observe.
  destruct (heap w !! c) as [d|] eqn:Hd.
  - destruct (d !! "cookiecutter") as [v|] eqn:Hv.
    + by intros [= <- <-].
    + unfold setitem, bind, deref, observe. rewrite Hd. intros [= <- <-]. split.
      * intros r0 Hne. simpl. by rewrite lookup_insert_ne.
      * intros d' [= <-] [x Hx]. congruence.
  - by intros [= <- <-].
Qed.

(** X7.  A run of [generate_files] writes to at most one dictionary
    that existed before it: the caller's context, and only when that is
    not empty and lacks the namespace key.  Every other dictionary - the
    namespace of variables among them - is the same after the run,
    whatever its outcome. *)
Theorem generate_files_heap_frame
        (fuel : nat) (repo_dir : string) (context : option loc)
        (output_dir : string) (w w' : world) (r : outcome unit)
        (r0 : loc) (d : gmap string value) :
  generate_files fuel repo_dir context output_dir w = (r, w') →
  heap w !! r0 = Some d →
  (context = Some r0 → d = ∅ ∨ is_Some (d !! "cookiecutter")) →
  heap w' !! r0 = Some d.
Proof.
  intros Hrun Hr0 Hctx. unfold generate_files in Hrun.
  apply bind_inv in Hrun as [(template_dir & w0 & Hfind & Hrun)|(e & Hfind & _)];
    unfold find_template, observe in Hfind; injection Hfind as _ <-; [|done].
  apply bind_inv in Hrun as [(c & w1 & Hc & Hrun)|(e & Hc & _)];
    apply context_or_empty_heap in Hc as [Hkeep Hc]; [|by apply Hkeep].
  apply bind_inv in Hrun as [(? & w1' & Hchk & Hrun)|(e & Hchk & _)];
    unfold observe in Hchk; injection Hchk as _ <-; [|by apply Hkeep].
  assert (Hns : ∀ w2 r2, ensure_namespace c w1 = (r2, w2) → heap w2 !! r0 = Some d).
  { intros w2 r2 [Hother Hsame]%ensure_namespace_heap.
    destruct (decide (r0 = c)) as [->|Hne]; [|rewrite Hother by done; by apply Hkeep].
    destruct (Hc c eq_refl) as [Hnone|(-> & Hheap & d' & Hd' & Hne)]; [congruence|].
    rewrite Hr0 in Hd'. injection Hd' as <-.
    destruct (Hctx eq_refl) as [->|Hkey]; [done|].
    rewrite (Hsame d); [by apply Hkeep|by apply Hkeep|done]. }
  apply bind_inv in Hrun as [([] & w2 & Hshim & Hrun)|(e & Hshim & _)];
    apply Hns in Hshim; [|done].
  apply bind_inv in Hrun as [(pd0 & w3 & Hrcd & Hrun)|(e & Hrcd & _)];
    apply render_and_create_dir_heap in Hrcd; [|congruence].
  apply bind_inv in Hrun as [(pd & w4 & Habs & Hrun)|(e & Habs & _)];
    unfold observe in Habs; [|done]. injection Habs as <- <-.
  apply bind_inv in Hrun as [([] & w5 & Hpre & Hrun)|(e & Hpre & _)];
    apply hook_heap in Hpre; [|congruence].
  apply bind_inv in Hrun as [([] & w6 & Hwalk & Hrun)|(e & Hwalk & _)];
    apply walk_heap in Hwalk; [|congruence].
  apply hook_heap in Hrun. congruence.
Qed.

(* ------------------------------------------------------------------- *)
(** *** More on the single-file generator                               *)
(* ------------------------------------------------------------------- *)

(** The permission bits can always be set on what was just written. *)
Lemma copymode_after_write (src dst : string) (w w0 : world)
      (data : string) (mode : N) (n : node) (e : event) :
  FS.node_at (fs w) (key w src) = Some (File data mode) →
  key w dst ≠ [] →
  cwd w0 = cwd w →
  ∃ n0, (key w src ≠ key w dst → n0 = File data mode) ∧
        (key w src = key w dst → n0 = n) ∧
        copymode src dst (with_fs (<[key w dst := n]> (fs w)) (with_event e w0))
        = (Ok tt, with_fs (<[key w dst := set_mode (node_mode n0) n]> (fs w))
                          (with_event (EvCopyMode (key w src) (key w dst))
                             (with_fs (<[key w dst := n]> (fs w))
                                      (with_event e w0)))).
Proof.
  intros Hsrc Hdst Hcwd. pose proof Hsrc as [Hks Hsrc']%node_at_file.
  unfold copymode.
  assert (Hkey : ∀ p, key (with_fs (<[key w dst := n]> (fs w)) (with_event e w0)) p
                      = key w p).
  { intros p. by apply key_same. }
  rewrite !Hkey.
  change (fs (with_fs ?f _)) with f.
  rewrite (node_at_lookup _ (key w src)) by done.
  destruct (decide (key w src = key w dst)) as [Heq|Hne].
  - rewrite Heq, lookup_insert_eq. exists n. split; [done|]. split; [done|].
    unfold FS.chmod. destruct (key w dst) eqn:Hk; [done|].
    rewrite lookup_insert_eq. by rewrite insert_insert_eq.
  - rewrite lookup_insert_ne by done. rewrite Hsrc'.
    exists (File data mode). split; [done|]. split; [done|].
    unfold FS.chmod. destruct (key w dst) eqn:Hk; [done|].
    rewrite lookup_insert_eq. by rewrite insert_insert_eq.
Qed.

(** The copy branch, written out: [copyfile] then [copymode]. *)
Lemma copy_pair_run (src dst : string) (w w' : world) (r : outcome unit) :
  (copyfile src dst ;;; copymode src dst) w = (r, w') →
  heap w' = heap w ∧ cwd w' = cwd w ∧
  match r with
  | Ok _ => ∃ n, fs w' = <[key w dst := n]> (fs w)
  | Raise _ => fs w' = fs w
  end.
Proof.
  intros Hrun.
  apply bind_inv in Hrun as [([] & w1 & Hcopy & Hmode)|(e & Hcopy & ->)].
  - apply copyfile_ok in Hcopy as (d & m0 & m & Hsrc & Hne & Hdst & Hw1).
    subst w1.
    destruct (copymode_after_write src dst w w d m0 (File d m)
                (EvCopyFile (key w src) (key w dst)) Hsrc Hdst eq_refl)
      as (n0 & _ & _ & Heq).
    assert ((r, w') = (Ok tt, with_fs _ _)) as [= -> ->]
      by (rewrite <- Hmode; exact Heq).
    split; [done|]. split; [done|]. by eexists.
  - unfold copyfile in Hcopy.
    destruct (FS.node_at (fs w) (key w src)) as [[d m0|?]|];
      [|by injection Hcopy as _ <-..].
    case_bool_decide; [by injection Hcopy as _ <-|].
    destruct (FS.write umask (key w dst) d (fs w)); [done|].
    by injection Hcopy as _ <-.
Qed.

Lemma is_binary_run (p : string) (w w' : world) (r : outcome bool) :
  is_binary p w = (r, w') →
  w' = w ∧
  match r with
  | Ok b => ∃ d m, FS.node_at (fs w) (key w p) = Some (File d m)
                   ∧ b = is_binary_data d
  | Raise _ => True
  end.
Proof.
  unfold is_binary, bind, read_file, observe, ret.
  destruct (FS.node_at (fs w) (key w p)) as [[d m|?]|]; intros [= <- <-];
    (split; [done|]); [|done..].
  by exists d, m.
Qed.

Lemma get_template_render_world (env : environment) (context : loc)
      (name : string) (w w' : world) (r : outcome string) :
  get_template_render env context name w = (r, w') →
  w' = with_event (EvGetTemplate name) w.
Proof.
  unfold get_template_render, bind, tell, observe. simpl.
  match goal with |- (?x, _) = _ → _ => destruct x end; by intros [= _ <-].
Qed.

(** A run of [generate_file]: either one node is laid at the output
    path, or the file system is as before. *)
Lemma write_text_failed (dst text : string) (w w' : world) (e : exn) :
  write_text dst text w = (Raise e, w') →
  heap w' = heap w ∧ cwd w' = cwd w ∧
  (fs w' = fs w
   ∨ (e = UnicodeEncodeError ∧ Utf8.has_surrogate text = true
      ∧ ∃ m, fs w' = <[key w dst := File "" m]> (fs w))).
Proof.
  unfold write_text.
  destruct (FS.open_w umask (key w dst) (fs w)) as [f1|] eqn:Ho.
  - apply open_w_spec in Ho as (_ & m & -> & _).
    destruct (Utf8.has_surrogate text); [|done].
    intros [= <- <-]. split; [done|]. split; [done|]. right. by eauto.
  - intros [= <- <-]. split; [done|]. split; [done|]. by left.
Qed.

(** A run of [generate_file]: one node is laid at the output path; or
    the run fails and the file system is as before, or it fails in the
    write and the output file is there, empty. *)
Lemma generate_file_run (project_dir infile : string) (context : loc)
      (env : environment) (w w' : world) (r : outcome unit) :
  generate_file project_dir infile context env w = (r, w') →
  heap w' = heap w ∧ cwd w' = cwd w ∧
  match r with
  | Ok _ => ∃ rendered n,
      render_name (heap w) context infile = Ok rendered ∧
      fs w' = <[key w (join project_dir rendered) := n]> (fs w)
  | Raise e =>
      fs w' = fs w
      ∨ ∃ rendered m,
          render_name (heap w) context infile = Ok rendered ∧
          e = UnicodeEncodeError ∧
          fs w' = <[key w (join project_dir rendered) := File "" m]> (fs w)
  end.
Proof.
  unfold generate_file. intros Hrun.
  apply bind_inv in Hrun as [(rendered & w1 & Hren & Hrun)|(e & Hren & ->)];
    rewrite render_run in Hren; injection Hren as Hren <-; [|by auto].
  apply bind_inv in Hrun as [(binary & w2 & Hbin & Hrun)|(e & Hbin & ->)];
    apply is_binary_run in Hbin as [-> Hbin]; [|by auto].
  destruct Hbin as (data & mode & Hfile & ->).
  change (key (with_event _ w)) with (key w) in Hfile.
  change (fs (with_event _ w)) with (fs w) in Hfile.
  destruct (is_binary_data data).
  - apply copy_pair_run in Hrun as (Hh & Hc & Hfs).
    split; [done|]. split; [done|]. destruct r; [|by left].
    destruct Hfs as [n Hn]. by exists rendered, n.
  - apply bind_inv in Hrun as [([] & w3 & Hwrite & Hmode)|(e & Hwrite & ->)].
    + apply bind_ok_inv in Hwrite as (text & w2 & Hget & Hwrite).
      apply get_template_render_world in Hget as ->.
      apply write_text_ok in Hwrite as (Hkd & m & -> & _).
      change (key (with_event _ (with_event _ w))) with (key w) in *.
      destruct (copymode_after_write infile (join project_dir rendered) w
                  (with_event (EvGetTemplate infile)
                              (with_event (EvRenderName infile) w))
                  data mode (File text m)
                  (EvWrite (key w (join project_dir rendered)))
                  Hfile Hkd eq_refl)
        as (n0 & _ & _ & Heq).
      assert ((r, w') = (Ok tt, with_fs _ _)) as [= -> ->]
        by (rewrite <- Hmode; exact Heq).
      split; [done|]. split; [done|]. by eexists _, _.
    + apply bind_inv in Hwrite as [(text & w2 & Hget & Hwrite)|(e' & Hget & [= ->])].
      * apply get_template_render_world in Hget as ->.
        apply write_text_failed in Hwrite as (Hh & Hc & Hfs).
        change (key (with_event _ (with_event _ w))) with (key w) in *.
        split; [done|]. split; [done|].
        destruct Hfs as [Hfs|(-> & _ & m & Hfs)]; [by left|].
        right. by exists rendered, m.
      * apply get_template_render_world in Hget as ->. by auto.
Qed.

Lemma generate_one_run (project_dir : string) (context : loc)
      (env : environment) (root f : string) (w w' : world) (r : outcome unit) :
  generate_one project_dir context env root f w = (r, w') →
  heap w' = heap w ∧ cwd w' = cwd w ∧
  match r with
  | Ok _ => ∃ rendered n,
      render_name (heap w) context (normpath (join root f)) = Ok rendered ∧
      fs w' = <[key w (join project_dir rendered) := n]> (fs w)
  | Raise e =>
      fs w' = fs w
      ∨ ∃ rendered m,
          render_name (heap w) context (normpath (join root f)) = Ok rendered ∧
          e = UnicodeEncodeError ∧
          fs w' = <[key w (join project_dir rendered) := File "" m]> (fs w)
  end.
Proof.
  unfold generate_one. intros Hrun.
  apply bind_inv in Hrun as [(copy & w1 & Hpol & Hrun)|(e & Hpol & ->)];
    rewrite policy_run in Hpol; injection Hpol as Hpol <-; [|by auto].
  destruct copy.
  - apply bind_inv in Hrun as [(rendered & w1 & Hren & Hrun)|(e & Hren & ->)];
      rewrite render_run in Hren; injection Hren as Hren <-; [|by auto].
    apply copy_pair_run in Hrun as (Hh & Hc & Hfs).
    split; [done|]. split; [done|]. destruct r; [|by left].
    destruct Hfs as [n Hn]. by exists rendered, n.
  - by apply generate_file_run in Hrun.
Qed.

(** X8.  A successful per-file step of the walker changes the file
    system at one path only, the project directory joined with the
    rendered name of the input path: every other entry - the input file
    too, unless it is that path - is as before, and so are the heap and
    the working directory. *)
Theorem generate_one_touches_one_path
        (project_dir : string) (context : loc) (env : environment)
        (root f : string) (w w' : world) :
  generate_one project_dir context env root f w = (Ok tt, w') →
  ∃ rendered,
    render_name (heap w) context (normpath (join root f)) = Ok rendered ∧
    is_Some (fs w' !! key w (join project_dir rendered)) ∧
    (∀ k, k ≠ key w (join project_dir rendered) → fs w' !! k = fs w !! k) ∧
    heap w' = heap w ∧ cwd w' = cwd w.
Proof.
  intros (Hh & Hc & rendered & n & Hren & Hfs)%generate_one_run.
  exists rendered. split; [done|]. rewrite Hfs. split.
  { rewrite lookup_insert_eq. by eexists. }
  split; [|done]. intros k Hk. by rewrite lookup_insert_ne.
Qed.

(** X9.  A per-file step of the walker that fails leaves the heap and
    the working directory alone and the file system as it was, with one
    exception: when the output file was opened and the codec then
    refused the rendered text, the output file is there and empty (if it
    existed it has been truncated), and the error is the codec's.  Every
    other failure - policy error, unreadable input, name or template
    error, output path that cannot be opened - happens before the output
    is opened. *)
Theorem generate_one_failure_leaves_at_most_empty_output
        (project_dir : string) (context : loc) (env : environment)
        (root f : string) (w w' : world) (e : exn) :
  generate_one project_dir context env root f w = (Raise e, w') →
  heap w' = heap w ∧ cwd w' = cwd w ∧
  (fs w' = fs w
   ∨ ∃ rendered m,
       render_name (heap w) context (normpath (join root f)) = Ok rendered ∧
       e = UnicodeEncodeError ∧
       fs w' = <[key w (join project_dir rendered) := File "" m]> (fs w)).
Proof. intros (Hh & Hc & Hfs)%generate_one_run. done. Qed.

(** X10.  For a text input named by a relative path of plain
    components, loaded through an environment that searches ["."]: when
    [generate_file] succeeds the output file holds exactly the text the
    engine returned for the bytes of the input file under the context,
    with the permission bits of the input, and the step consists of the
    name rendering, the template load, one write and one [copymode]. *)
Theorem generate_file_writes_rendering
        (project_dir : string) (comps : list string) (context : loc)
        (env : environment) (w w' : world) (data : string) (mode : N) :
  let infile := Str.join_slash comps in
  comps ≠ [] →
  Forall (λ c, FS.plain c = true) comps →
  loader_searchpath env = "." →
  FS.node_at (fs w) (key w infile) = Some (File data mode) →
  is_binary_data data = false →
  generate_file project_dir infile context env w = (Ok tt, w') →
  ∃ rendered text,
    render_name (heap w) context infile = Ok rendered ∧
    render_source env (with_event (EvGetTemplate infile)
                                  (with_event (EvRenderName infile) w))
                  context infile data = Ok text ∧
    let outfile := join project_dir rendered in
    fs w' = <[key w outfile := File text mode]> (fs w) ∧
    log w' = log w ++ [EvRenderName infile; EvGetTemplate infile;
                       EvWrite (key w outfile);
                       EvCopyMode (key w infile) (key w outfile)].
Proof.
  intros infile Hne Hplain Hsp Hfile Hb Hrun. unfold generate_file in Hrun.
  apply bind_ok_inv in Hrun as (rendered & w1 & Hren & Hrun).
  rewrite render_run in Hren. injection Hren as Hren <-.
  apply bind_ok_inv in Hrun as (binary & w2 & Hbin & Hrun).
  apply is_binary_ok in Hbin as (-> & data' & mode' & Hfile' & ->).
  change (key (with_event _ w)) with (key w) in Hfile'.
  change (fs (with_event _ w)) with (fs w) in Hfile'.
  rewrite Hfile in Hfile'. injection Hfile' as <- <-. rewrite Hb in Hrun.
  apply bind_ok_inv in Hrun as ([] & w3 & Hwrite & Hmode).
  apply bind_ok_inv in Hwrite as (text & w2 & Hget & Hwrite).
  apply (get_template_render_ok _ _ _ _ _ _ data mode) in Hget as [-> Htext];
    [|done..].
  exists rendered, text. split; [done|]. split; [done|].
  apply write_text_ok in Hwrite as (Hkd & m & -> & Hm).
  change (key (with_event _ (with_event _ w))) with (key w) in *.
  simpl in Hm.
  destruct (copymode_after_write infile (join project_dir rendered) w
              (with_event (EvGetTemplate infile)
                          (with_event (EvRenderName infile) w))
              data mode (File text m)
              (EvWrite (key w (join project_dir rendered)))
              Hfile Hkd eq_refl)
    as (n0 & Hdiff & Hsame & Heq).
  assert ((Ok tt, w') = (Ok tt, with_fs _ _)) as [= ->]
    by (rewrite <- Hmode; exact Heq).
  simpl.
  assert (Hmode0 : node_mode n0 = mode).
  { destruct (decide (key w infile = key w (join project_dir rendered)))
      as [Hk|Hk].
    - rewrite (Hsame Hk). simpl. apply node_at_file in Hfile as [_ Hfile].
      apply (Hm data). by rewrite <- Hk.
    - by rewrite (Hdiff Hk). }
  rewrite Hmode0. split; [done|]. by rewrite <- !app_assoc.
Qed.

(** X11.  When the engine fails on the source of a text input - a
    template syntax error, say - [generate_file] fails with that very
    error, after the name rendering and the template load and before
    anything is written. *)
Theorem generate_file_surfaces_template_error
        (project_dir : string) (comps : list string) (context : loc)
        (env : environment) (w : world) (data : string) (mode : N)
        (rendered : string) (e : exn) :
  let infile := Str.join_slash comps in
  let w1 := with_event (EvGetTemplate infile)
                       (with_event (EvRenderName infile) w) in
  comps ≠ [] →
  Forall (λ c, FS.plain c = true) comps →
  loader_searchpath env = "." →
  FS.node_at (fs w) (key w infile) = Some (File data mode) →
  is_binary_data data = false →
  render_name (heap w) context infile = Ok rendered →
  render_source env w1 context infile data = Raise e →
  generate_file project_dir infile context env w = (Raise e, w1).
Proof.
  intros infile w1 Hne Hplain Hsp Hfile Hb Hren Hsrc. subst infile w1.
  unfold generate_file.
  rewrite (bind_ok _ _ w (with_event (EvRenderName (Str.join_slash comps)) w)
             rendered)
    by (by rewrite render_run, Hren).
  rewrite (bind_ok _ _ _ (with_event (EvRenderName (Str.join_slash comps)) w)
             false).
  2:{ unfold is_binary, bind, read_file, observe, ret.
      change (key (with_event _ w)) with (key w).
      change (fs (with_event _ w)) with (fs w). by rewrite Hfile, Hb. }
  apply bind_raise. apply bind_raise.
  unfold get_template_render, bind, tell, observe.
  rewrite Hsp, template_filename_plain by done.
  change (key (with_event _ (with_event _ w))) with (key w).
  rewrite key_walk_root by done.
  change (fs (with_event _ (with_event _ w))) with (fs w). rewrite Hfile.
  by rewrite Hsrc.
Qed.

(* ------------------------------------------------------------------- *)
(** *** More on the body of the walk                                    *)
(* ------------------------------------------------------------------- *)

Lemma partition_dirs_ok (root : string) (context : loc) (dirs : list string)
      (w w' : world) (cs rs : list string) :
  partition_dirs root context dirs w = (Ok (cs, rs), w') →
  cs = List.filter (copied (heap w) root context) dirs ∧
  rs = List.filter (λ d, negb (copied (heap w) root context d)) dirs ∧
  (∀ d, d ∈ dirs →
        copy_without_render (heap w) (normpath (join root d)) context
        = Ok (copied (heap w) root context d)) ∧
  heap w' = heap w ∧ fs w' = fs w ∧ cwd w' = cwd w ∧
  log w' = log w ++ ((λ d, EvPolicy (normpath (join root d))) <$> dirs).
Proof.
  revert w w' cs rs. induction dirs as [|d dirs IH]; intros w w' cs rs Hrun.
  - injection Hrun as <- <- <-. repeat split; try done.
    + intros d Hd. by apply elem_of_nil in Hd.
    + simpl. by rewrite app_nil_r.
  - cbn [partition_dirs] in Hrun.
    apply bind_ok_inv in Hrun as (copy & w1 & Hpol & Hrun).
    rewrite policy_run in Hpol. injection Hpol as Hpol <-.
    apply bind_ok_inv in Hrun as ([cs0 rs0] & w2 & Hrest & Hret).
    apply IH in Hrest as (-> & -> & Hall & Hh & Hf & Hc & Hl).
    assert (Hcopied : copied (heap w) root context d = copy).
    { unfold copied. rewrite Hpol. by destruct copy. }
    simpl in Hh, Hf, Hc, Hl. cbn [List.filter]. rewrite Hcopied.
    destruct copy; injection Hret as <- <- <-; simpl;
      (repeat split; try done;
       [intros x [->|Hx]%elem_of_cons; [by rewrite Hcopied|by apply Hall]
       |by rewrite Hl, <- app_assoc]).
Qed.

(** X12.  When the body of the walk returns, the directory list it
    hands back to [os.walk] is the list it was given with the
    directories the policy accepts taken out: every directory the policy
    rejects is kept, in the original order, and none is added.  The
    policy was asked about each of them, on the heap as it was. *)
Theorem walk_body_keeps_rejected_dirs
        (project_dir : string) (context : loc) (output_dir : string)
        (env : environment) (root : string) (dirs files dirs' : list string)
        (w w' : world) :
  walk_body project_dir context output_dir env root dirs files w
  = (Ok dirs', w') →
  dirs' = List.filter (λ d, negb (copied (heap w) root context d)) dirs ∧
  ∀ d, d ∈ dirs →
       ∃ b, copy_without_render (heap w) (normpath (join root d)) context = Ok b
            ∧ (d ∈ dirs' ↔ b = false).
Proof.
  unfold walk_body. intros Hrun.
  apply bind_ok_inv in Hrun as ([cs rs] & w1 & Hpart & Hrun).
  apply partition_dirs_ok in Hpart as (_ & -> & Hall & _).
  apply bind_ok_inv in Hrun as ([] & w2 & _ & Hrun).
  apply bind_ok_inv in Hrun as ([] & w3 & _ & Hrun).
  apply bind_ok_inv in Hrun as ([] & w4 & _ & Hrun).
  injection Hrun as <- <-. split; [done|].
  intros d Hd. exists (copied (heap w) root context d). split; [by apply Hall|].
  rewrite list_elem_of_In, filter_In, <- list_elem_of_In, negb_true_iff.
  split; [by intros [_ H]|intros H; by split].
Qed.

(* ------------------------------------------------------------------- *)
(** *** The output directory inside the walk                            *)
(* ------------------------------------------------------------------- *)

Lemma for_each_ext {A} (l : list A) (f g : A → M unit) (w : world) :
  (∀ x w0, f x w0 = g x w0) → for_each l f w = for_each l g w.
Proof.
  intros Hfg. revert w. induction l as [|x l IH]; intros w; [done|].
  simpl. unfold bind. rewrite Hfg. destruct (g x w) as [[[]|e] w1]; [|done].
  apply IH.
Qed.

Lemma bind_ext {A B} (c : M A) (k1 k2 : A → M B) (w : world) :
  (∀ a w0, k1 a w0 = k2 a w0) → bind c k1 w = bind c k2 w.
Proof. intros Hk. unfold bind. by destruct (c w) as [[a|e] w1]. Qed.

Lemma walk_ext (fuel : nat)
      (body1 body2 : string → list string → list string → M (list string))
      (top : string) (w : world) :
  (∀ root dirs files w0, body1 root dirs files w0 = body2 root dirs files w0) →
  walk fuel body1 top w = walk fuel body2 top w.
Proof.
  intros Hbody. revert top w. induction fuel as [|fuel IH]; intros top w; [done|].
  simpl. apply bind_ext. intros [[dirs nondirs]|] w0; [|done].
  apply bind_ext. intros _ w1. unfold bind. rewrite Hbody.
  destruct (body2 top dirs nondirs w1) as [[dirs'|e] w2]; [|done].
  apply for_each_ext. intros name w3. apply IH.
Qed.

Lemma render_and_create_dir_absolute (dirname : string) (context : loc)
      (output_dir1 output_dir2 : string) (w : world) :
  (∀ rendered, render_name (heap w) context dirname = Ok rendered →
               isabs rendered = true) →
  render_and_create_dir dirname context output_dir1 w
  = render_and_create_dir dirname context output_dir2 w.
Proof.
  intros Habs. unfold render_and_create_dir, bind at 1 3.
  rewrite render_run.
  destruct (render_name (heap w) context dirname) as [rendered|e] eqn:Hren;
    [|done].
  unfold join. unfold isabs in Habs. by rewrite (Habs rendered eq_refl).
Qed.

(** X13.  Inside the walk the output directory has no effect.  The
    walker renders the whole path of a sub-directory, project directory
    included, and joins the result onto the output directory; the
    project directory is absolute, so with an engine that renders
    absolute names to absolute names the join discards the output
    directory.  Two walks that differ only in that argument are the same
    run. *)
Theorem walk_ignores_output_dir
        (fuel : nat) (project_dir : string) (context : loc)
        (output_dir1 output_dir2 : string) (env : environment)
        (top : string) (w : world) :
  (∀ h c s rendered, render_name h c s = Ok rendered →
                     isabs s = true → isabs rendered = true) →
  isabs project_dir = true →
  walk fuel (walk_body project_dir context output_dir1 env) top w
  = walk fuel (walk_body project_dir context output_dir2 env) top w.
Proof.
  intros Hengine Hpd. apply walk_ext. intros root dirs files w0.
  unfold walk_body. apply bind_ext. intros [cs rs] w1.
  apply bind_ext. intros _ w2. unfold bind at 1 3.
  rewrite (for_each_ext rs _
             (λ d, render_and_create_dir (join3 project_dir root d) context
                     output_dir2 ;;; ret tt)); [done|].
  intros d w3. unfold bind.
  rewrite (render_and_create_dir_absolute _ _ output_dir1 output_dir2); [done|].
  intros rendered Hren. apply (Hengine _ _ _ _ Hren).
  unfold join3. by rewrite !isabs_join, Hpd.
Qed.

(* ------------------------------------------------------------------- *)
(** *** The walk removes nothing                                        *)
(* ------------------------------------------------------------------- *)

Lemma keeps_ret {A} (a : A) : keeps (ret a).
Proof. by intros w r w' [= <- <-]. Qed.

Lemma keeps_raise {A} (e : exn) : keeps (@raise A e).
Proof. by intros w r w' [= <- <-]. Qed.

Lemma keeps_tell (e : event) : keeps (tell e).
Proof. by intros w r w' [= <- <-]. Qed.

Lemma keeps_observe {A} (f : world → outcome A) : keeps (observe f).
Proof. by intros w r w' [= <- <-]. Qed.

Lemma keeps_bind {A B} (c : M A) (k : A → M B) :
  keeps c → (∀ a, keeps (k a)) → keeps (bind c k).
Proof.
  intros Hc Hk w r w' Hrun x Hx.
  apply bind_inv in Hrun as [(a & w1 & Hrun1 & Hrun2)|(e & Hrun1 & _)].
  - eapply Hk; [done|]. by eapply Hc.
  - by eapply Hc.
Qed.

Lemma keeps_for_each {A} (l : list A) (f : A → M unit) :
  (∀ x, keeps (f x)) → keeps (for_each l f).
Proof.
  intros Hf. induction l as [|x l IH]; [apply keeps_ret|].
  simpl. apply keeps_bind; [apply Hf|]. by intros _.
Qed.

Lemma keeps_fs_step {A} (c : M A) :
  (∀ w, (∃ r e, c w = (r, with_event e w))
        ∨ (∃ r e f', c w = (r, with_fs f' (with_event e w))
                     ∧ ∀ k, is_Some (fs w !! k) → is_Some (f' !! k))) →
  keeps c.
Proof.
  intros Hc w r w' Hrun k Hk.
  destruct (Hc w) as [(r0 & e & Heq)|(r0 & e & f' & Heq & Hf)];
    rewrite Heq in Hrun; injection Hrun as <- <-; [done|by apply Hf].
Qed.

Lemma write_keeps (dst : list string) (data : string)
      (f f' : gmap (list string) node) (k : list string) :
  FS.write umask dst data f = Some f' → is_Some (f !! k) → is_Some (f' !! k).
Proof.
  intros (_ & m & -> & _)%write_spec Hk.
  destruct (decide (k = dst)) as [->|Hne].
  - rewrite lookup_insert_eq. by eexists.
  - by rewrite lookup_insert_ne.
Qed.

Lemma chmod_keeps (dst : list string) (m : N)
      (f f' : gmap (list string) node) (k : list string) :
  FS.chmod dst m f = Some f' → is_Some (f !! k) → is_Some (f' !! k).
Proof.
  unfold FS.chmod. destruct dst as [|c dst]; [by intros [= <-]|].
  destruct (f !! (c :: dst)) as [n|]; [|done]. intros [= <-] Hk.
  destruct (decide (k = c :: dst)) as [->|Hne].
  - rewrite lookup_insert_eq. by eexists.
  - by rewrite lookup_insert_ne.
Qed.

Lemma mkdirs_keeps (prefix rest : list string)
      (f f' : gmap (list string) node) (k : list string) :
  FS.mkdirs umask prefix rest f = Some f' → is_Some (f !! k) → is_Some (f' !! k).
Proof.
  intros (_ & Hkeep & _)%mkdirs_spec [n Hn]. exists n. by apply Hkeep.
Qed.

Lemma graft_keeps (src dst : list string) (f base : gmap (list string) node)
      (k : list string) :
  is_Some (base !! k) → is_Some (FS.graft src dst f base !! k).
Proof.
  intros Hk. unfold FS.graft.
  apply (map_fold_weak_ind
           (λ r (m : gmap (list string) node), is_Some (r !! k))); [done|].
  intros i x m r _ IH.
  destruct (FS.strip_prefix src i) as [[|c s]|]; [done| |done].
  destruct (decide (k = dst ++ c :: s)) as [->|Hne].
  - rewrite lookup_insert_eq. by eexists.
  - by rewrite lookup_insert_ne.
Qed.

Lemma copytree_keeps (src dst : list string)
      (f f' : gmap (list string) node) (k : list string) :
  FS.copytree umask src dst f = Some f' → is_Some (f !! k) → is_Some (f' !! k).
Proof.
  unfold FS.copytree.
  destruct (FS.node_at f src) as [[?|m]|]; [done| |done].
  destruct (FS.node_at f dst); [done|].
  case_bool_decide; [done|].
  destruct (FS.mkdirs umask [] (FS.parent dst) f) as [f1|] eqn:Hmk; [|done].
  intros [= <-] Hk. apply graft_keeps.
  destruct (decide (k = dst)) as [->|Hne].
  - rewrite lookup_insert_eq. by eexists.
  - rewrite lookup_insert_ne by done. by eapply mkdirs_keeps.
Qed.

Lemma keeps_copyfile (src dst : string) : keeps (copyfile src dst).
Proof.
  apply keeps_fs_step. intros w. unfold copyfile.
  destruct (FS.node_at (fs w) (key w src)) as [[d m|?]|]; [|left; by eexists _, _..].
  case_bool_decide; [left; by eexists _, _|].
  destruct (FS.write umask (key w dst) d (fs w)) as [f'|] eqn:Hw;
    [|left; by eexists _, _].
  right. eexists _, _, f'. split; [done|]. intros k. exact (write_keeps _ _ _ _ k Hw).
Qed.

Lemma keeps_copymode (src dst : string) : keeps (copymode src dst).
Proof.
  apply keeps_fs_step. intros w. unfold copymode.
  destruct (FS.node_at (fs w) (key w src)) as [n|]; [|left; by eexists _, _].
  destruct (FS.chmod (key w dst) (node_mode n) (fs w)) as [f'|] eqn:Hc;
    [|left; by eexists _, _].
  right. eexists _, _, f'. split; [done|]. intros k. exact (chmod_keeps _ _ _ _ k Hc).
Qed.

Lemma keeps_write_text (dst text : string) : keeps (write_text dst text).
Proof.
  apply keeps_fs_step. intros w. unfold write_text.
  destruct (FS.open_w umask (key w dst) (fs w)) as [f1|] eqn:Hw;
    [|left; by eexists _, _].
  apply open_w_spec in Hw as (_ & m & -> & _).
  assert (Hopen : ∀ k n, is_Some (fs w !! k) →
                         is_Some (<[key w dst := n]> (fs w) !! k)).
  { intros k n Hk. destruct (decide (k = key w dst)) as [->|Hne].
    - rewrite lookup_insert_eq. by eexists.
    - by rewrite lookup_insert_ne. }
  right. destruct (Utf8.has_surrogate text).
  - eexists _, _, _. split; [done|]. intros k. apply Hopen.
  - eexists _, _, _. split; [done|]. rewrite put_opened. intros k. apply Hopen.
Qed.

Lemma keeps_copytree (src dst : string) : keeps (copytree src dst).
Proof.
  apply keeps_fs_step. intros w. unfold copytree.
  destruct (FS.copytree umask (key w src) (key w dst) (fs w)) as [f'|] eqn:Hc;
    [|left; by eexists _, _].
  right. eexists _, _, f'. split; [done|]. intros k. exact (copytree_keeps _ _ _ _ k Hc).
Qed.

Lemma keeps_make_sure_path_exists (p : string) : keeps (make_sure_path_exists p).
Proof.
  apply keeps_fs_step. intros w. unfold make_sure_path_exists.
  destruct (FS.mkdirs umask [] (key w p) (fs w)) as [f'|] eqn:Hm;
    [|left; by eexists _, _].
  right. eexists _, _, f'. split; [done|]. intros k. exact (mkdirs_keeps _ _ _ _ k Hm).
Qed.

Lemma keeps_render (context : loc) (s : string) : keeps (render context s).
Proof. intros w r w' Hrun. rewrite render_run in Hrun. by injection Hrun as <- <-. Qed.

Lemma keeps_policy (path : string) (context : loc) : keeps (policy path context).
Proof. intros w r w' Hrun. rewrite policy_run in Hrun. by injection Hrun as <- <-. Qed.

Lemma keeps_generate_file (project_dir infile : string) (context : loc)
      (env : environment) :
  keeps (generate_file project_dir infile context env).
Proof.
  unfold generate_file. apply keeps_bind; [apply keeps_render|]. intros rendered.
  apply keeps_bind.
  { intros w r w' [-> _]%is_binary_run. done. }
  intros binary. apply keeps_bind; [|intros _; apply keeps_copymode].
  destruct binary; [apply keeps_copyfile|].
  apply keeps_bind; [|intros text; apply keeps_write_text].
  intros w r w' ->%get_template_render_world. done.
Qed.

Lemma keeps_generate_one (project_dir : string) (context : loc)
      (env : environment) (root f : string) :
  keeps (generate_one project_dir context env root f).
Proof.
  unfold generate_one. apply keeps_bind; [apply keeps_policy|].
  intros [|]; [|apply keeps_generate_file].
  apply keeps_bind; [apply keeps_render|]. intros rendered.
  apply keeps_bind; [apply keeps_copyfile|]. intros _. apply keeps_copymode.
Qed.

Lemma keeps_render_and_create_dir (dirname : string) (context : loc)
      (output_dir : string) :
  keeps (render_and_create_dir dirname context output_dir).
Proof.
  unfold render_and_create_dir. apply keeps_bind; [apply keeps_render|].
  intros rendered. apply keeps_bind; [apply keeps_make_sure_path_exists|].
  intros _. apply keeps_ret.
Qed.

Lemma keeps_partition_dirs (root : string) (context : loc) (dirs : list string) :
  keeps (partition_dirs root context dirs).
Proof.
  induction dirs as [|d dirs IH]; [apply keeps_ret|].
  cbn [partition_dirs]. apply keeps_bind; [apply keeps_policy|]. intros copy.
  apply keeps_bind; [apply IH|]. intros [cs rs]. apply keeps_ret.
Qed.

Lemma keeps_walk_body (project_dir : string) (context : loc)
      (output_dir : string) (env : environment)
      (root : string) (dirs files : list string) :
  keeps (walk_body project_dir context output_dir env root dirs files).
Proof.
  unfold walk_body. apply keeps_bind; [apply keeps_partition_dirs|].
  intros [cs rs]. apply keeps_bind.
  { apply keeps_for_each. intros d. apply keeps_copytree. }
  intros _. apply keeps_bind.
  { apply keeps_for_each. intros d.
    apply keeps_bind; [apply keeps_render_and_create_dir|].
    intros _. apply keeps_ret. }
  intros _. apply keeps_bind.
  { apply keeps_for_each. intros f. apply keeps_generate_one. }
  intros _. apply keeps_ret.
Qed.

Lemma keeps_walk (fuel : nat)
      (body : string → list string → list string → M (list string))
      (top : string) :
  (∀ root dirs files, keeps (body root dirs files)) →
  keeps (walk fuel body top).
Proof.
  intros Hbody. revert top. induction fuel as [|fuel IH]; intros top;
    [apply keeps_raise|].
  simpl. apply keeps_bind; [apply keeps_observe|].
  intros [[dirs nondirs]|]; [|apply keeps_ret].
  apply keeps_bind; [apply keeps_tell|]. intros _.
  apply keeps_bind; [apply Hbody|]. intros dirs'.
  apply keeps_for_each. intros name. apply IH.
Qed.

(** X14.  The walk removes nothing: every path that names a file or a
    directory before the walk names one after it, whatever the outcome
    of the walk and however deep it went.  Files can be overwritten and
    permission bits reset, entries are only added. *)
Theorem walk_never_deletes
        (fuel : nat) (project_dir : string) (context : loc)
        (output_dir : string) (env : environment) (top : string)
        (w w' : world) (r : outcome unit) (k : list string) :
  walk fuel (walk_body project_dir context output_dir env) top w = (r, w') →
  is_Some (fs w !! k) → is_Some (fs w' !! k).
Proof.
  intros Hrun. eapply keeps_walk; [|exact Hrun].
  intros root dirs files. apply keeps_walk_body.
Qed.

(* ------------------------------------------------------------------- *)
(** *** Copying a directory onto something that exists                  *)
(* ------------------------------------------------------------------- *)

Lemma copytree_run (src dst : string) (w w' : world) (r : outcome unit) :
  copytree src dst w = (r, w') →
  cwd w' = cwd w ∧
  (∀ k, is_Some (FS.node_at (fs w) k) → is_Some (FS.node_at (fs w') k)) ∧
  (is_Some (FS.node_at (fs w) (key w dst)) → ∃ e, r = Raise e).
Proof.
  unfold copytree.
  destruct (FS.copytree umask (key w src) (key w dst) (fs w)) as [f'|] eqn:Hc;
    intros [= <- <-]; (split; [done|]); split.
  - intros k. destruct k as [|c k]; [done|]. simpl.
    exact (copytree_keeps _ _ _ _ (c :: k) Hc).
  - intros [n Hn]. unfold FS.copytree in Hc. rewrite Hn in Hc.
    by destruct (FS.node_at (fs w) (key w src)) as [[?|?]|].
  - done.
  - eauto.
Qed.

Lemma copy_dirs_refused (project_dir root d : string) (cs : list string)
      (w w' : world) (r : outcome unit) :
  d ∈ cs →
  is_Some (FS.node_at (fs w)
             (key w (normpath (join project_dir (normpath (join root d)))))) →
  for_each cs (copy_dir_verbatim project_dir root) w = (r, w') →
  ∃ e, r = Raise e.
Proof.
  revert w. induction cs as [|x cs IH]; intros w Hin Hdst Hrun.
  - by apply elem_of_nil in Hin.
  - simpl in Hrun.
    apply bind_inv in Hrun as [([] & w1 & Hcopy & Hrun)|(e & _ & ->)]; [|eauto].
    unfold copy_dir_verbatim in Hcopy.
    apply copytree_run in Hcopy as (Hcwd & Hkeep & Hfail).
    apply elem_of_cons in Hin as [->|Hin].
    + by destruct (Hfail Hdst).
    + apply (IH w1); [done| |done].
      rewrite (key_same w1 w) by done. by apply Hkeep.
Qed.

(** X17.  The walk does not overwrite a directory it is told to copy:
    when the policy accepts a sub-directory whose output path already
    names something - a second generation into the same project, say -
    the body of the walk fails, at that directory at the latest. *)
Theorem walk_body_refuses_existing_copy_target
        (project_dir : string) (context : loc) (output_dir : string)
        (env : environment) (root d : string) (dirs files : list string)
        (w w' : world) (r : outcome (list string)) :
  d ∈ dirs →
  copy_without_render (heap w) (normpath (join root d)) context = Ok true →
  is_Some (FS.node_at (fs w)
             (key w (normpath (join project_dir (normpath (join root d)))))) →
  walk_body project_dir context output_dir env root dirs files w = (r, w') →
  ∃ e, r = Raise e.
Proof.
  intros Hin Hpol Hdst Hrun. unfold walk_body in Hrun.
  apply bind_inv in Hrun as [([cs rs] & w1 & Hpart & Hrun)|(e & _ & ->)]; [|eauto].
  apply partition_dirs_ok in Hpart as (-> & _ & _ & _ & Hfs & Hcwd & _).
  apply bind_inv in Hrun as [([] & w2 & Hcopy & _)|(e & _ & ->)]; [|eauto].
  apply (copy_dirs_refused _ _ d) in Hcopy as [e [=]].
  - rewrite list_elem_of_In, filter_In, <- list_elem_of_In. split; [done|].
    unfold copied. by rewrite Hpol.
  - rewrite Hfs, (key_same w1 w) by done. done.
Qed.

(* ------------------------------------------------------------------- *)
(** *** Normalized paths                                                *)
(* ------------------------------------------------------------------- *)

Lemma normal_comps_cons (dots : bool) (c : string) (rest : list string) :
  normal_comps dots (c :: rest)
  = if String.eqb c ".." then dots && normal_comps dots rest
    else negb (String.eqb c "") && negb (String.eqb c ".")
         && negb (Str.contains "/" c) && normal_comps false rest.
Proof. reflexivity. Qed.

Lemma normal_comps_snoc (dots : bool) (acc : list string) (c : string) :
  normal_comps dots acc = true →
  c ≠ "" → c ≠ "." → c ≠ ".." → Str.contains "/" c = false →
  normal_comps dots (acc ++ [c]) = true.
Proof.
  intros Hacc H1%String.eqb_neq H2%String.eqb_neq H3%String.eqb_neq H4.
  revert dots Hacc. induction acc as [|x acc IH]; intros dots Hacc.
  - change ([] ++ [c]) with [c]. rewrite normal_comps_cons.
    by rewrite H1, H2, H3, H4.
  - change ((x :: acc) ++ [c]) with (x :: (acc ++ [c])).
    rewrite normal_comps_cons in *. destruct (String.eqb x "..").
    + apply andb_true_iff in Hacc as [-> Hacc]. by rewrite IH.
    + apply andb_true_iff in Hacc as [-> Hacc]. by rewrite IH.
Qed.

Lemma normal_comps_dots (dots : bool) (acc : list string) :
  normal_comps dots acc = true → last acc = Some ".." →
  dots = true ∧ Forall (λ c, c = "..") acc.
Proof.
  revert dots. induction acc as [|x acc IH]; intros dots Hacc Hlast; [done|].
  rewrite normal_comps_cons in Hacc. rewrite last_cons in Hlast.
  destruct (String.eqb x "..") eqn:Hx.
  - apply String.eqb_eq in Hx as ->.
    apply andb_true_iff in Hacc as [-> Hacc]. split; [done|].
    constructor; [done|]. destruct (last acc) as [y|] eqn:Hl.
    + injection Hlast as ->. by apply (IH true).
    + by apply last_None in Hl as ->.
  - apply andb_true_iff in Hacc as [_ Hacc].
    destruct (last acc) as [y|] eqn:Hl.
    + injection Hlast as ->. by destruct (IH false Hacc eq_refl).
    + injection Hlast as ->. done.
Qed.

Lemma normal_comps_snoc_dots (acc : list string) :
  Forall (λ c, c = "..") acc → normal_comps true (acc ++ [".."]) = true.
Proof. induction 1 as [|x acc Hx _ IH]; [done|]. subst x. simpl. exact IH. Qed.

Lemma normal_comps_removelast (dots : bool) (acc : list string) :
  normal_comps dots acc = true → normal_comps dots (removelast acc) = true.
Proof.
  revert dots. induction acc as [|x acc IH]; intros dots Hacc; [done|].
  destruct acc as [|y acc]; [done|].
  change (removelast (x :: y :: acc)) with (x :: removelast (y :: acc)).
  rewrite normal_comps_cons in *. destruct (String.eqb x "..").
  - apply andb_true_iff in Hacc as [-> Hacc]. by rewrite IH.
  - apply andb_true_iff in Hacc as [-> Hacc]. by rewrite IH.
Qed.

(** The component loop of [normpath] produces a normal list ... *)
Lemma norm_fold_normal (init : nat) (l acc : list string) :
  Forall (λ c, Str.contains "/" c = false) l →
  normal_comps (Nat.eqb init 0) acc = true →
  normal_comps (Nat.eqb init 0) (fold_left (norm_step init) l acc) = true.
Proof.
  intros Hl. revert acc. induction Hl as [|c l Hc _ IH]; intros acc Hacc; [done|].
  simpl. apply IH. unfold norm_step.
  destruct (String.eqb c "" || String.eqb c ".") eqn:Hskip; [done|].
  apply orb_false_elim in Hskip as [H1%String.eqb_neq H2%String.eqb_neq].
  destruct (String.eqb c "..") eqn:Hdd.
  - apply String.eqb_eq in Hdd as ->. simpl.
    destruct (Nat.eqb init 0 && bool_decide (acc = [])) eqn:Hfirst.
    + apply andb_true_iff in Hfirst as [Hi ->%bool_decide_eq_true].
      by rewrite Hi.
    + simpl. destruct (last acc) as [y|] eqn:Hlast;
        [|by apply normal_comps_removelast].
      destruct (String.eqb y "..") eqn:Hy; [|by apply normal_comps_removelast].
      apply String.eqb_eq in Hy as ->.
      destruct (normal_comps_dots _ _ Hacc Hlast) as [Hi Hall].
      rewrite Hi. by apply normal_comps_snoc_dots.
  - apply String.eqb_neq in Hdd. simpl. by apply normal_comps_snoc.
Qed.

(** ... and leaves a normal list as it is. *)
Lemma norm_fold_fixed (init : nat) (l acc : list string) (dots : bool) :
  (dots = true → init = 0 ∧ Forall (λ c, c = "..") acc) →
  normal_comps dots l = true →
  fold_left (norm_step init) l acc = acc ++ l.
Proof.
  revert acc dots. induction l as [|c l IH]; intros acc dots Hdots Hl.
  - by rewrite app_nil_r.
  - rewrite normal_comps_cons in Hl. simpl.
    assert (Hstep : norm_step init acc c = acc ++ [c]
                    ∧ ∃ dots', normal_comps dots' l = true
                               ∧ (dots' = true →
                                  init = 0 ∧ Forall (λ c, c = "..") (acc ++ [c]))).
    { unfold norm_step. destruct (String.eqb c "..") eqn:Hdd.
      - apply String.eqb_eq in Hdd as ->.
        apply andb_true_iff in Hl as [-> Hl].
        destruct (Hdots eq_refl) as [-> Hall]. split.
        + simpl. destruct acc as [|x acc]; [done|].
          rewrite bool_decide_eq_false_2 by done. simpl.
          destruct (last (x :: acc)) as [y|] eqn:Hlast.
          * apply last_Some in Hlast as [l' Hl']. rewrite Hl' in Hall.
            apply Forall_app in Hall as [_ Hy]. apply Forall_inv in Hy as ->.
            done.
          * by apply last_None in Hlast.
        + exists true. split; [done|]. intros _. split; [done|].
          apply Forall_app. split; [done|]. by constructor.
      - apply andb_true_iff in Hl as [Hc Hl].
        apply andb_true_iff in Hc as [Hc _].
        apply andb_true_iff in Hc as [H1%negb_true_iff H2%negb_true_iff].
        rewrite H1, H2. simpl. split; [done|]. exists false. by split. }
    destruct Hstep as [-> (dots' & Hl' & Hdots')].
    rewrite (IH _ dots' Hdots' Hl'). by rewrite <- app_assoc.
Qed.

Lemma normal_comps_head (dots : bool) (x : string) (l : list string) :
  normal_comps dots (x :: l) = true →
  ∃ c x', x = String c x' ∧ Ascii.eqb "/" c = false
          ∧ Forall (λ c, Str.contains "/" c = false) (x :: l).
Proof.
  intros Hn.
  assert (Hall : ∀ d l0, normal_comps d l0 = true →
                         Forall (λ c, Str.contains "/" c = false) l0).
  { clear. intros d l0. revert d. induction l0 as [|y l0 IH]; intros d Hn; [done|].
    rewrite normal_comps_cons in Hn. destruct (String.eqb y "..") eqn:Hy.
    - apply String.eqb_eq in Hy as ->.
      apply andb_true_iff in Hn as [_ Hn]. constructor; [done|by apply (IH d)].
    - apply andb_true_iff in Hn as [Hc Hn].
      apply andb_true_iff in Hc as [_ Hc%negb_true_iff].
      constructor; [done|by apply (IH false)]. }
  pose proof (Hall _ _ Hn) as Hns. pose proof Hns as Hx%Forall_inv.
  destruct x as [|c x'].
  - rewrite normal_comps_cons in Hn. simpl in Hn. done.
  - exists c, x'. split; [done|]. split; [|done].
    rewrite contains_slash_cons in Hx. apply orb_false_elim in Hx as [Hc _].
    unfold Str.is_slash, Str.slash in Hc. by rewrite Ascii.eqb_sym.
Qed.

Lemma split_slashes (n : nat) (s : string) :
  Str.split_slash (slashes n +:+ s) = replicate n "" ++ Str.split_slash s.
Proof.
  induction n as [|n IH]; [done|].
  change (slashes (S n) +:+ s) with (String Str.slash (slashes n +:+ s)).
  change (Str.split_slash (String Str.slash (slashes n +:+ s)))
    with ("" :: Str.split_slash (slashes n +:+ s)).
  by rewrite IH.
Qed.

Lemma norm_fold_empties (init n : nat) (acc : list string) :
  fold_left (norm_step init) (replicate n "") acc = acc.
Proof. induction n as [|n IH]; [done|]. exact IH. Qed.

Lemma initial_slashes_cases (p : string) :
  initial_slashes p = 0 ∨ initial_slashes p = 1 ∨ initial_slashes p = 2.
Proof.
  unfold initial_slashes. destruct (Str.startswith "/" p); [|by left].
  destruct (Str.startswith "//" p && negb (Str.startswith "///" p)); auto.
Qed.

Lemma initial_slashes_rebuilt (init : nat) (c : ascii) (s : string) :
  init = 0 ∨ init = 1 ∨ init = 2 →
  Ascii.eqb "/" c = false →
  initial_slashes (slashes init +:+ String c s) = init.
Proof.
  intros Hinit Hc. unfold initial_slashes.
  destruct Hinit as [-> | [-> | ->]].
  - change (slashes 0 +:+ String c s) with (String c s).
    rewrite startswith_cons, Hc. done.
  - change (slashes 1 +:+ String c s) with (String "/" (String c s)).
    rewrite !startswith_cons, Hc. done.
  - change (slashes 2 +:+ String c s) with (String "/" (String "/" (String c s))).
    rewrite !startswith_cons, Hc. done.
Qed.

(** What [normpath] returns, it returns again. *)
Lemma normpath_idempotent (p : string) : normpath (normpath p) = normpath p.
Proof.
  remember (normpath p) as q eqn:Hq. unfold normpath in Hq.
  destruct (String.eqb p ""); [by subst q|]. cbv zeta in Hq.
  set (init := initial_slashes p) in Hq.
  set (comps := norm_comps init (Str.split_slash p)) in Hq.
  assert (Hnormal : normal_comps (Nat.eqb init 0) comps = true).
  { apply norm_fold_normal; [apply split_slash_pieces|done]. }
  pose proof (initial_slashes_cases p) as Hinit. fold init in Hinit.
  clearbody comps init.
  destruct comps as [|x l].
  - subst q. destruct Hinit as [-> | [-> | ->]]; reflexivity.
  - destruct (normal_comps_head _ _ _ Hnormal) as (c & x' & -> & Hc & Hns).
    assert (Hjoin : ∃ s, Str.join_slash (String c x' :: l) = String c s).
    { destruct l as [|y l]; [by eexists|]. rewrite join_slash_cons, sapp_cons.
      by eexists. }
    destruct Hjoin as [s Hs].
    assert (Hne : slashes init +:+ Str.join_slash (String c x' :: l) ≠ "").
    { rewrite Hs. by destruct Hinit as [-> | [-> | ->]]. }
    apply String.eqb_neq in Hne. rewrite Hne in Hq. subst q.
    assert (Hsame : initial_slashes
                      (slashes init +:+ Str.join_slash (String c x' :: l)) = init).
    { rewrite Hs. by apply initial_slashes_rebuilt. }
    unfold normpath. rewrite Hne. cbv zeta. rewrite !Hsame.
    rewrite split_slashes, split_join_slash by done.
    unfold norm_comps. rewrite fold_left_app, norm_fold_empties.
    rewrite (norm_fold_fixed init _ [] (Nat.eqb init 0)); [| |done].
    + rewrite app_nil_l. by rewrite Hne.
    + intros Hi%Nat.eqb_eq. done.
Qed.

(** X15.  The path [render_and_create_dir] returns is in normal form:
    normalizing it again gives the same string.  It is not empty, is
    absolute exactly when the output directory or the rendered name is
    absolute, and the directory it names exists when the call
    returns. *)
Theorem render_and_create_dir_returns_normal_path
        (dirname : string) (context : loc) (output_dir : string)
        (w w' : world) (dir : string) :
  render_and_create_dir dirname context output_dir w = (Ok dir, w') →
  normpath dir = dir ∧ dir ≠ "" ∧
  FS.isdir (fs w') (key w dir) = true ∧
  ∃ rendered, render_name (heap w) context dirname = Ok rendered
              ∧ isabs dir = isabs output_dir || isabs rendered.
Proof.
  unfold render_and_create_dir. intros Hrun.
  apply bind_ok_inv in Hrun as (rendered & w1 & Hren & Hrun).
  rewrite render_run in Hren. injection Hren as Hren <-.
  apply bind_ok_inv in Hrun as ([] & w2 & Hmk & Hret).
  injection Hret as <- <-.
  split; [apply normpath_idempotent|]. split.
  { unfold normpath. destruct (String.eqb (join output_dir rendered) "");
      [done|]. cbv zeta.
    match goal with |- (if String.eqb ?q "" then _ else _) ≠ _ =>
      destruct (String.eqb q "") eqn:Hq end; [done|].
    by apply String.eqb_neq in Hq. }
  split.
  { unfold make_sure_path_exists in Hmk.
    change (key (with_event _ w)) with (key w) in Hmk.
    change (fs (with_event _ w)) with (fs w) in Hmk.
    destruct (FS.mkdirs umask [] (key w (normpath (join output_dir rendered)))
                (fs w)) as [f'|] eqn:Hf; [|done].
    injection Hmk as <-. by apply mkdirs_isdir in Hf. }
  exists rendered. split; [done|]. by rewrite isabs_normpath, isabs_join.
Qed.

(* ------------------------------------------------------------------- *)
(** *** The project directory the hooks are given                       *)
(* ------------------------------------------------------------------- *)

Lemma isabs_abspath (cwd0 p : string) :
  isabs cwd0 = true → isabs (abspath cwd0 p) = true.
Proof.
  intros Hcwd. unfold abspath. destruct (isabs p) eqn:Hp.
  - by rewrite isabs_normpath.
  - by rewrite isabs_normpath, isabs_join, Hcwd.
Qed.

Lemma abspath_normal (cwd0 p : string) :
  normpath (abspath cwd0 p) = abspath cwd0 p.
Proof. unfold abspath. destruct (isabs p); apply normpath_idempotent. Qed.

(** Every hook of a run is given [abspath] of some path, taken from
    the working directory the run started in. *)
Lemma generate_files_hook_dirs (fuel : nat) (repo_dir : string)
      (context : option loc) (output_dir : string) (w w' : world)
      (r : outcome unit) :
  generate_files fuel repo_dir context output_dir w = (r, w') →
  ∃ delta, log w' = log w ++ delta ∧
           ∀ name pd seen, EvHook name pd seen ∈ delta →
                           ∃ dir, pd = abspath (cwd w) dir.
Proof.
  set (Pev := λ e : event, ∀ name pd seen, e = EvHook name pd seen →
                                           ∃ dir, pd = abspath (cwd w) dir).
  set (I := λ w1 : world,
         cwd w1 = cwd w ∧ ∃ d, log w1 = log w ++ d ∧ Forall Pev d).
  intros Hrun.
  enough (HI : I w').
  { destruct HI as (_ & d & Hlog & Hall). exists d. split; [done|].
    intros name pd seen Hin. rewrite Forall_forall in Hall.
    by apply (Hall _ Hin name pd seen). }
  assert (Hstep : ∀ wa wb d', I wa → cwd wb = cwd wa → log wb = log wa ++ d' →
                              Forall Pev d' → I wb).
  { intros wa wb d' (Hc & d & Hl & Hd) Hcb Hlb Hd'. split; [congruence|].
    exists (d ++ d'). split; [by rewrite Hlb, Hl, app_assoc|].
    by apply Forall_app. }
  assert (Hsame : ∀ wa wb, I wa → cwd wb = cwd wa → log wb = log wa → I wb).
  { intros wa wb Ha Hc Hl. apply (Hstep wa wb [] Ha Hc); [|done].
    by rewrite app_nil_r. }
  assert (Hquiet : ∀ l, Forall (λ e, is_hook e = false) l → Forall Pev l).
  { intros l Hl. eapply Forall_impl; [exact Hl|].
    intros e He name pd seen ->. done. }
  assert (H0 : I w).
  { split; [done|]. exists []. by rewrite app_nil_r. }
  unfold generate_files in Hrun.
  apply bind_inv in Hrun as [(template_dir & w1 & Hfind & Hrun)|(e & Hfind & _)];
    unfold find_template, observe in Hfind; injection Hfind as _ <-; [|done].
  apply bind_inv in Hrun as [(c & w2 & Hctx & Hrun)|(e & Hctx & _)];
    apply context_or_empty_frame in Hctx as (_ & Hcwd2 & Hlog2);
    pose proof (Hsame _ _ H0 Hcwd2 Hlog2) as H2; [|done].
  apply bind_inv in Hrun as [(templated & w3 & Hens & Hrun)|(e & Hens & _)];
    unfold observe in Hens; injection Hens as _ <-; [|done].
  apply bind_inv in Hrun as [([] & w3 & Hns & Hrun)|(e & Hns & _)];
    apply ensure_namespace_frame in Hns as (_ & Hcwd3 & Hlog3);
    pose proof (Hsame _ _ H2 Hcwd3 Hlog3) as H3; [|done].
  assert (Hrcd : ∀ w4 rr,
            render_and_create_dir (basename template_dir) c output_dir w3
            = (rr, w4) → I w4).
  { intros w4 rr (Hc4 & Hcase)%render_and_create_dir_log.
    destruct Hcase as [(e' & _ & Hl)|[(e' & k & _ & Hl)|(rendered & _ & Hl & _)]];
      apply (Hstep _ _ _ H3 Hc4 Hl), Hquiet; by repeat constructor. }
  apply bind_inv in Hrun as [(pd0 & w4 & Hrun0 & Hrun)|(e & Hrun0 & _)];
    apply Hrcd in Hrun0 as H4; [|done].
  apply bind_inv in Hrun as [(pd & w5 & Habs & Hrun)|(e & Habs & _)];
    unfold observe in Habs; [|done]. injection Habs as <- <-.
  assert (Hhook : ∀ name wa wb rr,
            I wa →
            work_in repo_dir (run_hook name (abspath (cwd w4) pd0) c) wa
            = (rr, wb) → I wb).
  { intros name wa wb rr Ha (Hcb & Hcase)%hook_log.
    destruct Hcase as [(e' & _ & Hl & _)|(wh & Hl & _)].
    - by apply (Hsame wa).
    - apply (Hstep _ _ _ Ha Hcb Hl). constructor; [|done].
      intros name' pd' seen' [= _ <- _]. exists pd0.
      by rewrite (proj1 H4). }
  apply bind_inv in Hrun as [([] & w5 & Hpre & Hrun)|(e & Hpre & _)];
    apply (Hhook _ _ _ _ H4) in Hpre as H5; [|done].
  assert (Hwalked : ∀ w6 rr,
            work_in template_dir
              (walk fuel (walk_body (abspath (cwd w4) pd0) c output_dir
                            (Environment true ".")) ".") w5 = (rr, w6) →
            I w6).
  { intros w6 rr (Hc6 & Hcase)%walk_log.
    destruct Hcase as [(e' & _ & Hl & _)
                      |(ws & we & walked & _ & Hls & Hl & _ & Hle & Hnh)].
    - by apply (Hsame w5).
    - apply (Hstep _ _ walked H5 Hc6); [congruence|by apply Hquiet]. }
  apply bind_inv in Hrun as [([] & w6 & Hwalk & Hrun)|(e & Hwalk & _)];
    apply Hwalked in Hwalk as H6; [|done].
  by apply (Hhook _ _ _ _ H6) in Hrun.
Qed.

(** X16.  In every run of [generate_files] started in an absolute
    working directory, each hook that is invoked is given an absolute
    project directory in normal form, whatever the output directory
    argument was (relative, with [..], with doubled slashes). *)
Theorem hooks_get_absolute_project_dir
        (fuel : nat) (repo_dir : string) (context : option loc)
        (output_dir : string) (w w' : world) (r : outcome unit) :
  generate_files fuel repo_dir context output_dir w = (r, w') →
  isabs (cwd w) = true →
  ∃ delta, log w' = log w ++ delta ∧
           ∀ name pd seen, EvHook name pd seen ∈ delta →
                           isabs pd = true ∧ normpath pd = pd.
Proof.
  intros (delta & Hlog & Hall)%generate_files_hook_dirs Hcwd.
  exists delta. split; [done|]. intros name pd seen Hin.
  destruct (Hall _ _ _ Hin) as [dir ->].
  split; [by apply isabs_abspath|apply abspath_normal].
Qed.

(* ------------------------------------------------------------------- *)
(** *** The policy tests of one level of the walk                       *)
(* ------------------------------------------------------------------- *)

(** What a computation logs besides policy tests. *)
Lemma quiet_log {A} (c : M A) (w w' : world) (r : outcome A) :
  emits silent (λ _, True) w c →
  c w = (r, w') →
  ∃ d, log w' = log w ++ d ∧ omap policy_path d = []
       ∧ omap walk_triple d = [].
Proof.
  intros Hc Hrun.
  destruct (Hc w r w' eq_refl eq_refl Hrun) as (_ & _ & (d & Hlog & Hd) & _).
  exists d. split; [done|]. clear Hlog.
  induction Hd as [|e d [He1 He2] _ [IH1 IH2]]; [done|]. simpl.
  by rewrite He1, He2.
Qed.

Lemma quiet_copy_pair (src dst : string) (w0 : world) :
  emits silent (λ _, True) w0
        (copyfile src dst ;;; copymode src dst).
Proof.
  eapply emits_bind.
  - eapply emits_fs_step; [apply copyfile_step|by split].
  - intros _ _. eapply emits_fs_step; [apply copymode_step|by split].
Qed.

Lemma quiet_generate_file (project_dir infile : string) (context : loc)
      (env : environment) (w0 : world) :
  emits silent (λ _, True) w0
        (generate_file project_dir infile context env).
Proof.
  unfold generate_file. eapply emits_bind; [by apply emits_render; split|].
  intros rendered _. eapply emits_bind; [apply emits_is_binary|].
  intros binary _. eapply emits_bind.
  - destruct binary.
    + eapply emits_fs_step; [apply copyfile_step|by split].
    + eapply emits_bind; [by apply emits_get_template; split|].
      intros text _. eapply emits_fs_step; [apply write_text_step|by split].
  - intros _ _. eapply emits_fs_step; [apply copymode_step|by split].
Qed.

Lemma quiet_render_and_create_dir (dirname : string) (context : loc)
      (output_dir : string) (w0 : world) :
  emits silent (λ _, True) w0
        (render_and_create_dir dirname context output_dir ;;; ret tt).
Proof.
  eapply (emits_bind _ (λ _, True)); [|intros _ _; by apply emits_ret].
  unfold render_and_create_dir.
  eapply emits_bind; [by apply emits_render; split|].
  intros rendered _. eapply emits_bind.
  - eapply emits_fs_step; [apply make_sure_path_exists_step|by split].
  - intros _ _. by apply emits_ret.
Qed.

Lemma quiet_copy_dir_verbatim (project_dir root d : string) (w0 : world) :
  emits silent (λ _, True) w0
        (copy_dir_verbatim project_dir root d).
Proof.
  unfold copy_dir_verbatim. eapply emits_fs_step; [apply copytree_step|by split].
Qed.

(** *** Composing what is put to the policy *)

Lemma tests_ret {A} (a : A) : tests [] (ret a).
Proof.
  intros w r w' [= <- <-]. exists []. rewrite app_nil_r.
  repeat split; try done.
Qed.

Lemma tests_quiet {A} (c : M A) :
  (∀ w0, emits silent (λ _, True) w0 c) → tests [] c.
Proof.
  intros Hc w r w' Hrun.
  destruct (quiet_log c w w' r (Hc w) Hrun) as (d & Hlog & Hp & Ht).
  exists d. rewrite Hp. repeat split; try done.
Qed.

Lemma tests_policy (path : string) (context : loc) :
  tests [path] (policy path context).
Proof.
  intros w r w' Hrun. rewrite policy_run in Hrun. injection Hrun as _ <-.
  exists [EvPolicy path]. repeat split; try done.
Qed.

Lemma tests_bind {A B} (E1 E2 : list string) (c : M A) (k : A → M B) :
  tests E1 c → (∀ a, tests E2 (k a)) → tests (E1 ++ E2) (bind c k).
Proof.
  intros Hc Hk w r w' Hrun.
  apply bind_inv in Hrun as [(a & w1 & Hrun1 & Hrun2)|(e & Hrun1 & ->)].
  - destruct (Hc _ _ _ Hrun1) as (d1 & Hl1 & Ht1 & _ & Hp1).
    destruct (Hk a _ _ _ Hrun2) as (d2 & Hl2 & Ht2 & Hpre2 & Hp2).
    exists (d1 ++ d2). rewrite !omap_app, Ht1, Ht2, (Hp1 a eq_refl).
    split; [by rewrite Hl2, Hl1, app_assoc|]. split; [done|].
    split; [by apply prefix_app|]. intros b Hb. by rewrite (Hp2 b Hb).
  - destruct (Hc _ _ _ Hrun1) as (d1 & Hl1 & Ht1 & Hpre1 & _).
    exists d1. split; [done|]. split; [done|].
    split; [by apply prefix_app_r|]. by intros b [=].
Qed.

Lemma tests_eq {A} (E E' : list string) (c : M A) :
  E = E' → tests E c → tests E' c.
Proof. by intros ->. Qed.

Lemma tests_for_each {A} (l : list A) (f : A → M unit) (g : A → list string) :
  (∀ x, tests (g x) (f x)) → tests (concat (g <$> l)) (for_each l f).
Proof.
  intros Hf. induction l as [|x l IH]; [apply tests_ret|].
  rewrite fmap_cons. cbn [concat for_each].
  apply tests_bind; [apply Hf|]. by intros _.
Qed.

Lemma concat_singletons {A B} (g : A → B) (l : list A) :
  concat ((λ x, [g x]) <$> l) = g <$> l.
Proof.
  induction l as [|x l IH]; [done|].
  rewrite !fmap_cons. cbn [concat]. by rewrite IH.
Qed.

Lemma concat_nils {A B} (l : list A) :
  concat ((λ _, @nil B) <$> l) = [].
Proof. by induction l. Qed.

Lemma tests_generate_one (project_dir : string) (context : loc)
      (env : environment) (root f : string) :
  tests [normpath (join root f)]
        (generate_one project_dir context env root f).
Proof.
  unfold generate_one.
  apply (tests_eq ([normpath (join root f)] ++ [])); [done|].
  apply tests_bind; [apply tests_policy|].
  intros [|]; [|apply tests_quiet; intros w0; apply quiet_generate_file].
  apply tests_quiet. intros w0.
  eapply emits_bind; [by apply emits_render; split|].
  intros rendered _. apply quiet_copy_pair.
Qed.

Lemma tests_partition_dirs (root : string) (context : loc) (dirs : list string) :
  tests ((λ name, normpath (join root name)) <$> dirs)
        (partition_dirs root context dirs).
Proof.
  induction dirs as [|d dirs IH]; [apply tests_ret|].
  rewrite fmap_cons. cbn [partition_dirs].
  apply (tests_eq ([normpath (join root d)]
                   ++ (((λ name, normpath (join root name)) <$> dirs) ++ [])));
    [by rewrite app_nil_r|].
  apply tests_bind; [apply tests_policy|]. intros copy.
  apply tests_bind; [apply IH|]. intros [cs rs]. apply tests_ret.
Qed.

(** One level of the walk puts to the policy each sub-directory, then
    each file, and nothing else. *)
Lemma tests_walk_body (project_dir : string) (context : loc)
      (output_dir : string) (env : environment)
      (root : string) (dirs files : list string) :
  tests (level_paths (root, dirs, files))
        (walk_body project_dir context output_dir env root dirs files).
Proof.
  unfold walk_body, level_paths. simpl. rewrite fmap_app.
  apply tests_bind; [apply tests_partition_dirs|]. intros [cs rs].
  apply (tests_eq (concat ((λ _, []) <$> cs)
                   ++ (concat ((λ _, []) <$> rs)
                       ++ (concat ((λ f, [normpath (join root f)]) <$> files)
                           ++ [])))).
  { by rewrite !concat_nils, concat_singletons, app_nil_r. }
  apply tests_bind.
  { apply tests_for_each. intros d. apply tests_quiet. intros w0.
    apply quiet_copy_dir_verbatim. }
  intros _. apply tests_bind.
  { apply tests_for_each. intros d. apply tests_quiet. intros w0.
    apply quiet_render_and_create_dir. }
  intros _. apply tests_bind.
  { apply tests_for_each. intros f. apply tests_generate_one. }
  intros _. apply tests_ret.
Qed.

(** X18.  When the body of the walk returns for a directory, the policy
    has been asked exactly once about every entry of that directory:
    first about each sub-directory, in the order listed, then about
    each file, in the order listed, always with the normalized join of
    the directory and the entry name - and about nothing else. *)
Theorem walk_body_tests_each_entry_once
        (project_dir : string) (context : loc) (output_dir : string)
        (env : environment) (root : string) (dirs files dirs' : list string)
        (w w' : world) :
  walk_body project_dir context output_dir env root dirs files w
  = (Ok dirs', w') →
  ∃ delta,
    log w' = log w ++ delta ∧
    omap policy_path delta
    = ((λ name, normpath (join root name)) <$> dirs)
      ++ ((λ name, normpath (join root name)) <$> files).
Proof.
  intros Hrun.
  destruct (tests_walk_body _ _ _ _ _ _ _ _ _ _ Hrun) as (d & Hlog & _ & _ & Hp).
  exists d. split; [done|]. rewrite (Hp dirs' eq_refl).
  unfold level_paths. simpl. by rewrite fmap_app.
Qed.

(* ------------------------------------------------------------------- *)
(** *** What the whole walk puts to the policy                          *)
(* ------------------------------------------------------------------- *)

Lemma expected_tests_app (d1 d2 : list event) :
  expected_tests (d1 ++ d2) = expected_tests d1 ++ expected_tests d2.
Proof. unfold expected_tests. by rewrite omap_app, fmap_app, concat_app. Qed.

Lemma expected_tests_silent (d : list event) :
  omap walk_triple d = [] → expected_tests d = [].
Proof. unfold expected_tests. by intros ->. Qed.

Lemma walks_ret : walks (ret tt).
Proof.
  intros w r w' [= <- <-]. exists []. rewrite app_nil_r.
  split; [done|]. split; [apply prefix_nil|done].
Qed.

Lemma walks_for_each {A} (l : list A) (f : A → M unit) :
  (∀ x, walks (f x)) → walks (for_each l f).
Proof.
  intros Hf. induction l as [|x l IH]; [apply walks_ret|].
  intros w r w' Hrun. simpl in Hrun.
  apply bind_inv in Hrun as [([] & w1 & Hrun1 & Hrun2)|(e & Hrun1 & ->)].
  - destruct (Hf x _ _ _ Hrun1) as (d1 & Hl1 & _ & Hp1).
    destruct (IH _ _ _ Hrun2) as (d2 & Hl2 & Hpre2 & Hp2).
    exists (d1 ++ d2). rewrite omap_app, expected_tests_app, (Hp1 eq_refl).
    split; [by rewrite Hl2, Hl1, app_assoc|].
    split; [by apply prefix_app|]. intros Hr. by rewrite (Hp2 Hr).
  - destruct (Hf x _ _ _ Hrun1) as (d1 & Hl1 & Hpre1 & _).
    exists d1. split; [done|]. split; [done|]. by intros [=].
Qed.

(** The walk asks about the entries of every triple it is handed, level
    by level: sub-directories first, then files, then it goes down. *)
Lemma walks_walk (fuel : nat)
      (body : string → list string → list string → M (list string))
      (top : string) :
  (∀ root dirs files,
      tests (level_paths (root, dirs, files)) (body root dirs files)) →
  walks (walk fuel body top).
Proof.
  intros Hbody. revert top. induction fuel as [|fuel IH]; intros top.
  { intros w r w' [= <- <-]. exists []. rewrite app_nil_r.
    split; [done|]. split; [apply prefix_nil|done]. }
  intros w r w' Hrun. simpl in Hrun.
  apply bind_inv in Hrun as [(names & w0 & Hlist & Hrun)|(e & Hlist & _)];
    unfold observe in Hlist; [|done]. injection Hlist as Hlist <-.
  destruct names as [[dirs files]|]; [|by apply walks_ret].
  apply bind_inv in Hrun as [([] & w1 & Htell & Hrun)|(e & Htell & _)];
    unfold tell in Htell; [|done]. injection Htell as <-.
  set (t := EvWalk top dirs files) in *.
  assert (Ht : expected_tests [t] = level_paths (top, dirs, files)).
  { unfold expected_tests. simpl. apply app_nil_r. }
  apply bind_inv in Hrun as [(dirs' & w2 & Hrun1 & Hrun2)|(e & Hrun1 & ->)].
  - destruct (Hbody _ _ _ _ _ _ Hrun1) as (d1 & Hl1 & Ht1 & _ & Hp1).
    assert (Hrec : walks (for_each dirs' (λ name, walk fuel body (join top name)))).
    { apply walks_for_each. intros name. apply IH. }
    destruct (Hrec _ _ _ Hrun2) as (d2 & Hl2 & Hpre2 & Hp2).
    exists ([t] ++ d1 ++ d2).
    rewrite !omap_app, !expected_tests_app, Ht, (expected_tests_silent d1 Ht1).
    rewrite (Hp1 dirs' eq_refl). simpl.
    split; [by rewrite Hl2, Hl1; simpl; rewrite <- !app_assoc|].
    split; [by apply prefix_app|]. intros Hr. by rewrite (Hp2 Hr).
  - destruct (Hbody _ _ _ _ _ _ Hrun1) as (d1 & Hl1 & Ht1 & Hpre1 & _).
    exists ([t] ++ d1).
    rewrite !omap_app, !expected_tests_app, Ht, (expected_tests_silent d1 Ht1).
    simpl. rewrite app_nil_r.
    split; [by rewrite Hl1; simpl; rewrite <- !app_assoc|].
    split; [done|]. by intros [=].
Qed.

Lemma elem_of_expected_tests (path : string) (d : list event) :
  path ∈ expected_tests d →
  ∃ root dirs files name,
    EvWalk root dirs files ∈ d ∧ name ∈ dirs ++ files
    ∧ path = normpath (join root name).
Proof.
  unfold expected_tests.
  rewrite list_elem_of_In, in_concat. intros (l & Hl & Hin).
  apply list_elem_of_In in Hl. apply list_elem_of_In in Hin.
  apply list_elem_of_fmap in Hl as ([[root dirs] files] & -> & Ht).
  apply list_elem_of_omap in Ht as (e & He & Hte).
  destruct e; try done. injection Hte as -> -> ->.
  unfold level_paths in Hin. simpl in Hin.
  apply list_elem_of_fmap in Hin as (name & -> & Hname).
  by exists root, dirs, files, name.
Qed.

Lemma star_bin_at_any_depth (comps : list string) (stem : string) :
  Fnmatch.fnmatch (Str.join_slash (comps ++ [stem +:+ ".bin"])) "*.bin"
  = Some true.
Proof.
  destruct comps as [|c comps].
  - apply fnmatch_star_bin.
  - rewrite join_slash_snoc by done.
    change (String Str.slash (stem +:+ ".bin"))
      with (String Str.slash stem +:+ ".bin").
    rewrite <- sapp_assoc. apply fnmatch_star_bin.
Qed.

(** C10.  Take a walk of the template, from its root, whatever the
    depth bound and however it ends.  The strings put to the policy are,
    in order, what the triples [os.walk] yielded call for: for each
    triple, the normalized join of its root with each of its
    sub-directories, then with each of its files - a prefix of that when
    the walk fails, all of it when the walk returns, and nothing else.
    Every root yielded is [./a/.../b] for plain names [a ... b] and every
    entry name is plain, so that the string for an entry is
    [a/.../b/name]: its path below the template root, slash-separated,
    with no leading [./].  Matching is by [fnmatch], whose star runs
    across slashes: under a setting that lists [*.bin], the policy says
    yes to a name ending in [.bin] at any depth. *)
Theorem walker_tests_relative_paths
        (fuel : nat) (project_dir : string) (context : loc)
        (output_dir : string) (env : environment) (w : world)
        (r : outcome unit) (w' : world) :
  walk fuel (walk_body project_dir context output_dir env) "." w = (r, w') →
  ∃ delta,
    log w' = log w ++ delta ∧
    omap policy_path delta `prefix_of` expected_tests delta ∧
    (r = Ok tt → omap policy_path delta = expected_tests delta) ∧
    (∀ root dirs files name,
        EvWalk root dirs files ∈ delta → name ∈ dirs ++ files →
        ∃ comps,
          root = walk_root comps ∧
          Forall (λ c, FS.plain c = true) (comps ++ [name]) ∧
          normpath (join root name) = Str.join_slash (comps ++ [name]) ∧
          Str.split_slash (normpath (join root name)) = comps ++ [name]) ∧
    (∀ path,
        EvPolicy path ∈ delta →
        ∃ comps dirs files name,
          EvWalk (walk_root comps) dirs files ∈ delta ∧
          name ∈ dirs ++ files ∧
          path = normpath (join (walk_root comps) name) ∧
          path = Str.join_slash (comps ++ [name]) ∧
          Str.split_slash path = comps ++ [name]) ∧
    (∀ pats,
        setting_of (heap w) context (Some pats) →
        Forall well_formed pats → "*.bin" ∈ pats →
        ∀ comps stem,
          copy_without_render (heap w)
            (Str.join_slash (comps ++ [stem +:+ ".bin"])) context = Ok true).
Proof.
  intros Hrun.
  destruct (walks_walk fuel _ "." (tests_walk_body _ _ _ _) _ _ _ Hrun)
    as (delta & Hlog & Hpre & Hall).
  pose proof Hrun as (_ & _ & delta' & Hlog' & Hev)%walk_run_log.
  assert (delta' = delta) as -> by (rewrite Hlog in Hlog'; by apply app_inv_head in Hlog').
  rewrite Forall_forall in Hev.
  assert (Hroots : ∀ root dirs files name,
             EvWalk root dirs files ∈ delta → name ∈ dirs ++ files →
             ∃ comps,
               root = walk_root comps ∧
               Forall (λ c, FS.plain c = true) (comps ++ [name]) ∧
               normpath (join root name) = Str.join_slash (comps ++ [name]) ∧
               Str.split_slash (normpath (join root name)) = comps ++ [name]).
  { intros root dirs files name Hin Hname.
    apply Hev in Hin as [(comps & Hv & ->) Hplain]. simpl in Hplain.
    rewrite Forall_forall in Hplain. apply Hplain in Hname.
    apply visited_plain in Hv.
    assert (Hallp : Forall (λ c, FS.plain c = true) (comps ++ [name])).
    { apply Forall_app. split; [done|]. by constructor. }
    exists comps. split; [done|]. split; [done|].
    rewrite normpath_walk_root by done. split; [done|].
    apply split_join_slash; [by destruct comps|].
    eapply Forall_impl; [exact Hallp|]. intros c Hc.
    by apply plain_inv in Hc as (_ & _ & _ & ?). }
  exists delta. split; [done|]. split; [done|]. split; [done|].
  split; [done|]. split.
  - intros path Hin.
    assert (Hp : path ∈ omap policy_path delta).
    { apply list_elem_of_omap. by exists (EvPolicy path). }
    apply (elem_of_prefix _ _ _ Hp) in Hpre.
    apply elem_of_expected_tests in Hpre
      as (root & dirs & files & name & Hw & Hname & ->).
    destruct (Hroots _ _ _ _ Hw Hname) as (comps & -> & _ & Hjoin & Hsplit).
    by exists comps, dirs, files, name.
  - intros pats Hs Hwf Hbin comps stem.
    inversion Hs as [| |d r0 ns pats' Hd Hr Hns Hset]; subst.
    destruct (first_match_patterns
                (Str.join_slash (comps ++ [stem +:+ ".bin"])) pats Hwf)
      as (b & Hb & Hiff).
    unfold copy_without_render. simpl. rewrite Hd, Hr. simpl.
    rewrite Hns, Hset. simpl. rewrite Hb. f_equal. apply Hiff.
    exists "*.bin". split; [done|]. apply star_bin_at_any_depth.
Qed.

(* ------------------------------------------------------------------- *)
(** *** The directories one level copies                                *)
(* ------------------------------------------------------------------- *)

Lemma no_copy_log {A} (c : M A) (w w' : world) (r : outcome A) :
  emits (λ e, tree_copy e = None) (λ _, True) w c →
  c w = (r, w') →
  ∃ d, log w' = log w ++ d ∧ omap tree_copy d = [].
Proof.
  intros Hc Hrun.
  destruct (Hc w r w' eq_refl eq_refl Hrun) as (_ & _ & (d & Hlog & Hd) & _).
  exists d. split; [done|]. clear Hlog.
  induction Hd as [|e d He _ IH]; [done|]. simpl. by rewrite He.
Qed.

Lemma no_copy_generate_one (project_dir : string) (context : loc)
      (env : environment) (root f : string) (w0 : world) :
  emits (λ e, tree_copy e = None) (λ _, True) w0
        (generate_one project_dir context env root f).
Proof.
  unfold generate_one. eapply emits_bind; [by apply emits_policy|].
  intros [|] _.
  - eapply emits_bind; [by apply emits_render|]. intros rendered _.
    eapply emits_bind.
    + eapply emits_fs_step; [apply copyfile_step|done].
    + intros _ _. eapply emits_fs_step; [apply copymode_step|done].
  - unfold generate_file. eapply emits_bind; [by apply emits_render|].
    intros rendered _. eapply emits_bind; [apply emits_is_binary|].
    intros binary _. eapply emits_bind.
    + destruct binary.
      * eapply emits_fs_step; [apply copyfile_step|done].
      * eapply emits_bind; [by apply emits_get_template|].
        intros text _. eapply emits_fs_step; [apply write_text_step|done].
    + intros _ _. eapply emits_fs_step; [apply copymode_step|done].
Qed.

Lemma no_copy_render_and_create_dir (dirname : string) (context : loc)
      (output_dir : string) (w0 : world) :
  emits (λ e, tree_copy e = None) (λ _, True) w0
        (render_and_create_dir dirname context output_dir ;;; ret tt).
Proof.
  eapply (emits_bind _ (λ _, True)); [|intros _ _; by apply emits_ret].
  unfold render_and_create_dir.
  eapply emits_bind; [by apply emits_render|].
  intros rendered _. eapply emits_bind.
  - eapply emits_fs_step; [apply make_sure_path_exists_step|done].
  - intros _ _. by apply emits_ret.
Qed.

Lemma policy_tests_copy_nothing (g : string → string) (dirs : list string) :
  omap tree_copy ((λ d, EvPolicy (g d)) <$> dirs) = [].
Proof. by induction dirs. Qed.

Lemma tree_copies (g h : string → list string) (l : list string) :
  omap tree_copy ((λ d, EvCopyTree (g d) (h d)) <$> l) = (λ d, (g d, h d)) <$> l.
Proof. induction l as [|d l IH]; [done|]. csimpl. by rewrite IH. Qed.

Lemma copytree_ok (src dst : string) (w w' : world) :
  copytree src dst w = (Ok tt, w') →
  heap w' = heap w ∧ cwd w' = cwd w ∧
  log w' = log w ++ [EvCopyTree (key w src) (key w dst)] ∧
  FS.copytree umask (key w src) (key w dst) (fs w) = Some (fs w').
Proof.
  unfold copytree.
  destruct (FS.copytree umask (key w src) (key w dst) (fs w)) as [f'|];
    intros [= <-]; done.
Qed.

(** The loop over [copy_dirs], when it returns: one tree copy for each
    directory, in order, and what was below a directory is there below
    its destination. *)
Lemma copy_dirs_run (project_dir root : string) (cs : list string)
      (w w' : world) :
  for_each cs (copy_dir_verbatim project_dir root) w = (Ok tt, w') →
  heap w' = heap w ∧ cwd w' = cwd w ∧
  log w' = log w
           ++ ((λ d, EvCopyTree
                       (key w (normpath (join root d)))
                       (key w (normpath (join project_dir (normpath (join root d))))))
                 <$> cs) ∧
  ∀ d, d ∈ cs →
       is_Some (fs w' !! key w (normpath (join project_dir (normpath (join root d)))))
       ∧ ∀ suffix,
           is_Some (fs w !! (key w (normpath (join root d)) ++ suffix)) →
           suffix ≠ [] →
           is_Some (fs w' !! (key w (normpath (join project_dir
                                               (normpath (join root d))))
                              ++ suffix)).
Proof.
  revert w. induction cs as [|x cs IH]; intros w Hrun.
  - injection Hrun as <-. rewrite app_nil_r. repeat split; try done.
    + by apply elem_of_nil in H.
    + by apply elem_of_nil in H.
  - simpl in Hrun. apply bind_ok_inv in Hrun as ([] & w1 & Hcopy & Hrun).
    pose proof (keeps_for_each cs (copy_dir_verbatim project_dir root)
                  (λ d, keeps_copytree _ _) _ _ _ Hrun) as Hkeep.
    pose proof (keeps_copytree _ _ _ _ _ Hcopy) as Hkeep1.
    unfold copy_dir_verbatim in Hcopy.
    apply copytree_ok in Hcopy as (Hh1 & Hc1 & Hl1 & Hfs1).
    apply IH in Hrun as (Hh & Hc & Hl & Hall).
    split; [congruence|]. split; [congruence|]. split.
    { rewrite Hl, Hl1, fmap_cons, <- app_assoc. simpl. f_equal. f_equal.
      apply list_fmap_ext. intros _ d _. by rewrite !(key_same w1 w). }
    intros d [->|Hd]%elem_of_cons.
    + apply copytree_spec in Hfs1 as ((m & _ & Hdst) & _ & Hsub). split.
      * apply Hkeep. exact (mk_is_Some _ _ Hdst).
      * intros suffix [n Hn] Hne. apply Hkeep.
        exact (mk_is_Some _ _ (Hsub suffix n Hne Hn)).
    + destruct (Hall d Hd) as [Hdst Hsub].
      rewrite (key_same w1 w) in Hdst by done.
      rewrite (key_same w1 w (normpath (join root d))),
        (key_same w1 w (normpath (join project_dir _))) in Hsub by done.
      split; [exact Hdst|].
      intros suffix Hsrc Hne. exact (Hsub suffix (Hkeep1 _ Hsrc) Hne).
Qed.

(** X20.  When the body of the walk returns for a directory, every
    sub-directory the policy accepted has been copied by one
    [copytree], in the order listed, from its path below the template
    root to the normalized join of the project directory with that same
    path - the name as it is in the template, unrendered - and no other
    tree was copied.  Each destination is there, and so is every entry
    that was below the directory, under the same relative name. *)
Theorem walk_body_copies_accepted_dirs
        (project_dir : string) (context : loc) (output_dir : string)
        (env : environment) (root : string) (dirs files dirs' : list string)
        (w w' : world) :
  walk_body project_dir context output_dir env root dirs files w
  = (Ok dirs', w') →
  let src d := key w (normpath (join root d)) in
  let dst d := key w (normpath (join project_dir (normpath (join root d)))) in
  (∃ delta,
      log w' = log w ++ delta ∧
      omap tree_copy delta
      = (λ d, (src d, dst d)) <$> List.filter (copied (heap w) root context) dirs)
  ∧ ∀ d, d ∈ dirs → copied (heap w) root context d = true →
         is_Some (fs w' !! dst d)
         ∧ ∀ suffix, is_Some (fs w !! (src d ++ suffix)) → suffix ≠ [] →
                     is_Some (fs w' !! (dst d ++ suffix)).
Proof.
  intros Hrun src dst. unfold walk_body in Hrun.
  apply bind_ok_inv in Hrun as ([cs rs] & w1 & Hpart & Hrun).
  apply partition_dirs_ok in Hpart as (-> & -> & _ & Hh1 & Hf1 & Hc1 & Hl1).
  apply bind_ok_inv in Hrun as ([] & w2 & Hcopy & Hrun).
  apply copy_dirs_run in Hcopy as (Hh2 & Hc2 & Hl2 & Hall).
  apply bind_ok_inv in Hrun as ([] & w3 & Hdirs & Hrun).
  apply bind_ok_inv in Hrun as ([] & w4 & Hfiles & Hret).
  injection Hret as _ <-.
  pose proof (keeps_for_each _ _ (λ d, keeps_bind _ _
                (keeps_render_and_create_dir _ _ _) (λ _, keeps_ret tt))
                _ _ _ Hdirs) as Hkeep3.
  pose proof (keeps_for_each _ _ (keeps_generate_one _ _ _ _) _ _ _ Hfiles)
    as Hkeep4.
  apply no_copy_log in Hdirs as (d3 & Hl3 & Hd3);
    [|apply emits_for_each; intros; apply no_copy_render_and_create_dir].
  apply no_copy_log in Hfiles as (d4 & Hl4 & Hd4);
    [|apply emits_for_each; intros; apply no_copy_generate_one].
  split.
  - eexists. split.
    + rewrite Hl4, Hl3, Hl2, Hl1, <- !app_assoc. reflexivity.
    + rewrite !omap_app, policy_tests_copy_nothing, Hd3, Hd4, app_nil_r.
      simpl. rewrite tree_copies. apply list_fmap_ext. intros _ d _.
      unfold src, dst. by rewrite !(key_same w1 w).
  - intros d Hd Hcopied.
    assert (Hin : d ∈ List.filter (copied (heap w) root context) dirs).
    { rewrite list_elem_of_In, filter_In, <- list_elem_of_In. by split. }
    destruct (Hall d Hin) as [Hdst Hsub].
    rewrite (key_same w1 w) in Hdst by done.
    rewrite (key_same w1 w (normpath (join root d))),
      (key_same w1 w (normpath (join project_dir _))), Hf1 in Hsub by done.
    split.
    + exact (Hkeep4 _ (Hkeep3 _ Hdst)).
    + intros suffix Hsrc Hne. exact (Hkeep4 _ (Hkeep3 _ (Hsub suffix Hsrc Hne))).
Qed.
End Generate.

(* ===================================================================== *)
(** ** The theorems at work                                               *)
(* ===================================================================== *)

(** Two ways to read a computed value without writing it out. *)
Lemma run_ok {A} (c : M A) (w : world) (a : A) :
  (c w).1 = Ok a → c w = (Ok a, (c w).2).
Proof. destruct (c w) as [r w']. simpl. by intros ->. Qed.

Lemma some_default {A} (x : option A) (d : A) :
  match x with Some _ => True | None => False end → x = Some (default d x).
Proof. by destruct x. Qed.

(** C1 at work: the binary asset two levels down matches [*.bin]. *)
Lemma copy_without_render_matches_witness :
  ∃ b, copy_without_render Demo.objects "src/asset.bin" 1%positive = Ok b ∧
       (b = true ↔ ∃ pats pat, Some ["*.bin"; "static"] = Some pats ∧ pat ∈ pats ∧
                               Fnmatch.fnmatch "src/asset.bin" pat = Some true) ∧
       (Some ["*.bin"; "static"] = None → b = false).
Proof.
  apply (copy_without_render_matches Demo.objects "src/asset.bin" 1%positive
           (Some ["*.bin"; "static"])).
  - apply (setting_present _ _ (default ∅ (Demo.objects !! 1%positive)) 2%positive
             (default ∅ (Demo.objects !! 2%positive))).
    + apply some_default. vm_compute. exact I.
    + vm_compute. reflexivity.
    + apply some_default. vm_compute. exact I.
    + vm_compute. reflexivity.
  - repeat constructor; eexists; vm_compute; reflexivity.
Defined.

(** C2 at work: a repository whose template directory is called
    [project] is refused, and nothing has been touched. *)
Lemma generate_files_untemplated_root_witness :
  (∃ w', generate_files 18 Demo.render_name Demo.render_source
           Demo.is_binary_data Demo.find_template_in Demo.no_hook
           5 "/repo" (Some 1%positive) "out" Demo.plain_repo
         = (Raise NonTemplatedInputDirException, w') ∧
         fs w' = fs Demo.plain_repo ∧ cwd w' = cwd Demo.plain_repo ∧
         log w' = log Demo.plain_repo)
  ∧ ensure_dir_is_templated "{{cookiecutter.project_name}}" = Ok true
  ∧ ensure_dir_is_templated "project" = Raise NonTemplatedInputDirException.
Proof.
  apply (generate_files_untemplated_root 18 Demo.render_name Demo.render_source
           Demo.is_binary_data Demo.find_template_in Demo.no_hook
           5 "/repo" (Some 1%positive) "out" Demo.plain_repo "/repo/project").
  - vm_compute. reflexivity.
  - eexists. apply (some_default _ ∅). vm_compute. exact I.
  - vm_compute. reflexivity.
Defined.

(** C3 at work: [asset.bin] matches [*.bin]; the walker copies it, and
    the [{{] in it arrives as it left. *)
Lemma generate_one_copies_verbatim_witness :
  let step := generate_one 18 Demo.render_name Demo.render_source Demo.is_binary_data
                "/work/out/Demo" 1%positive (Environment true ".")
                "./src" "asset.bin" in
  let w' := (step Demo.walking).2 in
  copy_without_render (heap Demo.walking) "src/asset.bin" 1%positive = Ok true ∧
  fs w' !! ["work"; "out"; "Demo"; "src"; "asset.bin"]
  = Some (File "raw {{ bytes" 420) ∧
  Forall (λ e, match e with EvGetTemplate _ | EvWrite _ => False | _ => True end)
         (log w').
Proof.
  intros step w'.
  destruct (generate_one_copies_verbatim 18 Demo.render_name Demo.render_source
              Demo.is_binary_data "/work/out/Demo" 1%positive (Environment true ".")
              "./src" "asset.bin" Demo.walking w' "raw {{ bytes" 420)
    as (rendered & Hren & Hfs & Hlog).
  - vm_compute. reflexivity.
  - right. vm_compute. reflexivity.
  - refine (run_ok step Demo.walking tt _). vm_compute. reflexivity.
  - vm_compute in Hren. injection Hren as <-.
    split; [vm_compute; reflexivity|]. split; [exact Hfs|].
    rewrite Hlog. by repeat constructor.
Defined.

(** C4 at work: [run.sh] comes out as the engine renders it, which
    here is as it went in, and it is still executable. *)
Lemma generate_file_contents_and_mode_witness :
  let step := generate_file 18 Demo.render_name Demo.render_source Demo.is_binary_data
                "/work/out/Demo" "run.sh" 1%positive walk_environment in
  let w' := (step Demo.walking).2 in
  FS.node_at (fs Demo.walking) (key Demo.walking "run.sh") = Some (File "echo hi" 493) ∧
  fs w' !! ["work"; "out"; "Demo"; "run.sh"] = Some (File "echo hi" 493).
Proof.
  intros step w'.
  destruct (generate_file_contents_and_mode 18 Demo.render_name Demo.render_source
              Demo.is_binary_data "/work/out/Demo" ["run.sh"] 1%positive
              Demo.walking w')
    as (_ & data & mode & rendered & out & Hfile & Hren & Hfs & _ & Hout).
  - discriminate.
  - by repeat constructor.
  - refine (run_ok step Demo.walking tt _). vm_compute. reflexivity.
  - vm_compute in Hfile. injection Hfile as <- <-.
    vm_compute in Hren. injection Hren as <-.
    destruct (Hout eq_refl) as [Htext _].
    assert (Hecho : Demo.render_source walk_environment
                      (with_event (EvGetTemplate "run.sh")
                         (with_event (EvRenderName "run.sh") Demo.walking))
                      1%positive "run.sh" "echo hi" = Ok "echo hi")
      by (vm_compute; reflexivity).
    change (Str.join_slash ["run.sh"]) with "run.sh" in Htext.
    rewrite Hecho in Htext. injection Htext as <-.
    assert (Hk : key Demo.walking (join "/work/out/Demo" "run.sh")
                 = ["work"; "out"; "Demo"; "run.sh"])
      by (vm_compute; reflexivity).
    rewrite Hk in Hfs.
    split; [vm_compute; reflexivity|exact Hfs].
Defined.

(** C7 at work: the template declares [cookiecutter]; the defaults
    replace it whole and add [full_name]; the extras replace [full_name]. *)
Lemma generate_context_precedence_witness :
  let defaults : gmap string value :=
    {[ "cookiecutter" := VDict 3%positive; "full_name" := VStr "Default" ]} in
  let extras : gmap string value := {[ "full_name" := VStr "Extra" ]} in
  let w := World (<[ 6%positive := extras ]> (<[ 5%positive := defaults ]> Demo.objects))
                 Demo.files "/work" [] in
  ∃ context w' merged,
    generate_context (Demo.load_context_from_file Demo.variables)
                     "cookiecutter.json" (Some 5%positive) (Some 6%positive) w
    = (Ok context, w') ∧
    heap w' !! context = Some merged ∧
    merged !! "cookiecutter" = Some (VDict 3%positive) ∧
    merged !! "full_name" = Some (VStr "Extra").
Proof.
  intros defaults extras w.
  set (loaded := (Demo.load_context_from_file Demo.variables "cookiecutter.json" w)).
  destruct (generate_context_precedence
              (Demo.load_context_from_file Demo.variables) "cookiecutter.json"
              (Some 5%positive) (Some 6%positive) w loaded.2
              {[ "cookiecutter" := VDict 7%positive ]})
    as (context & w' & merged & Hrun & _ & Hheap & Hmerged).
  - refine (run_ok (Demo.load_context_from_file Demo.variables "cookiecutter.json")
              w _ _). reflexivity.
  - eexists. apply (some_default _ ∅). vm_compute. exact I.
  - eexists. apply (some_default _ ∅). vm_compute. exact I.
  - exists context, w', merged. split; [done|]. split; [done|].
    split; rewrite Hmerged; vm_compute; reflexivity.
Defined.

Lemma hook_at (l : list event) (i : nat)
      (P : string → string → gmap (list string) node → Prop) :
  match l !! i with
  | Some (EvHook name pd seen) => P name pd seen
  | _ => False
  end →
  ∃ name pd seen, l !! i = Some (EvHook name pd seen) ∧ P name pd seen.
Proof. destruct (l !! i) as [[]|]; try done. eauto. Qed.

(** C5 at work: a whole run.  The pre-generation hook is the third step
    and finds the project root in place and nothing in it; the
    post-generation hook is the last step and finds the generated file.
    With a pre-generation script that fails, the run fails with the
    script's error and nothing has been generated. *)
Lemma hooks_bracket_generation_witness :
  let run := generate_files 18 Demo.render_name Demo.render_source
               Demo.is_binary_data Demo.find_template_in Demo.no_hook
               5 "/repo" (Some 1%positive) "out" Demo.start in
  let failed := generate_files 18 Demo.render_name Demo.render_source
                  Demo.is_binary_data Demo.find_template_in Demo.failing_pre_hook
                  5 "/repo" (Some 1%positive) "out" Demo.start in
  (run.1 = Ok tt ∧
   ∃ seen seen',
     log run.2 !! 2 = Some (EvHook "pre_gen_project" "/work/out/Demo" seen) ∧
     FS.mkdirs 18 [] (components "/work/out/Demo") (fs Demo.start) = Some seen ∧
     FS.isdir seen (components "/work/out/Demo") = true ∧
     seen !! ["work"; "out"; "Demo"; "README.md"] = None ∧
     log run.2 !! 29 = Some (EvHook "post_gen_project" "/work/out/Demo" seen') ∧
     drop 30 (log run.2) = [] ∧
     seen' !! ["work"; "out"; "Demo"; "README.md"] = Some (File "# Demo" 420))
  ∧ failed.1 = Raise (HookError "pre_gen_project")
  ∧ drop 3 (log failed.2) = []
  ∧ Forall (λ e, generates e = false) (log failed.2).
Proof.
  intros run failed. split.
  - destruct (hooks_bracket_generation 18 Demo.render_name Demo.render_source
                Demo.is_binary_data Demo.find_template_in Demo.no_hook
                5 "/repo" (Some 1%positive) "out" Demo.start run.2 run.1
                (surjective_pairing run))
      as (delta & Hlog & Hpre & Hpost).
    change (log Demo.start ++ delta) with delta in Hlog.
    assert (Hok : run.1 = Ok tt) by (vm_compute; reflexivity).
    destruct (hook_at (log run.2) 2
                (λ name pd seen, name = "pre_gen_project" ∧ pd = "/work/out/Demo"
                                 ∧ seen !! ["work"; "out"; "Demo"; "README.md"] = None))
      as (? & ? & seen & H2 & -> & -> & Hnone).
    { vm_compute. repeat split. }
    destruct (hook_at (log run.2) 29
                (λ name pd seen, name = "post_gen_project" ∧ pd = "/work/out/Demo"
                                 ∧ seen !! ["work"; "out"; "Demo"; "README.md"]
                                   = Some (File "# Demo" 420)))
      as (? & ? & seen' & H29 & -> & -> & Hreadme).
    { vm_compute. repeat split. }
    clearbody run. rewrite Hlog in *. clear Hlog.
    destruct (Hpre 2 _ _ H2) as (_ & Hmk & Hdir & _).
    destruct (Hpost 29 _ _ H29) as (Hlast & _).
    split; [exact Hok|]. exists seen, seen'.
    split; [exact H2|]. split; [exact Hmk|]. split; [exact Hdir|].
    split; [exact Hnone|]. split; [exact H29|]. split; [exact Hlast|exact Hreadme].
  - destruct (hooks_bracket_generation 18 Demo.render_name Demo.render_source
                Demo.is_binary_data Demo.find_template_in Demo.failing_pre_hook
                5 "/repo" (Some 1%positive) "out" Demo.start failed.2 failed.1
                (surjective_pairing failed))
      as (delta & Hlog & Hpre & _).
    change (log Demo.start ++ delta) with delta in Hlog.
    destruct (hook_at (log failed.2) 2
                (λ name pd seen, name = "pre_gen_project" ∧ pd = "/work/out/Demo"))
      as (? & ? & seen & H2 & -> & ->).
    { vm_compute. repeat split. }
    clearbody failed. rewrite Hlog in *. clear Hlog.
    destruct (Hpre 2 _ _ H2) as (_ & _ & _ & c & wc & _ & Hfail).
    exact (Hfail (HookError "pre_gen_project") eq_refl).
Defined.

(** C8 at work: a flat context.  After the run it contains itself, and
    the root name [{{cookiecutter.project_name}}] was rendered through
    that loop. *)
Lemma namespace_shim_witness :
  let run := generate_files 18 Demo.render_name Demo.render_source
               Demo.is_binary_data Demo.find_template_in Demo.no_hook
               5 "/repo" (Some 3%positive) "out" Demo.start in
  run.1 = Ok tt ∧
  heap run.2 !! 3%positive
  = Some (<[ "cookiecutter" := VDict 3%positive ]>
            (layer (heap Demo.start) (Some 3%positive))) ∧
  nested (heap run.2) 7 (VDict 3%positive) = Ok (VDict 3%positive) ∧
  FS.isdir (fs run.2) ["work"; "out"; "Demo"] = true.
Proof.
  intros run.
  assert (Hfind : Demo.find_template_in Demo.start "/repo"
                  = Ok "/repo/{{cookiecutter.project_name}}")
    by (vm_compute; reflexivity).
  assert (Htempl : ensure_dir_is_templated
                     (basename "/repo/{{cookiecutter.project_name}}") = Ok true)
    by (vm_compute; reflexivity).
  assert (Hlive : live (heap Demo.start) (Some 3%positive)).
  { eexists. apply (some_default _ ∅). vm_compute. exact I. }
  assert (Hkey : layer (heap Demo.start) (Some 3%positive) !! "cookiecutter" = None)
    by (vm_compute; reflexivity).
  assert (Hne : layer (heap Demo.start) (Some 3%positive) ≠ ∅).
  { intros Hempty. apply (f_equal (λ m : gmap string value, m !! "pkg")) in Hempty.
    vm_compute in Hempty. discriminate Hempty. }
  destruct (namespace_shim 18 Demo.render_name Demo.render_source
              Demo.is_binary_data Demo.find_template_in Demo.no_hook
              5 "/repo" (Some 3%positive) "out" Demo.start run.2 run.1
              "/repo/{{cookiecutter.project_name}}" Hfind Htempl Hlive Hkey
              (surjective_pairing run))
    as (c & Hc & _ & Hnested & Hsame & _).
  assert (Hok : run.1 = Ok tt) by (vm_compute; reflexivity).
  assert (Hdir : FS.isdir (fs run.2) ["work"; "out"; "Demo"] = true)
    by (vm_compute; reflexivity).
  clearbody run.
  rewrite (Hsame 3%positive eq_refl Hne) in Hc, Hnested.
  split; [exact Hok|]. split; [exact Hc|]. split; [exact (Hnested 7)|exact Hdir].
Defined.

(** C9 at work: the two directories of [out/Demo] below the working
    directory, of which one was there. *)
Lemma render_and_create_dir_creates_witness :
  ∃ w',
    render_and_create_dir 18 Demo.render_name "{{cookiecutter.project_name}}"
                          1%positive "out" Demo.start
    = (Ok (normpath (join "out" "Demo")), w') ∧
    isabs (normpath (join "out" "Demo")) = isabs "out" || isabs "Demo" ∧
    FS.isdir (fs w') ["work"; "out"; "Demo"] = true ∧
    fs w' !! ["work"; "out"] = Some (Dir 493).
Proof.
  assert (Hren : Demo.render_name (heap Demo.start) 1%positive
                   "{{cookiecutter.project_name}}" = Ok "Demo")
    by (vm_compute; reflexivity).
  assert (Hkey : key Demo.start (normpath (join "out" "Demo")) = ["work"; "out"; "Demo"])
    by (vm_compute; reflexivity).
  assert (Hout : fs Demo.start !! ["work"; "out"] = Some (Dir 493))
    by (vm_compute; reflexivity).
  assert (Hfree : ∀ (q : list string) (d : string) (m : N),
             q `prefix_of` key Demo.start (normpath (join "out" "Demo")) →
             fs Demo.start !! q ≠ Some (File d m)).
  { intros q d m [s Hs]. rewrite Hkey in Hs.
    destruct q as [|a q]; [vm_compute; discriminate|]. injection Hs as <- Hs.
    destruct q as [|b q]; [vm_compute; discriminate|]. injection Hs as <- Hs.
    destruct q as [|c q]; [vm_compute; discriminate|]. injection Hs as <- Hs.
    destruct q; [vm_compute; discriminate|discriminate Hs]. }
  destruct (render_and_create_dir_creates 18 Demo.render_name
              "{{cookiecutter.project_name}}" 1%positive "out" Demo.start "Demo"
              Hren Hfree)
    as (w' & Hrun & Habs & Hdirs & Hkeep & _).
  exists w'. split; [exact Hrun|]. split; [exact Habs|]. split.
  - apply Hdirs. rewrite Hkey. by exists [].
  - apply Hkeep. exact Hout.
Defined.

(** C10 at work: the walk of the sample template.  The policy is asked
    about every entry that [os.walk] reported and about nothing else;
    what it is asked is a path below the template root; and
    [src/asset.bin], one level down, is matched by [*.bin]. *)
Lemma walker_tests_relative_paths_witness :
  let run := walk 5 (walk_body 18 Demo.render_name Demo.render_source
                       Demo.is_binary_data "/work/out/Demo" 1%positive "out"
                       walk_environment) "." Demo.walking in
  run.1 = Ok tt ∧
  omap policy_path (log run.2) = expected_tests (log run.2) ∧
  EvPolicy "src/asset.bin" ∈ log run.2 ∧
  (∀ path, EvPolicy path ∈ log run.2 →
           ∃ comps dirs files name,
             EvWalk (walk_root comps) dirs files ∈ log run.2 ∧
             name ∈ dirs ++ files ∧
             path = Str.join_slash (comps ++ [name])) ∧
  copy_without_render (heap Demo.walking) "src/asset.bin" 1%positive = Ok true.
Proof.
  intros run.
  destruct (walker_tests_relative_paths 18 Demo.render_name Demo.render_source
              Demo.is_binary_data 5 "/work/out/Demo" 1%positive "out"
              walk_environment Demo.walking run.1 run.2
              (surjective_pairing run))
    as (delta & Hlog & _ & Hall & _ & Hpaths & Hstar).
  change (log Demo.walking ++ delta) with delta in Hlog.
  assert (Hok : run.1 = Ok tt) by (vm_compute; reflexivity).
  assert (Hasset : log run.2 !! 22 = Some (EvPolicy "src/asset.bin"))
    by (vm_compute; reflexivity).
  clearbody run. rewrite Hlog in *. clear Hlog.
  split; [exact Hok|]. split; [exact (Hall Hok)|].
  split; [exact (list_elem_of_lookup_2 _ _ _ Hasset)|]. split.
  - intros path Hin.
    destruct (Hpaths path Hin) as (comps & dirs & files & name & Hw & Hn & _ & Hp & _).
    exists comps, dirs, files, name. split; [exact Hw|]. split; [exact Hn|exact Hp].
  - refine (Hstar ["*.bin"; "static"] _ _ _ ["src"] "asset").
    + apply (setting_present _ _ (default ∅ (Demo.objects !! 1%positive)) 2%positive
               (default ∅ (Demo.objects !! 2%positive))).
      * apply some_default. vm_compute. exact I.
      * vm_compute. reflexivity.
      * apply some_default. vm_compute. exact I.
      * vm_compute. reflexivity.
    + repeat constructor; eexists; vm_compute; reflexivity.
    + repeat constructor.
Defined.

(* ===================================================================== *)
(** ** Where the code parts from the wording                              *)
(* ===================================================================== *)

(** C2 as worded asks for an opening delimiter followed by a closing
    one.  The name [}}x{{] has none, yet the check lets it through: the
    run then fails in the template engine, not with
    [NonTemplatedInputDirException]. *)
Lemma reversed_delimiters_pass_the_check :
  open_then_close "}}x{{" = false ∧
  ensure_dir_is_templated "}}x{{" = Ok true ∧
  Demo.find_template_in Demo.reversed_repo "/repo" = Ok "/repo/}}x{{" ∧
  (generate_files 18 Demo.render_name Demo.render_source Demo.is_binary_data
     Demo.find_template_in Demo.no_hook 5 "/repo" (Some 1%positive) "out"
     Demo.reversed_repo).1
  = Raise (TemplateError "unexpected end of template").
Proof. repeat split; vm_compute; reflexivity. Qed.

(** C4 as worded has text without template expressions come out byte
    for byte.  [notes.txt] holds none, is not binary, and its first line
    ends in CR LF; the engine hands back LF, and that is what is
    written. *)
Lemma dos_line_ends_are_rewritten :
  let run := generate_files 18 Demo.render_name Demo.render_source
               Demo.is_binary_data Demo.find_template_in Demo.no_hook
               5 "/repo" (Some 1%positive) "out" Demo.dos_start in
  run.1 = Ok tt ∧
  fs Demo.dos_start !! (Demo.template ++ ["notes.txt"])
  = Some (File Demo.dos_text 420) ∧
  no_template_expressions Demo.dos_text = true ∧
  Demo.is_binary_data Demo.dos_text = false ∧
  fs run.2 !! ["work"; "out"; "Demo"; "notes.txt"]
  = Some (File Demo.unix_text 420) ∧
  Demo.unix_text ≠ Demo.dos_text.
Proof. repeat split; vm_compute; (reflexivity || discriminate). Qed.

(** C6.  A package directory named by a variable holds [mod.py] and a
    directory [static] that the setting [*/static] selects.  The run
    returns.  The policy says yes to [{{cookiecutter.pkg}}/static] and
    the walk stays out of it; its tree is copied, unrendered, in one
    [copytree].  The module goes where the rendered name says, to
    [demo/mod.py]; the copied directory goes where the unrendered name
    says, to [{{cookiecutter.pkg}}/static], in a directory of the
    project that nothing else is generated into, and [demo] gets no
    [static]. *)
Theorem copy_dirs_land_under_unrendered_name :
  let run := generate_files 18 Demo.render_name Demo.render_source
               Demo.is_binary_data Demo.find_template_in Demo.no_hook
               5 "/repo" (Some 1%positive) "out" Demo.package_start in
  let out := ["work"; "out"; "Demo"] in
  run.1 = Ok tt ∧
  copy_without_render (heap Demo.package_start) "{{cookiecutter.pkg}}/static"
                      1%positive = Ok true ∧
  Demo.render_name (heap Demo.package_start) 1%positive "{{cookiecutter.pkg}}/static"
  = Ok "demo/static" ∧
  Demo.render_name (heap Demo.package_start) 1%positive "{{cookiecutter.pkg}}/mod.py"
  = Ok "demo/mod.py" ∧
  omap walk_triple (log run.2)
  = [(".", ["{{cookiecutter.pkg}}"], []);
     ("./{{cookiecutter.pkg}}", ["static"], ["mod.py"])] ∧
  omap policy_path (log run.2)
  = ["{{cookiecutter.pkg}}"; "{{cookiecutter.pkg}}/static";
     "{{cookiecutter.pkg}}/mod.py"] ∧
  omap tree_copy (log run.2)
  = [(Demo.package ++ ["static"], out ++ ["{{cookiecutter.pkg}}"; "static"])] ∧
  fs run.2 !! (out ++ ["demo"; "mod.py"]) = Some (File "x = 1" 420) ∧
  fs run.2 !! (out ++ ["{{cookiecutter.pkg}}"; "static"; "t.html"])
  = Some (File "{{ not rendered }}" 420) ∧
  fs run.2 !! (out ++ ["demo"; "static"]) = None ∧
  fs run.2 !! (out ++ ["demo"; "static"; "t.html"]) = None.
Proof. repeat split; vm_compute; reflexivity. Qed.

(** C8 as worded has the caller's dictionary changed whenever it lacks
    the key.  An empty dictionary lacks the key, and [context or {}]
    replaces it: after the run the caller's dictionary is still empty. *)
Lemma empty_context_is_replaced :
  let run := generate_files 18 Demo.render_name Demo.render_source
               Demo.is_binary_data Demo.find_template_in Demo.no_hook
               5 "/repo" (Some 4%positive) "out" Demo.start in
  layer (heap Demo.start) (Some 4%positive) !! "cookiecutter" = None ∧
  ensure_dir_is_templated "{{cookiecutter.project_name}}" = Ok true ∧
  FS.isdir (fs run.2) ["work"; "out"; "static"] = true ∧
  heap run.2 !! 4%positive = Some ∅ ∧
  getitem (heap run.2) (VDict 4%positive) "cookiecutter" = Raise KeyError.
Proof. repeat split; vm_compute; reflexivity. Qed.

(** C9 as worded returns an absolute path under the output root.  With
    the default output directory the path is relative, and a rendered
    name with [..] in it leaves the output root. *)
Lemma relative_output_dir_gives_relative_path :
  (render_and_create_dir 18 Demo.render_name "{{cookiecutter.project_name}}"
     1%positive "." Demo.start).1 = Ok "Demo" ∧
  isabs "Demo" = false ∧
  (render_and_create_dir 18 Demo.render_name "../{{cookiecutter.pkg}}"
     1%positive "out" Demo.start).1 = Ok "demo" ∧
  FS.isdir (fs (render_and_create_dir 18 Demo.render_name "../{{cookiecutter.pkg}}"
                  1%positive "out" Demo.start).2) ["work"; "demo"] = true.
Proof. repeat split; vm_compute; reflexivity. Qed.

(* ===================================================================== *)
(** ** The further properties at work                                     *)
(* ===================================================================== *)

Lemma run_raise {A} (c : M A) (w : world) (e : exn) :
  (c w).1 = Raise e → c w = (Raise e, (c w).2).
Proof. destruct (c w) as [r w']. simpl. by intros ->. Qed.

(** The stand-in engine renders an absolute name to an absolute name. *)
Lemma demo_render_keeps_absolute (h : gmap loc (gmap string value)) (c : loc)
      (s rendered : string) :
  Demo.render_name h c s = Ok rendered → isabs s = true → isabs rendered = true.
Proof.
  destruct s as [|a s]; [done|]. unfold isabs. rewrite startswith_cons.
  intros Hren [Ha _]%andb_true_iff. apply Ascii.eqb_eq in Ha as <-.
  unfold Demo.render_name in Hren.
  change (Demo.expand h c None (String "/" s))
    with (match Demo.expand h c None s with
          | Ok t => Ok (String "/" t)
          | Raise e => Raise e
          end) in Hren.
  destruct (Demo.expand h c None s) as [t|e]; [|done].
  injection Hren as <-. by destruct t.
Qed.

(** X1 at work: the root of the sample template. *)
Lemma ordered_delimiters_pass_witness :
  ensure_dir_is_templated "{{cookiecutter.project_name}}" = Ok true.
Proof.
  apply (ordered_delimiters_pass "{{cookiecutter.project_name}}").
  vm_compute. reflexivity.
Defined.

(** X2 at work: [static] is not matched by [*.bin] and is matched by the
    second entry; whatever follows that entry does not matter. *)
Lemma copy_without_render_first_decides_witness :
  copy_without_render Demo.objects "static" 1%positive
  = first_match "static" [VStr "static"]
  ∧ ∀ rest', first_match "static" ((VStr <$> ["*.bin"]) ++ VStr "static" :: rest')
             = first_match "static" [VStr "static"].
Proof.
  apply (copy_without_render_first_decides Demo.objects "static" 1%positive
           2%positive (default ∅ (Demo.objects !! 1%positive))
           (default ∅ (Demo.objects !! 2%positive))
           ["*.bin"] (VStr "static") []).
  - apply some_default. vm_compute. exact I.
  - vm_compute. reflexivity.
  - apply some_default. vm_compute. exact I.
  - vm_compute. reflexivity.
  - constructor; [vm_compute; reflexivity|constructor].
  - vm_compute. intros H. discriminate H.
Defined.

(** X3 at work: the setting ["*.html"], given as a string, selects
    [README.md]. *)
Lemma string_setting_is_read_by_character_witness :
  ∃ b, copy_without_render Demo.string_setting "README.md" 1%positive = Ok b
       ∧ (b = true ↔ ∃ c, c ∈ list_ascii_of_string "*.html"
                          ∧ Fnmatch.fnmatch "README.md" (String c "") = Some true)
       ∧ ("*"%char ∈ list_ascii_of_string "*.html" → b = true).
Proof.
  apply (string_setting_is_read_by_character Demo.string_setting "README.md"
           1%positive 2%positive (default ∅ (Demo.string_setting !! 1%positive))
           (default ∅ (Demo.string_setting !! 2%positive)) "*.html").
  - apply some_default. vm_compute. exact I.
  - vm_compute. reflexivity.
  - apply some_default. vm_compute. exact I.
  - vm_compute. reflexivity.
Defined.

(** X4 at work: the entry [static] does not select [static/t.html]. *)
Lemma literal_setting_selects_listed_paths_witness :
  copy_without_render Demo.literal_setting "static/t.html" 1%positive
  = Ok (bool_decide ("static/t.html" ∈ ["static"; "src/asset.bin"])).
Proof.
  apply (literal_setting_selects_listed_paths Demo.literal_setting "static/t.html"
           1%positive 2%positive (default ∅ (Demo.literal_setting !! 1%positive))
           (default ∅ (Demo.literal_setting !! 2%positive))
           ["static"; "src/asset.bin"]).
  - apply some_default. vm_compute. exact I.
  - vm_compute. reflexivity.
  - apply some_default. vm_compute. exact I.
  - vm_compute. reflexivity.
  - repeat constructor.
Defined.

(** X5 at work: object 3 is a flat context with the setting at its top
    level. *)
Lemma shim_makes_flat_setting_effective_witness :
  copy_without_render (heap Demo.start) "src/asset.bin" 3%positive = Ok false ∧
  ∃ w2 b, ensure_namespace 3%positive Demo.start = (Ok tt, w2)
          ∧ copy_without_render (heap w2) "src/asset.bin" 3%positive = Ok b
          ∧ (b = true ↔ ∃ pat, pat ∈ ["*.bin"; "static"]
                               ∧ Fnmatch.fnmatch "src/asset.bin" pat = Some true).
Proof.
  apply (shim_makes_flat_setting_effective Demo.start "src/asset.bin" 3%positive
           (default ∅ (heap Demo.start !! 3%positive)) ["*.bin"; "static"]).
  - apply some_default. vm_compute. exact I.
  - vm_compute. reflexivity.
  - vm_compute. reflexivity.
  - repeat constructor; eexists; vm_compute; reflexivity.
Defined.

(** X6 at work: the two override layers of the sample run are as they
    were once the declaration was loaded. *)
Lemma generate_context_leaves_layers_witness :
  let defaults : gmap string value :=
    {[ "cookiecutter" := VDict 3%positive; "full_name" := VStr "Default" ]} in
  let extras : gmap string value := {[ "full_name" := VStr "Extra" ]} in
  let w := World (<[ 6%positive := extras ]> (<[ 5%positive := defaults ]> Demo.objects))
                 Demo.files "/work" [] in
  let w1 := (Demo.load_context_from_file Demo.variables "cookiecutter.json" w).2 in
  let run := generate_context (Demo.load_context_from_file Demo.variables)
               "cookiecutter.json" (Some 5%positive) (Some 6%positive) w in
  (∃ context, run.1 = Ok context) ∧
  layer (heap run.2) (Some 5%positive) = layer (heap w1) (Some 5%positive) ∧
  layer (heap run.2) (Some 6%positive) = layer (heap w1) (Some 6%positive).
Proof.
  intros defaults extras w w1 run.
  destruct (generate_context_leaves_layers
              (Demo.load_context_from_file Demo.variables) "cookiecutter.json"
              (Some 5%positive) (Some 6%positive) w w1 run.2
              {[ "cookiecutter" := VDict 7%positive ]} run.1)
    as (context & Hrun & _ & _ & _ & Hdefault & Hextra & _).
  - refine (run_ok (Demo.load_context_from_file Demo.variables "cookiecutter.json")
              w _ _). reflexivity.
  - eexists. apply (some_default _ ∅). vm_compute. exact I.
  - eexists. apply (some_default _ ∅). vm_compute. exact I.
  - exact (surjective_pairing run).
  - split; [exists context; exact Hrun|]. split; [exact Hdefault|exact Hextra].
Defined.

(** X7 at work: the namespace of the sample context after a whole
    run. *)
Lemma generate_files_heap_frame_witness :
  let run := generate_files 18 Demo.render_name Demo.render_source
               Demo.is_binary_data Demo.find_template_in Demo.no_hook
               5 "/repo" (Some 1%positive) "out" Demo.start in
  heap run.2 !! 2%positive = heap Demo.start !! 2%positive.
Proof.
  intros run.
  assert (Hd : heap Demo.start !! 2%positive
               = Some (default ∅ (heap Demo.start !! 2%positive))).
  { apply some_default. vm_compute. exact I. }
  refine (eq_trans _ (eq_sym Hd)).
  apply (generate_files_heap_frame 18 Demo.render_name Demo.render_source
           Demo.is_binary_data Demo.find_template_in Demo.no_hook
           5 "/repo" (Some 1%positive) "out" Demo.start run.2 run.1
           2%positive (default ∅ (heap Demo.start !! 2%positive))
           (surjective_pairing run) Hd).
  intros H. discriminate H.
Defined.

(** X8 at work: generating [README.md] leaves the template's
    [README.md] as it is. *)
Lemma generate_one_touches_one_path_witness :
  let step := generate_one 18 Demo.render_name Demo.render_source Demo.is_binary_data
                "/work/out/Demo" 1%positive (Environment true ".")
                "." "README.md" in
  let w' := (step Demo.walking).2 in
  is_Some (fs w' !! ["work"; "out"; "Demo"; "README.md"]) ∧
  fs w' !! (Demo.template ++ ["README.md"])
  = fs Demo.walking !! (Demo.template ++ ["README.md"]).
Proof.
  intros step w'.
  destruct (generate_one_touches_one_path 18 Demo.render_name Demo.render_source
              Demo.is_binary_data "/work/out/Demo" 1%positive (Environment true ".")
              "." "README.md" Demo.walking w')
    as (rendered & Hren & Hsome & Hother & _).
  - refine (run_ok step Demo.walking tt _). vm_compute. reflexivity.
  - vm_compute in Hren. injection Hren as <-.
    assert (Hk : key Demo.walking (join "/work/out/Demo" "README.md")
                 = ["work"; "out"; "Demo"; "README.md"])
      by (vm_compute; reflexivity).
    rewrite Hk in Hsome, Hother. split; [exact Hsome|].
    apply Hother. intros H. discriminate H.
Defined.

(** X9 at work: the project name holds a lone surrogate, [README.md]
    has it in its text, and the codec refuses it: the output file has
    been created and is empty. *)
Lemma generate_one_failure_leaves_at_most_empty_output_witness :
  let step := generate_one 18 Demo.render_name Demo.render_source Demo.is_binary_data
                "/work/out/Demo" 1%positive walk_environment "." "README.md" in
  let w' := (step Demo.surrogate_walking).2 in
  (step Demo.surrogate_walking).1 = Raise UnicodeEncodeError ∧
  heap w' = heap Demo.surrogate_walking ∧ cwd w' = cwd Demo.surrogate_walking ∧
  fs Demo.surrogate_walking !! ["work"; "out"; "Demo"; "README.md"] = None ∧
  ∃ m, fs w' = <[ ["work"; "out"; "Demo"; "README.md"] := File "" m ]>
                 (fs Demo.surrogate_walking).
Proof.
  intros step w'.
  assert (Hraise : (step Demo.surrogate_walking).1 = Raise UnicodeEncodeError)
    by (vm_compute; reflexivity).
  assert (Hnew : is_Some (fs w' !! ["work"; "out"; "Demo"; "README.md"])).
  { eexists. apply (some_default _ (Dir 0)). vm_compute. exact I. }
  assert (Hold : fs Demo.surrogate_walking !! ["work"; "out"; "Demo"; "README.md"]
                 = None) by (vm_compute; reflexivity).
  destruct (generate_one_failure_leaves_at_most_empty_output 18 Demo.render_name
              Demo.render_source Demo.is_binary_data "/work/out/Demo" 1%positive
              walk_environment "." "README.md" Demo.surrogate_walking w'
              UnicodeEncodeError (run_raise step Demo.surrogate_walking _ Hraise))
    as (Hheap & Hcwd & [Hfs|(rendered & m & Hren & _ & Hfs)]).
  - rewrite Hfs, Hold in Hnew. by destruct Hnew.
  - split; [exact Hraise|]. split; [exact Hheap|]. split; [exact Hcwd|].
    split; [exact Hold|]. exists m.
    vm_compute in Hren. injection Hren as <-.
    assert (Hk : key Demo.surrogate_walking (join "/work/out/Demo" "README.md")
                 = ["work"; "out"; "Demo"; "README.md"])
      by (vm_compute; reflexivity).
    rewrite Hk in Hfs. exact Hfs.
Defined.

(** X10 at work: [README.md] comes out rendered. *)
Lemma generate_file_writes_rendering_witness :
  let step := generate_file 18 Demo.render_name Demo.render_source Demo.is_binary_data
                "/work/out/Demo" "README.md" 1%positive (Environment true ".") in
  let w' := (step Demo.walking).2 in
  fs w' !! ["work"; "out"; "Demo"; "README.md"] = Some (File "# Demo" 420).
Proof.
  intros step w'.
  destruct (generate_file_writes_rendering 18 Demo.render_name Demo.render_source
              Demo.is_binary_data "/work/out/Demo" ["README.md"] 1%positive
              (Environment true ".") Demo.walking w'
              "# {{cookiecutter.project_name}}" 420)
    as (rendered & text & Hren & Htext & Hfs & _).
  - discriminate.
  - repeat constructor.
  - reflexivity.
  - vm_compute. reflexivity.
  - vm_compute. reflexivity.
  - refine (run_ok step Demo.walking tt _). vm_compute. reflexivity.
  - vm_compute in Hren. injection Hren as <-.
    vm_compute in Htext. injection Htext as <-.
    assert (Hk : key Demo.walking (join "/work/out/Demo" "README.md")
                 = ["work"; "out"; "Demo"; "README.md"])
      by (vm_compute; reflexivity).
    rewrite Hk in Hfs. rewrite Hfs. apply lookup_insert_eq.
Defined.

(** X11 at work: [src/asset.bin] holds text with an opening delimiter
    that is never closed. *)
Lemma generate_file_surfaces_template_error_witness :
  generate_file 18 Demo.render_name Demo.render_source Demo.is_binary_data
    "/work/out/Demo" (Str.join_slash ["src"; "asset.bin"]) 1%positive
    (Environment true ".") Demo.walking
  = (Raise (TemplateError "unexpected end of template"),
     with_event (EvGetTemplate (Str.join_slash ["src"; "asset.bin"]))
       (with_event (EvRenderName (Str.join_slash ["src"; "asset.bin"]))
          Demo.walking)).
Proof.
  apply (generate_file_surfaces_template_error 18 Demo.render_name
           Demo.render_source Demo.is_binary_data "/work/out/Demo"
           ["src"; "asset.bin"] 1%positive (Environment true ".") Demo.walking
           "raw {{ bytes" 420 "src/asset.bin"
           (TemplateError "unexpected end of template")).
  - discriminate.
  - repeat constructor.
  - reflexivity.
  - vm_compute. reflexivity.
  - vm_compute. reflexivity.
  - vm_compute. reflexivity.
  - vm_compute. reflexivity.
Defined.

(** X12 at work: of [src] and [static], the walk goes on into [src]. *)
Lemma walk_body_keeps_rejected_dirs_witness :
  ["src"] = List.filter (λ d, negb (copied (heap Demo.walking) "." 1%positive d))
                        ["src"; "static"]
  ∧ ∀ d, d ∈ ["src"; "static"] →
         ∃ b, copy_without_render (heap Demo.walking) (normpath (join "." d))
                1%positive = Ok b
              ∧ (d ∈ ["src"] ↔ b = false).
Proof.
  set (step := walk_body 18 Demo.render_name Demo.render_source
                 Demo.is_binary_data "/work/out/Demo" 1%positive "out"
                 (Environment true ".") "." ["src"; "static"]
                 ["README.md"; "run.sh"]).
  apply (walk_body_keeps_rejected_dirs 18 Demo.render_name Demo.render_source
           Demo.is_binary_data "/work/out/Demo" 1%positive "out"
           (Environment true ".") "." ["src"; "static"] ["README.md"; "run.sh"]
           ["src"] Demo.walking (step Demo.walking).2).
  refine (run_ok step Demo.walking _ _). vm_compute. reflexivity.
Defined.

(** X13 at work: the walk of the sample template, told two different
    output directories. *)
Lemma walk_ignores_output_dir_witness :
  walk 5 (walk_body 18 Demo.render_name Demo.render_source Demo.is_binary_data
            "/work/out/Demo" 1%positive "out" (Environment true "."))
       "." Demo.walking
  = walk 5 (walk_body 18 Demo.render_name Demo.render_source Demo.is_binary_data
              "/work/out/Demo" 1%positive "/somewhere/else" (Environment true "."))
         "." Demo.walking.
Proof.
  apply (walk_ignores_output_dir 18 Demo.render_name Demo.render_source
           Demo.is_binary_data 5 "/work/out/Demo" 1%positive "out"
           "/somewhere/else" (Environment true ".") "." Demo.walking).
  - exact demo_render_keeps_absolute.
  - reflexivity.
Defined.

(** X14 at work: the output directory that was there before the walk. *)
Lemma walk_never_deletes_witness :
  let run := walk 5 (walk_body 18 Demo.render_name Demo.render_source
                       Demo.is_binary_data "/work/out/Demo" 1%positive "out"
                       (Environment true ".")) "." Demo.walking in
  is_Some (fs run.2 !! ["work"; "out"; "Demo"; "src"]).
Proof.
  intros run.
  apply (walk_never_deletes 18 Demo.render_name Demo.render_source
           Demo.is_binary_data 5 "/work/out/Demo" 1%positive "out"
           (Environment true ".") "." Demo.walking run.2 run.1
           ["work"; "out"; "Demo"; "src"] (surjective_pairing run)).
  exists (Dir 493). vm_compute. reflexivity.
Defined.

(** X15 at work: an output directory written the long way. *)
Lemma render_and_create_dir_returns_normal_path_witness :
  let step := render_and_create_dir 18 Demo.render_name
                "{{cookiecutter.project_name}}" 1%positive "out//./x/.." in
  let w' := (step Demo.start).2 in
  normpath "out/Demo" = "out/Demo" ∧ "out/Demo" ≠ "" ∧
  FS.isdir (fs w') (key Demo.start "out/Demo") = true ∧
  ∃ rendered,
    Demo.render_name (heap Demo.start) 1%positive "{{cookiecutter.project_name}}"
    = Ok rendered
    ∧ isabs "out/Demo" = isabs "out//./x/.." || isabs rendered.
Proof.
  intros step w'.
  apply (render_and_create_dir_returns_normal_path 18 Demo.render_name
           "{{cookiecutter.project_name}}" 1%positive "out//./x/.."
           Demo.start w' "out/Demo").
  refine (run_ok step Demo.start _ _). vm_compute. reflexivity.
Defined.

(** X16 at work: the whole run, started in [/work] with the relative
    output directory [out]. *)
Lemma hooks_get_absolute_project_dir_witness :
  let run := generate_files 18 Demo.render_name Demo.render_source
               Demo.is_binary_data Demo.find_template_in Demo.no_hook
               5 "/repo" (Some 1%positive) "out" Demo.start in
  ∃ delta, log run.2 = log Demo.start ++ delta ∧
           ∀ name pd seen, EvHook name pd seen ∈ delta →
                           isabs pd = true ∧ normpath pd = pd.
Proof.
  intros run.
  apply (hooks_get_absolute_project_dir 18 Demo.render_name Demo.render_source
           Demo.is_binary_data Demo.find_template_in Demo.no_hook
           5 "/repo" (Some 1%positive) "out" Demo.start run.2 run.1
           (surjective_pairing run)).
  reflexivity.
Defined.

(** X17 at work: the second generation into the same project stops at
    [static]. *)
Lemma walk_body_refuses_existing_copy_target_witness :
  let run := walk_body 18 Demo.render_name Demo.render_source
               Demo.is_binary_data "/work/out/Demo" 1%positive "out"
               (Environment true ".") "." ["src"; "static"]
               ["README.md"; "run.sh"] Demo.regenerated in
  ∃ e, run.1 = Raise e.
Proof.
  intros run.
  apply (walk_body_refuses_existing_copy_target 18 Demo.render_name
           Demo.render_source Demo.is_binary_data "/work/out/Demo" 1%positive
           "out" (Environment true ".") "." "static" ["src"; "static"]
           ["README.md"; "run.sh"] Demo.regenerated run.2 run.1).
  - repeat constructor.
  - vm_compute. reflexivity.
  - exists (Dir 448). vm_compute. reflexivity.
  - exact (surjective_pairing run).
Defined.

(** X18 at work: the top level of the sample template. *)
Lemma walk_body_tests_each_entry_once_witness :
  let step := walk_body 18 Demo.render_name Demo.render_source
                Demo.is_binary_data "/work/out/Demo" 1%positive "out"
                (Environment true ".") "." ["src"; "static"]
                ["README.md"; "run.sh"] in
  ∃ delta,
    log (step Demo.walking).2 = log Demo.walking ++ delta ∧
    omap policy_path delta
    = ((λ name, normpath (join "." name)) <$> ["src"; "static"])
      ++ ((λ name, normpath (join "." name)) <$> ["README.md"; "run.sh"]).
Proof.
  intros step.
  apply (walk_body_tests_each_entry_once 18 Demo.render_name Demo.render_source
           Demo.is_binary_data "/work/out/Demo" 1%positive "out"
           (Environment true ".") "." ["src"; "static"] ["README.md"; "run.sh"]
           ["src"] Demo.walking (step Demo.walking).2).
  refine (run_ok step Demo.walking _ _). vm_compute. reflexivity.
Defined.

(** X19 at work: [static] matches the policy; the walk never reports
    it, never asks about [static/t.html] and never loads it as a
    template. *)
Lemma walk_never_descends_into_copied_witness :
  let run := walk 5 (walk_body 18 Demo.render_name Demo.render_source
                       Demo.is_binary_data "/work/out/Demo" 1%positive "out"
                       walk_environment) "." Demo.walking in
  run.1 = Ok tt ∧
  copy_without_render (heap Demo.walking) (Str.join_slash ["static"]) 1%positive
  = Ok true ∧
  (∀ dirs files, EvWalk (walk_root ["static"]) dirs files ∉ log run.2) ∧
  (EvPolicy (Str.join_slash ["static"; "t.html"]) ∉ log run.2) ∧
  (EvGetTemplate (Str.join_slash ["static"; "t.html"]) ∉ log run.2).
Proof.
  intros run.
  destruct (walk_never_descends_into_copied 18 Demo.render_name Demo.render_source
              Demo.is_binary_data 5 "/work/out/Demo" 1%positive "out"
              walk_environment Demo.walking run.1 run.2
              (surjective_pairing run))
    as (delta & Hlog & _ & Hnot).
  change (log Demo.walking ++ delta) with delta in Hlog.
  assert (Hok : run.1 = Ok tt) by (vm_compute; reflexivity).
  assert (Hstatic : copy_without_render (heap Demo.walking)
                      (Str.join_slash ["static"]) 1%positive = Ok true)
    by (vm_compute; reflexivity).
  assert (Hne : ["static"] ≠ []) by discriminate.
  assert (Hp1 : Forall (λ c, FS.plain c = true) (["static"] ++ []))
    by (repeat constructor).
  assert (Hp2 : Forall (λ c, FS.plain c = true) (["static"] ++ ["t.html"]))
    by (repeat constructor).
  assert (Hr : ["t.html"] ≠ []) by discriminate.
  clearbody run. rewrite Hlog in *. clear Hlog.
  split; [exact Hok|]. split; [exact Hstatic|].
  split; [|split]; [intros dirs files Hin|intros Hin|intros Hin].
  - pose proof (Hnot ["static"] [] Hne Hp1
                  (or_introl (ex_intro _ dirs (ex_intro _ files Hin)))) as Hf.
    rewrite Hstatic in Hf. discriminate Hf.
  - pose proof (Hnot ["static"] ["t.html"] Hne Hp2
                  (or_intror (conj Hr (or_introl Hin)))) as Hf.
    rewrite Hstatic in Hf. discriminate Hf.
  - pose proof (Hnot ["static"] ["t.html"] Hne Hp2
                  (or_intror (conj Hr (or_intror Hin)))) as Hf.
    rewrite Hstatic in Hf. discriminate Hf.
Defined.

(** X20 at work: the top level of the sample template.  Of [src] and
    [static] the policy accepts [static]: it is the one tree copied,
    and [t.html] is below its destination. *)
Lemma walk_body_copies_accepted_dirs_witness :
  let step := walk_body 18 Demo.render_name Demo.render_source
                Demo.is_binary_data "/work/out/Demo" 1%positive "out"
                walk_environment "." ["src"; "static"]
                ["README.md"; "run.sh"] in
  let w' := (step Demo.walking).2 in
  (∃ delta,
      log w' = log Demo.walking ++ delta ∧
      omap tree_copy delta
      = [(Demo.template ++ ["static"], ["work"; "out"; "Demo"; "static"])]) ∧
  is_Some (fs w' !! ["work"; "out"; "Demo"; "static"; "t.html"]).
Proof.
  intros step w'.
  destruct (walk_body_copies_accepted_dirs 18 Demo.render_name Demo.render_source
              Demo.is_binary_data "/work/out/Demo" 1%positive "out"
              walk_environment "." ["src"; "static"] ["README.md"; "run.sh"]
              ["src"] Demo.walking w')
    as [(delta & Hlog & Hcopies) Hpresent].
  { refine (run_ok step Demo.walking _ _). vm_compute. reflexivity. }
  split.
  - exists delta. split; [exact Hlog|]. rewrite Hcopies. vm_compute. reflexivity.
  - assert (Hin : "static" ∈ ["src"; "static"]) by (repeat constructor).
    assert (Hcopied : copied (heap Demo.walking) "." 1%positive "static" = true)
      by (vm_compute; reflexivity).
    destruct (Hpresent "static" Hin Hcopied) as [_ Hsub].
    assert (Hs : key Demo.walking (normpath (join "." "static"))
                 = Demo.template ++ ["static"]) by (vm_compute; reflexivity).
    assert (Hd : key Demo.walking
                   (normpath (join "/work/out/Demo" (normpath (join "." "static"))))
                 = ["work"; "out"; "Demo"; "static"]) by (vm_compute; reflexivity).
    rewrite Hs, Hd in Hsub. apply (Hsub ["t.html"]); [|discriminate].
    eapply mk_is_Some, (some_default _ (Dir 0)). vm_compute. exact I.
Defined.
